(** * py_io_uring: lifetime and identity of requests and completions

    A shallow embedding of [src/py_io_uring.c], the CPython extension that
    wraps liburing.  The C structs become records, the CPython heap becomes
    finite maps from addresses to objects carrying their reference count,
    and every C function becomes a function on an explicit [state].

    Functions of CPython and liburing that the module calls are not part of
    the repository; they are modelled in the sections named after them from
    their documented behaviour, with the choices made stated where they are
    made.  A C execution that dereferences a dead or null pointer has no
    defined result; the embedding returns [None] or [Undefined] there. *)

From Stdlib Require Import ZArith Floats.
From stdpp Require Import gmap list strings.

Local Open Scope Z_scope.

(** ** C scalars *)

Module CInt.

Definition INT_MIN : Z := - 2 ^ 31.
Definition INT_MAX : Z := 2 ^ 31 - 1.
Definition LLONG_MIN : Z := - 2 ^ 63.
Definition LLONG_MAX : Z := 2 ^ 63 - 1.

(** Reduction of a mathematical integer to [int] and to [unsigned]. *)
Definition wrap_int (z : Z) : Z := (z + 2 ^ 31) mod 2 ^ 32 - 2 ^ 31.
Definition wrap_uint (z : Z) : Z := z mod 2 ^ 32.

Definition is_int (z : Z) : bool := (INT_MIN <=? z) && (z <=? INT_MAX).

(** Unary minus on [int] ([errno = -ret], [errno = -res]). *)
Definition int_neg (x : Z) : Z := wrap_int (- x).

End CInt.
Export CInt.

(** [double] is IEEE binary64, the kernel's primitive float. *)
Module CDouble.

(** [if (d)]: true unless [d] compares equal to zero (so NaN is true and
    both zeros are false). *)
Definition truth (d : float) : bool := negb (PrimFloat.eqb d 0%float).

(** [(long long) d]: truncation toward zero; a value that does not fit,
    an infinity or a NaN has no defined conversion. *)
Definition to_longlong (d : float) : option Z :=
  match Prim2SF d with
  | S754_zero _ => Some 0
  | S754_finite s m e =>
      let mag := if 0 <=? e then Z.pos m * 2 ^ e else Z.pos m / 2 ^ (- e) in
      let v := if s then - mag else mag in
      if (LLONG_MIN <=? v) && (v <=? LLONG_MAX) then Some v else None
  | S754_infinity _ | S754_nan => None
  end.

(** [(double) z], rounding to nearest. *)
Definition of_Z (z : Z) : float :=
  SF2Prim (binary_normalize FloatOps.prec FloatOps.emax z 0 false).

End CDouble.

(** [struct __kernel_timespec]. *)
Record timespec := Timespec { tv_sec : Z; tv_nsec : Z }.

(** The two assignments shared by [IoUring_wait_cqes] and
    [Sqe_prep_timeout]:
    [ts.tv_sec = (long long) timeout;
     ts.tv_nsec = (long long) ((timeout - ts.tv_sec) * 1e9);] *)
Definition timespec_of_double (timeout : float) : option timespec :=
  sec ← CDouble.to_longlong timeout;
  nsec ← CDouble.to_longlong ((timeout - CDouble.of_Z sec) * 1000000000)%float;
  Some (Timespec sec nsec).

(** ** Python values and the three object layouts *)

Definition addr := positive.

(** A pointer stored in a 64-bit kernel field ([user_data], [addr]) and read
    back from it. *)
Definition ptr_to_u64 (a : addr) : Z := Z.pos a.
Definition u64_to_ptr (z : Z) : option addr :=
  match z with Z.pos p => Some p | _ => None end.

Inductive pytype :=
| SqeType | CqeType | PyTuple_Type | PyList_Type | PyLong_Type
| PyFloat_Type | PyUnicode_Type | PyBytes_Type | PyNone_Type.

#[global] Instance pytype_eq_dec : EqDecision pytype.
Proof. solve_decision. Defined.

#[warnings="-register-all"]
Inductive pyobj :=
| PyNone
| PyLong (z : Z)
| PyFloat (d : float)
| PyUnicode (s : string)
| PyTuple (items : list pyobj)
| PyList (items : list pyobj)
| PyBytes (b : addr)
| PySqe (s : addr)
| PyCqe (c : addr).

Definition Py_TYPE (o : pyobj) : pytype :=
  match o with
  | PyNone => PyNone_Type
  | PyLong _ => PyLong_Type
  | PyFloat _ => PyFloat_Type
  | PyUnicode _ => PyUnicode_Type
  | PyTuple _ => PyTuple_Type
  | PyList _ => PyList_Type
  | PyBytes _ => PyBytes_Type
  | PySqe _ => SqeType
  | PyCqe _ => CqeType
  end.

(** [Py_buffer], reduced to the three fields the module reads. *)
Record Py_buffer := mkPy_buffer {
  buf_obj : option addr;
  buf_buf : Z;
  buf_len : Z
}.

(** [SqeObject].  [sqe] points into the ring's submission array (an index),
    [cqeobj] is the uncounted pointer to the live completion wrapper. *)
Record SqeObject := mkSqe {
  sqe_refcnt : nat;
  sqe : option nat;
  fd : Z;
  error : Z;
  operation : Z;
  allocated_buffer : option addr;
  user_buffer : Py_buffer;
  data : pyobj;
  cqeobj : option addr
}.

(** [CqeObject].  [cqe] points into the ring's completion array. *)
Record CqeObject := mkCqe {
  cqe_refcnt : nat;
  cqe : option nat;
  sqeobj : option addr;
  seen : bool
}.

(** A bytes-like object: what [PyBytes_FromStringAndSize] allocates and what
    a caller passes for a ["y*"] argument.  [ob_exports] counts the buffer
    views currently held on it. *)
Record PyBytesObject := mkBytes {
  bytes_refcnt : nat;
  ob_sval : list Byte.byte;
  ob_exports : nat
}.

(** ** The native ring *)

Record io_uring_sqe := mkNSqe {
  opcode : Z;
  sqe_fd : Z;
  off : option Z;          (* [None]: written from an unset local *)
  sqe_addr : Z;
  len : Z;
  op_flags : Z;
  user_data : Z
}.

Record io_uring_cqe := mkNCqe {
  cqe_user_data : Z;
  res : Z;
  cqe_flags : Z
}.

Record io_uring := mkRing {
  sqes : list io_uring_sqe;     (* the submission array *)
  sqe_head : Z;
  sqe_tail : Z;
  cqes : list io_uring_cqe;     (* the completion array *)
  cq_head : Z;
  cq_tail : Z
}.

Definition IORING_OP_NOP : Z := 0.
Definition IORING_OP_TIMEOUT : Z := 11.
Definition IORING_OP_TIMEOUT_REMOVE : Z := 12.
Definition IORING_OP_ACCEPT : Z := 13.
Definition IORING_OP_ASYNC_CANCEL : Z := 14.
Definition IORING_OP_CONNECT : Z := 16.
Definition IORING_OP_CLOSE : Z := 19.
Definition IORING_OP_READ : Z := 22.
Definition IORING_OP_WRITE : Z := 23.
Definition IORING_OP_SEND : Z := 26.
Definition IORING_OP_RECV : Z := 27.

Definition EAGAIN : Z := 11.
Definition ETIME : Z := 62.

(** ** Program state *)

(** One [IoUringObject] ([ring], [wait_submit]) and the three heaps.  The
    heaps are kept per object type: a pointer of one type never resolves to
    an object of another. *)
Record state := mkState {
  sqe_heap : gmap addr SqeObject;
  cqe_heap : gmap addr CqeObject;
  bytes_heap : gmap addr PyBytesObject;
  ring : io_uring;
  wait_submit : list addr
}.

Definition set_sqe_heap (f : gmap addr SqeObject → gmap addr SqeObject) (st : state) : state :=
  mkState (f (sqe_heap st)) (cqe_heap st) (bytes_heap st) (ring st) (wait_submit st).
Definition set_cqe_heap (f : gmap addr CqeObject → gmap addr CqeObject) (st : state) : state :=
  mkState (sqe_heap st) (f (cqe_heap st)) (bytes_heap st) (ring st) (wait_submit st).
Definition set_bytes_heap (f : gmap addr PyBytesObject → gmap addr PyBytesObject) (st : state) : state :=
  mkState (sqe_heap st) (cqe_heap st) (f (bytes_heap st)) (ring st) (wait_submit st).
Definition set_ring (f : io_uring → io_uring) (st : state) : state :=
  mkState (sqe_heap st) (cqe_heap st) (bytes_heap st) (f (ring st)) (wait_submit st).
Definition set_wait_submit (l : list addr) (st : state) : state :=
  mkState (sqe_heap st) (cqe_heap st) (bytes_heap st) (ring st) l.

Inductive pyerr :=
| OSError (errno : Z)
| TypeError
| OverflowError
| SystemError.

(** What a call of a C function of the module does: return a value, return
    [NULL] with an exception set, never return, or leave defined
    behaviour. *)
Inductive outcome (A : Type) :=
| Ret (v : A) (st : state)
| Raise (e : pyerr) (st : state)
| Blocked
| Undefined.
Arguments Ret {A} v st.
Arguments Raise {A} e st.
Arguments Blocked {A}.
Arguments Undefined {A}.

Notation "'let?' x := e 'in' k" :=
  (match e with Some x => k | None => Undefined end)
  (at level 10, x pattern, e at level 100, k at level 200, only parsing).

(** ** CPython runtime: reference counts, bytes objects, buffer views *)

Definition with_bytes_refcnt (n : nat) (bo : PyBytesObject) : PyBytesObject :=
  mkBytes n (ob_sval bo) (ob_exports bo).
Definition with_exports (n : nat) (bo : PyBytesObject) : PyBytesObject :=
  mkBytes (bytes_refcnt bo) (ob_sval bo) n.
Definition with_sval (l : list Byte.byte) (bo : PyBytesObject) : PyBytesObject :=
  mkBytes (bytes_refcnt bo) l (ob_exports bo).

Definition Py_INCREF_bytes (b : addr) (st : state) : option state :=
  bo ← bytes_heap st !! b;
  Some (set_bytes_heap <[b := with_bytes_refcnt (S (bytes_refcnt bo)) bo]> st).

(** [Py_DECREF]: the object is freed when the count reaches zero. *)
Definition Py_DECREF_bytes (b : addr) (st : state) : option state :=
  bo ← bytes_heap st !! b;
  match bytes_refcnt bo with
  | O => None
  | S O => Some (set_bytes_heap (delete b) st)
  | S n => Some (set_bytes_heap <[b := with_bytes_refcnt n bo]> st)
  end.

(** [PyBytes_AS_STRING]: the payload follows the 32-byte object header. *)
Definition PyBytes_AS_STRING (b : addr) : Z := ptr_to_u64 b + 32.

Definition PyBytes_GET_SIZE (bo : PyBytesObject) : Z := Z.of_nat (length (ob_sval bo)).

(** [PyBytes_FromStringAndSize(NULL, size)]: a new object with one
    reference and [size] bytes of unspecified content (recorded as zero
    bytes); [NULL] for a negative size.  Allocation failure and the shared
    empty-bytes object are not modelled: every call yields a new object. *)
Definition PyBytes_FromStringAndSize (content : option (list Byte.byte)) (size : Z)
    (st : state) : option (addr * state) :=
  if size <? 0 then None
  else
    let b := fresh (dom (bytes_heap st)) in
    let payload := match content with
                   | Some l => l
                   | None => replicate (Z.to_nat size) Byte.x00
                   end in
    Some (b, set_bytes_heap <[b := mkBytes 1 payload 0]> st).

Definition resize_payload (n : nat) (l : list Byte.byte) : list Byte.byte :=
  take n l ++ replicate (n - length l) Byte.x00.

(** [_PyBytes_Resize(&v, newsize)].  Returns the new value of [*pv] and the
    C return code.  An object already of the requested size is left alone;
    otherwise the object must be referenced exactly once, and is then
    reallocated to [newsize] bytes (kept at its address here).  On the error
    path [*pv] is set to [NULL] and the old object loses a reference. *)
Definition _PyBytes_Resize (v : addr) (newsize : Z) (st : state)
    : option (option addr * Z * state) :=
  bo ← bytes_heap st !! v;
  if newsize <? 0 then
    st' ← Py_DECREF_bytes v st; Some (None, -1, st')
  else if PyBytes_GET_SIZE bo =? newsize then Some (Some v, 0, st)
  else if negb (Nat.eqb (bytes_refcnt bo) 1) then
    st' ← Py_DECREF_bytes v st; Some (None, -1, st')
  else
    Some (Some v, 0,
          set_bytes_heap <[v := with_sval (resize_payload (Z.to_nat newsize) (ob_sval bo)) bo]> st).

(** [PyObject_GetBuffer] on a bytes-like object, as the ["y*"] converter
    calls it: one more export, one more reference. *)
Definition PyObject_GetBuffer (b : addr) (st : state) : option (Py_buffer * state) :=
  bo ← bytes_heap st !! b;
  Some (mkPy_buffer (Some b) (PyBytes_AS_STRING b) (PyBytes_GET_SIZE bo),
        set_bytes_heap
          <[b := mkBytes (S (bytes_refcnt bo)) (ob_sval bo) (S (ob_exports bo))]> st).

(** [PyBuffer_Release]: nothing for a view without exporter; otherwise the
    export is given back, [view->obj] is cleared and the exporter loses the
    view's reference. *)
Definition PyBuffer_Release (view : Py_buffer) (st : state) : option (Py_buffer * state) :=
  match buf_obj view with
  | None => Some (view, st)
  | Some b =>
      bo ← bytes_heap st !! b;
      st' ← Py_DECREF_bytes b
              (set_bytes_heap <[b := with_exports (pred (ob_exports bo)) bo]> st);
      Some (mkPy_buffer None (buf_buf view) (buf_len view), st')
  end.

(** ** liburing

    The ring as the library sees it: two arrays indexed through a mask and
    the head and tail counters ([unsigned], wrapping).  The kernel is
    quiescent during a call: what it does between calls is the separate
    transition [kernel_post]. *)

Definition with_sq (l : list io_uring_sqe) (h t : Z) (r : io_uring) : io_uring :=
  mkRing l h t (cqes r) (cq_head r) (cq_tail r).
Definition with_cq (l : list io_uring_cqe) (h t : Z) (r : io_uring) : io_uring :=
  mkRing (sqes r) (sqe_head r) (sqe_tail r) l h t.

Definition sq_ring_entries (r : io_uring) : Z := Z.of_nat (length (sqes r)).
Definition cq_ring_entries (r : io_uring) : Z := Z.of_nat (length (cqes r)).
Definition sq_slot (r : io_uring) (i : Z) : nat := Z.to_nat (Z.land i (sq_ring_entries r - 1)).
Definition cq_slot (r : io_uring) (i : Z) : nat := Z.to_nat (Z.land i (cq_ring_entries r - 1)).

Definition blank_sqe : io_uring_sqe := mkNSqe 0 0 (Some 0) 0 0 0 0.
Definition blank_cqe : io_uring_cqe := mkNCqe 0 0 0.

(** The memory [IoUring_new] allocates for [self->ring], before
    [queue_init]. *)
Definition ring_uninit : io_uring := mkRing [] 0 0 [] 0 0.

(** [io_uring_queue_init]: the depth is rounded up to a power of two and the
    completion array is twice as long.  Setup flags and resource limits are
    not modelled. *)
Definition io_uring_queue_init (entries : Z) (r : io_uring) : Z * io_uring :=
  if (entries <=? 0) || (32768 <? entries) then (-22, r)
  else
    let n := Z.to_nat (2 ^ Z.log2_up entries) in
    (0, mkRing (replicate n blank_sqe) 0 0 (replicate (2 * n) blank_cqe) 0 0).

(** [io_uring_get_sqe]: the next free submission slot, or [NULL] when the
    queue is full. *)
Definition io_uring_get_sqe (r : io_uring) : option nat * io_uring :=
  let next := wrap_uint (sqe_tail r + 1) in
  if wrap_uint (next - sqe_head r) <=? sq_ring_entries r
  then (Some (sq_slot r (sqe_tail r)), with_sq (sqes r) (sqe_head r) next r)
  else (None, r).

(** [io_uring_prep_rw], the common body of the [io_uring_prep_*] helpers.
    It resets [user_data], which is why the module tags the slots at
    submission time. *)
Definition io_uring_prep_rw (op fd addr_ len_ : Z) (offset : option Z) : io_uring_sqe :=
  mkNSqe op fd offset addr_ (wrap_uint len_) 0 0.

Definition with_op_flags (f : Z) (e : io_uring_sqe) : io_uring_sqe :=
  mkNSqe (opcode e) (sqe_fd e) (off e) (sqe_addr e) (len e) f (user_data e).

(** [io_uring_sqe_set_data]. *)
Definition io_uring_sqe_set_data (p : Z) (e : io_uring_sqe) : io_uring_sqe :=
  mkNSqe (opcode e) (sqe_fd e) (off e) (sqe_addr e) (len e) (op_flags e) p.

(** Store through a pointer into the submission array. *)
Definition write_sqe (slot : nat) (e : io_uring_sqe) (r : io_uring) : option io_uring :=
  if decide (slot < length (sqes r))%nat
  then Some (with_sq (<[slot := e]> (sqes r)) (sqe_head r) (sqe_tail r) r)
  else None.

(** [io_uring_submit]: either the kernel rejects the batch with [kernel_err]
    or it takes every queued entry and the count is returned. *)
Definition io_uring_submit (kernel_err : option Z) (r : io_uring) : Z * io_uring :=
  match kernel_err with
  | Some e => (- e, r)
  | None => (wrap_uint (sqe_tail r - sqe_head r), with_sq (sqes r) (sqe_tail r) (sqe_tail r) r)
  end.

Inductive wait_result :=
| WaitDone (ret : Z) (cqe_ptr : option nat)
| WaitForever.

(** [io_uring_wait_cqes(ring, &cqe, wait_nr, ts, NULL)].  With enough
    completions ready it returns 0 and the head entry.  With none ready and
    [wait_nr = 0] it returns [-EAGAIN].  Otherwise it sleeps: until the
    timeout when [ts] is given ([-ETIME]), for ever when [ts] is [NULL]. *)
Definition io_uring_wait_cqes (r : io_uring) (wait_nr : Z) (ts : option timespec) : wait_result :=
  let avail := wrap_uint (cq_tail r - cq_head r) in
  if (0 <? avail) && (wait_nr <=? avail) then WaitDone 0 (Some (cq_slot r (cq_head r)))
  else if wait_nr =? 0 then WaitDone (- EAGAIN) None
  else match ts with
       | Some _ => WaitDone (- ETIME) None
       | None => WaitForever
       end.

(** [io_uring_wait_cqe_nr(ring, &cqe, wait_nr)]: the same without timeout. *)
Definition io_uring_wait_cqe_nr (r : io_uring) (wait_nr : Z) : wait_result :=
  io_uring_wait_cqes r wait_nr None.

(** [io_uring_cqe_seen]: advances the completion head by one for a non-null
    [cqe]. *)
Definition io_uring_cqe_seen (cqe_ptr : option nat) (r : io_uring) : io_uring :=
  match cqe_ptr with
  | Some _ => with_cq (cqes r) (wrap_uint (cq_head r + 1)) (cq_tail r) r
  | None => r
  end.

(** The kernel posts one completion at the tail when there is room. *)
Definition kernel_post (e : io_uring_cqe) (r : io_uring) : option io_uring :=
  if wrap_uint (cq_tail r - cq_head r) <? cq_ring_entries r
  then Some (with_cq (<[cq_slot r (cq_tail r) := e]> (cqes r)) (cq_head r)
               (wrap_uint (cq_tail r + 1)) r)
  else None.

(** ** Object construction and destruction *)

Definition with_sqe_refcnt (n : nat) (o : SqeObject) : SqeObject :=
  mkSqe n (sqe o) (fd o) (error o) (operation o) (allocated_buffer o) (user_buffer o) (data o) (cqeobj o).
Definition with_sqe (p : option nat) (o : SqeObject) : SqeObject :=
  mkSqe (sqe_refcnt o) p (fd o) (error o) (operation o) (allocated_buffer o) (user_buffer o) (data o) (cqeobj o).
Definition with_operation (op : Z) (o : SqeObject) : SqeObject :=
  mkSqe (sqe_refcnt o) (sqe o) (fd o) (error o) op (allocated_buffer o) (user_buffer o) (data o) (cqeobj o).
Definition with_allocated_buffer (b : option addr) (o : SqeObject) : SqeObject :=
  mkSqe (sqe_refcnt o) (sqe o) (fd o) (error o) (operation o) b (user_buffer o) (data o) (cqeobj o).
Definition with_user_buffer (v : Py_buffer) (o : SqeObject) : SqeObject :=
  mkSqe (sqe_refcnt o) (sqe o) (fd o) (error o) (operation o) (allocated_buffer o) v (data o) (cqeobj o).
Definition with_data (d : pyobj) (o : SqeObject) : SqeObject :=
  mkSqe (sqe_refcnt o) (sqe o) (fd o) (error o) (operation o) (allocated_buffer o) (user_buffer o) d (cqeobj o).
Definition with_cqeobj (c : option addr) (o : SqeObject) : SqeObject :=
  mkSqe (sqe_refcnt o) (sqe o) (fd o) (error o) (operation o) (allocated_buffer o) (user_buffer o) (data o) c.

Definition with_cqe_refcnt (n : nat) (o : CqeObject) : CqeObject :=
  mkCqe n (cqe o) (sqeobj o) (seen o).
Definition with_cqe (p : option nat) (o : CqeObject) : CqeObject :=
  mkCqe (cqe_refcnt o) p (sqeobj o) (seen o).
Definition with_sqeobj (s : option addr) (o : CqeObject) : CqeObject :=
  mkCqe (cqe_refcnt o) (cqe o) s (seen o).
Definition with_seen (b : bool) (o : CqeObject) : CqeObject :=
  mkCqe (cqe_refcnt o) (cqe o) (sqeobj o) b.

(** Read-modify-write of one field through an object pointer. *)
Definition upd_sqe (a : addr) (f : SqeObject → SqeObject) (st : state) : option state :=
  o ← sqe_heap st !! a; Some (set_sqe_heap <[a := f o]> st).
Definition upd_cqe (a : addr) (f : CqeObject → CqeObject) (st : state) : option state :=
  o ← cqe_heap st !! a; Some (set_cqe_heap <[a := f o]> st).

(** [Sqe_new] ([tp_alloc] zeroes the fields it does not set).  The data
    object, [None] by default, is not reference counted here. *)
Definition Sqe_new (st : state) : addr * state :=
  let a := fresh (dom (sqe_heap st)) in
  (a, set_sqe_heap
        <[a := mkSqe 1 None (-1) 0 (-1) None (mkPy_buffer None 0 0) PyNone None]> st).

(** [Cqe_new]. *)
Definition Cqe_new (st : state) : addr * state :=
  let a := fresh (dom (cqe_heap st)) in
  (a, set_cqe_heap <[a := mkCqe 1 None None false]> st).

(** [Sqe_reinit_buffer]. *)
Definition Sqe_reinit_buffer (self : addr) (st : state) : option state :=
  so ← sqe_heap st !! self;
  st1 ← match buf_obj (user_buffer so) with
        | Some _ =>
            '(v, st') ← PyBuffer_Release (user_buffer so) st;
            upd_sqe self (with_user_buffer (mkPy_buffer None (buf_buf v) (buf_len v))) st'
        | None => Some st
        end;
  so1 ← sqe_heap st1 !! self;
  match allocated_buffer so1 with
  | Some b =>
      st2 ← Py_DECREF_bytes b st1;
      upd_sqe self (with_allocated_buffer None) st2
  | None => Some st1
  end.

(** [Sqe_dealloc]. *)
Definition Sqe_dealloc (self : addr) (st : state) : option state :=
  st1 ← Sqe_reinit_buffer self st;
  Some (set_sqe_heap (delete self) st1).

Definition Py_INCREF_sqe (s : addr) (st : state) : option state :=
  upd_sqe s (λ o, with_sqe_refcnt (S (sqe_refcnt o)) o) st.

Definition Py_DECREF_sqe (s : addr) (st : state) : option state :=
  o ← sqe_heap st !! s;
  match sqe_refcnt o with
  | O => None
  | S O => Sqe_dealloc s st
  | S n => upd_sqe s (with_sqe_refcnt n) st
  end.

(** [Cqe_dealloc]: clears the request's cache pointer through
    [self->sqeobj], then drops the reference on the request. *)
Definition Cqe_dealloc (self : addr) (st : state) : option state :=
  co ← cqe_heap st !! self;
  s ← sqeobj co;
  st1 ← upd_sqe s (with_cqeobj None) st;
  st2 ← Py_DECREF_sqe s st1;
  Some (set_cqe_heap (delete self) st2).

Definition Py_INCREF_cqe (c : addr) (st : state) : option state :=
  upd_cqe c (λ o, with_cqe_refcnt (S (cqe_refcnt o)) o) st.

Definition Py_DECREF_cqe (c : addr) (st : state) : option state :=
  o ← cqe_heap st !! c;
  match cqe_refcnt o with
  | O => None
  | S O => Cqe_dealloc c st
  | S n => upd_cqe c (with_cqe_refcnt n) st
  end.

(** ** PyArg_ParseTuple

    A call passes the argument tuple, a format and a C variable-argument
    list.  The format units consume the variable arguments in order: ["O!"]
    takes a type object and then a destination, every other unit takes one
    destination.  Destinations are named after the C lvalue they point to;
    [locals] holds what has been stored through them. *)

Inductive fmt_unit := F_i | F_I | F_d | F_O | F_Obang | F_ystar | F_s | F_other.

Record format := Format {
  fmt_required : list fmt_unit;     (* before the bar *)
  fmt_optional : list fmt_unit      (* after the bar *)
}.

Inductive va_arg :=
| VaType (t : pytype)               (* [&SqeType], [&PyTuple_Type] *)
| VaDest (x : string).              (* [&x] *)

Inductive cval :=
| CInt (z : Z)
| CDouble (d : float)
| CObj (o : pyobj)
| CStr (s : string)
| CBuf (v : Py_buffer).

Abbreviation locals := (gmap string cval).

Inductive conv_result :=
| ConvOk (va : list va_arg) (env : locals) (st : state)
| ConvErr (e : pyerr)
| ConvUndef.

(** One format unit applied to one argument.  A unit that finds no
    destination, or ["O!"] that finds a destination where its type object
    should be (it then reads [tp_name] through that pointer to build the
    error message), has no defined result. *)
Definition convertitem (u : fmt_unit) (arg : pyobj) (va : list va_arg)
    (env : locals) (st : state) : conv_result :=
  match u, va with
  | F_i, VaDest x :: va' =>
      match arg with
      | PyLong z => if is_int z then ConvOk va' (<[x := CInt z]> env) st
                    else ConvErr OverflowError
      | _ => ConvErr TypeError
      end
  | F_I, VaDest x :: va' =>
      match arg with
      | PyLong z => ConvOk va' (<[x := CInt (wrap_uint z)]> env) st
      | _ => ConvErr TypeError
      end
  | F_d, VaDest x :: va' =>
      match arg with
      | PyFloat d => ConvOk va' (<[x := CDouble d]> env) st
      | PyLong z =>
          if PrimFloat.is_infinity (CDouble.of_Z z) then ConvErr OverflowError
          else ConvOk va' (<[x := CDouble (CDouble.of_Z z)]> env) st
      | _ => ConvErr TypeError
      end
  | F_O, VaDest x :: va' => ConvOk va' (<[x := CObj arg]> env) st
  | F_Obang, VaType t :: VaDest x :: va' =>
      if decide (Py_TYPE arg = t) then ConvOk va' (<[x := CObj arg]> env) st
      else ConvErr TypeError
  | F_ystar, VaDest x :: va' =>
      match arg with
      | PyBytes b =>
          match PyObject_GetBuffer b st with
          | Some (v, st') => ConvOk va' (<[x := CBuf v]> env) st'
          | None => ConvUndef
          end
      | _ => ConvErr TypeError
      end
  | F_s, VaDest x :: va' =>
      match arg with
      | PyUnicode s => ConvOk va' (<[x := CStr s]> env) st
      | _ => ConvErr TypeError
      end
  | _, _ => ConvUndef
  end.

Inductive parse_result :=
| ParseOk (env : locals) (st : state)
| ParseFail (e : pyerr) (env : locals) (st : state)
| ParseUndef.

(** The cleanup run on failure: every view acquired by a ["y*"] unit of this
    call is released again. *)
Fixpoint parse_cleanup (acquired : list string) (env : locals) (st : state)
    : option (locals * state) :=
  match acquired with
  | [] => Some (env, st)
  | x :: rest =>
      match env !! x with
      | Some (CBuf v) =>
          '(v', st') ← PyBuffer_Release v st;
          parse_cleanup rest (<[x := CBuf v']> env) st'
      | _ => parse_cleanup rest env st
      end
  end.

Definition acquired_by (u : fmt_unit) (va : list va_arg) : list string :=
  match u, va with
  | F_ystar, VaDest x :: _ => [x]
  | _, _ => []
  end.

Fixpoint convert_args (us : list fmt_unit) (args : list pyobj) (va : list va_arg)
    (acquired : list string) (env : locals) (st : state) : parse_result :=
  match args, us with
  | [], _ => ParseOk env st
  | arg :: args', u :: us' =>
      match convertitem u arg va env st with
      | ConvOk va' env' st' =>
          convert_args us' args' va' (acquired_by u va ++ acquired) env' st'
      | ConvErr e =>
          match parse_cleanup acquired env st with
          | Some (env', st') => ParseFail e env' st'
          | None => ParseUndef
          end
      | ConvUndef => ParseUndef
      end
  | _ :: _, [] => ParseUndef
  end.

(** The argument count is checked against the format before anything is
    converted; arguments beyond the given ones leave their destinations
    untouched. *)
Definition PyArg_ParseTuple (args : list pyobj) (f : format) (va : list va_arg)
    (env : locals) (st : state) : parse_result :=
  let n := length args in
  if (n <? length (fmt_required f))%nat
     || (length (fmt_required f) + length (fmt_optional f) <? n)%nat
  then ParseFail TypeError env st
  else convert_args (fmt_required f ++ fmt_optional f) args va [] env st.

(** Reads of C locals after the parse.  A local that was neither
    initialised nor stored to has no value. *)
Definition get_int (env : locals) (x : string) : option Z :=
  match env !! x with Some (CInt z) => Some z | _ => None end.
Definition get_double (env : locals) (x : string) : option float :=
  match env !! x with Some (CDouble d) => Some d | _ => None end.
Definition get_obj (env : locals) (x : string) : option pyobj :=
  match env !! x with Some (CObj o) => Some o | _ => None end.
Definition get_str (env : locals) (x : string) : option string :=
  match env !! x with Some (CStr s) => Some s | _ => None end.
Definition get_buf (env : locals) (x : string) : option Py_buffer :=
  match env !! x with Some (CBuf v) => Some v | _ => None end.

(** ** SqeObject methods *)

(** [self->operation = self->sqe->opcode; Py_RETURN_NONE;] *)
Definition record_opcode (self : addr) (st : state) : outcome pyobj :=
  let? so := sqe_heap st !! self in
  let? slot := sqe so in
  let? e := sqes (ring st) !! slot in
  let? st' := upd_sqe self (with_operation (opcode e)) st in
  Ret PyNone st'.

(** An [io_uring_prep_*] helper storing [e] through [self->sqe], followed by
    the two closing statements of every prepare method. *)
Definition prep_commit (self : addr) (e : io_uring_sqe) (st : state) : outcome pyobj :=
  let? so := sqe_heap st !! self in
  let? slot := sqe so in
  let? r := write_sqe slot e (ring st) in
  record_opcode self (set_ring (λ _, r) st).

(** The view parsed by ["y*"] lives in [*self->user_buffer]. *)
Definition store_user_buffer (self : addr) (env : locals) (st : state) : option state :=
  v ← get_buf env "self->user_buffer";
  upd_sqe self (with_user_buffer v) st.

(** [int] converted to the [__u64] offset parameter. *)
Definition int_to_u64 (z : Z) : Z := z mod 2 ^ 64.

(** [Sqe_prep_send]. *)
Definition Sqe_prep_send (self : addr) (args : list pyobj) (st : state) : outcome pyobj :=
  let? st := Sqe_reinit_buffer self st in
  let? so := sqe_heap st !! self in
  let env := {[ "flags" := CInt 0; "self->user_buffer" := CBuf (user_buffer so) ]} in
  match PyArg_ParseTuple args (Format [F_i; F_ystar] [F_i])
          [VaDest "fd"; VaDest "self->user_buffer"; VaDest "flags"] env st with
  | ParseUndef => Undefined
  | ParseFail e env st =>
      let? st := store_user_buffer self env st in Raise e st
  | ParseOk env st =>
      let? st := store_user_buffer self env st in
      let? v := get_buf env "self->user_buffer" in
      let? fd_ := get_int env "fd" in
      let? flags := get_int env "flags" in
      prep_commit self
        (with_op_flags flags
           (io_uring_prep_rw IORING_OP_SEND fd_ (buf_buf v) (wrap_int (buf_len v)) (Some 0)))
        st
  end.

(** [Sqe_prep_recv]. *)
Definition Sqe_prep_recv (self : addr) (args : list pyobj) (st : state) : outcome pyobj :=
  let? st := Sqe_reinit_buffer self st in
  match PyArg_ParseTuple args (Format [F_i; F_i] [F_i])
          [VaDest "fd"; VaDest "len"; VaDest "flags"] {[ "flags" := CInt 0 ]} st with
  | ParseUndef => Undefined
  | ParseFail e _ st => Raise e st
  | ParseOk env st =>
      let? fd_ := get_int env "fd" in
      let? len_ := get_int env "len" in
      let? flags := get_int env "flags" in
      let? (b, st) := PyBytes_FromStringAndSize None len_ st in
      let? st := upd_sqe self (with_allocated_buffer (Some b)) st in
      prep_commit self
        (with_op_flags flags
           (io_uring_prep_rw IORING_OP_RECV fd_ (PyBytes_AS_STRING b) len_ (Some 0)))
        st
  end.

(** [Sqe_prep_read].  [offset] is not initialised: without a third argument
    the slot's offset is written from an unset local. *)
Definition Sqe_prep_read (self : addr) (args : list pyobj) (st : state) : outcome pyobj :=
  let? st := Sqe_reinit_buffer self st in
  match PyArg_ParseTuple args (Format [F_i; F_i] [F_i])
          [VaDest "fd"; VaDest "len"; VaDest "offset"] ∅ st with
  | ParseUndef => Undefined
  | ParseFail e _ st => Raise e st
  | ParseOk env st =>
      let? fd_ := get_int env "fd" in
      let? len_ := get_int env "len" in
      let? (b, st) := PyBytes_FromStringAndSize None len_ st in
      let? st := upd_sqe self (with_allocated_buffer (Some b)) st in
      prep_commit self
        (io_uring_prep_rw IORING_OP_READ fd_ (PyBytes_AS_STRING b) len_
           (int_to_u64 <$> get_int env "offset"))
        st
  end.

(** [Sqe_prep_write]. *)
Definition Sqe_prep_write (self : addr) (args : list pyobj) (st : state) : outcome pyobj :=
  let? st := Sqe_reinit_buffer self st in
  let? so := sqe_heap st !! self in
  let env := {[ "self->user_buffer" := CBuf (user_buffer so) ]} in
  match PyArg_ParseTuple args (Format [F_i; F_ystar] [F_i])
          [VaDest "fd"; VaDest "self->user_buffer"; VaDest "offset"] env st with
  | ParseUndef => Undefined
  | ParseFail e env st =>
      let? st := store_user_buffer self env st in Raise e st
  | ParseOk env st =>
      let? st := store_user_buffer self env st in
      let? v := get_buf env "self->user_buffer" in
      let? fd_ := get_int env "fd" in
      prep_commit self
        (io_uring_prep_rw IORING_OP_WRITE fd_ (buf_buf v) (wrap_int (buf_len v))
           (int_to_u64 <$> get_int env "offset"))
        st
  end.

(** Little-endian image of an integer in [n] bytes. *)
Definition byte_of_Z (z : Z) : Byte.byte :=
  default Byte.x00 (Byte.of_N (Z.to_N (z mod 256))).
Fixpoint le_bytes (n : nat) (z : Z) : list Byte.byte :=
  match n with
  | O => []
  | S n' => byte_of_Z z :: le_bytes n' (z / 256)
  end.

Definition AF_INET : Z := 2.
Definition sizeof_sockaddr_in : Z := 16.
Definition sizeof_socklen_t : Z := 4.
Definition sizeof_kernel_timespec : Z := 16.

Section Connect.

(** [inet_pton(AF_INET, ip, dst)] belongs to the C library: the four
    address bytes for a dotted-quad text, nothing stored otherwise. *)
Variable inet_pton : string → option (list Byte.byte).

(** [struct sockaddr_in] as [Sqe_prep_connect] fills it: family, port in
    network order, address; the padding stays unset (zero here). *)
Definition sockaddr_in_image (ip : string) (port : Z) : list Byte.byte :=
  le_bytes 2 AF_INET
    ++ [byte_of_Z (port / 256); byte_of_Z port]
    ++ default (replicate 4 Byte.x00) (inet_pton ip)
    ++ replicate 8 Byte.x00.

(** [Sqe_prep_connect]: a tuple argument, itself parsed as (text, port). *)
Definition Sqe_prep_connect (self : addr) (args : list pyobj) (st : state) : outcome pyobj :=
  let? st := Sqe_reinit_buffer self st in
  match PyArg_ParseTuple args (Format [F_i; F_Obang] [])
          [VaDest "fd"; VaType PyTuple_Type; VaDest "addrobj"] ∅ st with
  | ParseUndef => Undefined
  | ParseFail e _ st => Raise e st
  | ParseOk env st =>
      let? fd_ := get_int env "fd" in
      match get_obj env "addrobj" with
      | Some (PyTuple items) =>
          match PyArg_ParseTuple items (Format [F_s; F_I] [])
                  [VaDest "ip"; VaDest "port"] env st with
          | ParseUndef => Undefined
          | ParseFail e _ st => Raise e st
          | ParseOk env st =>
              let? ip := get_str env "ip" in
              let? port := get_int env "port" in
              let? (b, st) :=
                PyBytes_FromStringAndSize (Some (sockaddr_in_image ip port))
                  sizeof_sockaddr_in st in
              let? st := upd_sqe self (with_allocated_buffer (Some b)) st in
              prep_commit self
                (io_uring_prep_rw IORING_OP_CONNECT fd_ (PyBytes_AS_STRING b) 0
                   (Some sizeof_sockaddr_in))
                st
          end
      | _ => Undefined
      end
  end.

End Connect.

(** [Sqe_prep_accept]: the buffer holds a [sockaddr_in] followed by its
    length field, preset to the size of the address. *)
Definition Sqe_prep_accept (self : addr) (args : list pyobj) (st : state) : outcome pyobj :=
  let? st := Sqe_reinit_buffer self st in
  match PyArg_ParseTuple args (Format [F_i] [F_i])
          [VaDest "fd"; VaDest "flags"] {[ "flags" := CInt 0 ]} st with
  | ParseUndef => Undefined
  | ParseFail e _ st => Raise e st
  | ParseOk env st =>
      let? fd_ := get_int env "fd" in
      let? flags := get_int env "flags" in
      let? (b, st) :=
        PyBytes_FromStringAndSize
          (Some (replicate 16 Byte.x00 ++ le_bytes 4 sizeof_sockaddr_in))
          (sizeof_sockaddr_in + sizeof_socklen_t) st in
      let? st := upd_sqe self (with_allocated_buffer (Some b)) st in
      prep_commit self
        (with_op_flags flags
           (io_uring_prep_rw IORING_OP_ACCEPT fd_ (PyBytes_AS_STRING b) 0
              (Some (PyBytes_AS_STRING b + sizeof_sockaddr_in))))
        st
  end.

(** The value of a little-endian byte sequence. *)
Fixpoint le_value (l : list Byte.byte) : Z :=
  match l with
  | [] => 0
  | b :: l' => Z.of_N (Byte.to_N b) + 256 * le_value l'
  end.

Section ConvertAddress.

(** [inet_ntop(AF_INET, src, dst, size)] belongs to the C library: the
    dotted-quad text of four address bytes, written to [dst] with its
    terminator. *)
Variable inet_ntop : list Byte.byte → string.

(** [Sqe_convert_address] reads the owned buffer as [prep_accept] lays it
    out: a [sockaddr_in], then the length field at offset 16.  It allocates
    as many bytes as the length field says and lets [inet_ntop] write the
    text there, announcing 1024 bytes: a text that does not fit the
    allocation overruns it.  Reading through a [NULL] buffer pointer or past
    the end of the buffer has no defined result.  The port is
    [ntohs(sin_port)], passed as an [int] for the ["h"] unit. *)
Definition Sqe_convert_address (self : addr) (st : state) : outcome pyobj :=
  let? so := sqe_heap st !! self in
  let? b := allocated_buffer so in
  let? bo := bytes_heap st !! b in
  let image := ob_sval bo in
  if (length image <? 20)%nat then Undefined
  else
    let addrlen := le_value (take 4 (drop 16 image)) in
    let ip := inet_ntop (take 4 (drop 4 image)) in
    if addrlen <? Z.of_nat (String.length ip) + 1 then Undefined
    else
      let port := le_value (reverse (take 2 (drop 2 image))) in
      Ret (PyTuple [PyUnicode ip; PyLong port]) st.

End ConvertAddress.

(** [Sqe_prep_nop]: takes no argument and does not touch the buffers. *)
Definition Sqe_prep_nop (self : addr) (st : state) : outcome pyobj :=
  prep_commit self (io_uring_prep_rw IORING_OP_NOP (-1) 0 0 (Some 0)) st.

(** [Sqe_prep_timeout]. *)
Definition Sqe_prep_timeout (self : addr) (args : list pyobj) (st : state) : outcome pyobj :=
  let? st := Sqe_reinit_buffer self st in
  match PyArg_ParseTuple args (Format [F_d] [F_I; F_I])
          [VaDest "timeout"; VaDest "count"; VaDest "flags"]
          {[ "count" := CInt 0; "flags" := CInt 0 ]} st with
  | ParseUndef => Undefined
  | ParseFail e _ st => Raise e st
  | ParseOk env st =>
      let? timeout := get_double env "timeout" in
      let? count := get_int env "count" in
      let? flags := get_int env "flags" in
      let? ts := timespec_of_double timeout in
      let? (b, st) :=
        PyBytes_FromStringAndSize
          (Some (le_bytes 8 (tv_sec ts) ++ le_bytes 8 (tv_nsec ts)))
          sizeof_kernel_timespec st in
      let? st := upd_sqe self (with_allocated_buffer (Some b)) st in
      prep_commit self
        (with_op_flags flags
           (io_uring_prep_rw IORING_OP_TIMEOUT (-1) (PyBytes_AS_STRING b) 1 (Some count)))
        st
  end.

(** The thirteen letters other than [e] that follow the bar in the format
    string of [Sqe_prep_timeout_remove]: the function name, written after
    [|] where [:] was meant, is read as optional format units. *)
Definition timeout_remove_stray_units : list fmt_unit := replicate 13 F_other.

(** [Sqe_prep_timeout_remove].  The call passes [&timeout, &flags] for the
    format ["O!I|..."]: ["O!"] takes [&timeout] as its type object and
    [&flags] as its destination, and nothing is ever stored to [timeout]. *)
Definition Sqe_prep_timeout_remove (self : addr) (args : list pyobj) (st : state)
    : outcome pyobj :=
  match PyArg_ParseTuple args (Format [F_Obang; F_I] timeout_remove_stray_units)
          [VaDest "timeout"; VaDest "flags"] {[ "flags" := CInt 0 ]} st with
  | ParseUndef => Undefined
  | ParseFail e _ st => Raise e st
  | ParseOk env st =>
      let? flags := get_int env "flags" in
      match get_obj env "timeout" with
      | Some (PySqe target) =>
          prep_commit self
            (with_op_flags flags
               (io_uring_prep_rw IORING_OP_TIMEOUT_REMOVE (-1) (ptr_to_u64 target) 0 (Some 0)))
            st
      | _ => Undefined
      end
  end.

(** [Sqe_prep_cancel]. *)
Definition Sqe_prep_cancel (self : addr) (args : list pyobj) (st : state) : outcome pyobj :=
  match PyArg_ParseTuple args (Format [F_Obang; F_I] [])
          [VaType SqeType; VaDest "cancel"; VaDest "flags"] {[ "flags" := CInt 0 ]} st with
  | ParseUndef => Undefined
  | ParseFail e _ st => Raise e st
  | ParseOk env st =>
      let? flags := get_int env "flags" in
      match get_obj env "cancel" with
      | Some (PySqe target) =>
          prep_commit self
            (with_op_flags flags
               (io_uring_prep_rw IORING_OP_ASYNC_CANCEL (-1) (ptr_to_u64 target) 0 (Some 0)))
            st
      | _ => Undefined
      end
  end.

(** [Sqe_prep_close]. *)
Definition Sqe_prep_close (self : addr) (args : list pyobj) (st : state) : outcome pyobj :=
  match PyArg_ParseTuple args (Format [F_i] []) [VaDest "fd"] ∅ st with
  | ParseUndef => Undefined
  | ParseFail e _ st => Raise e st
  | ParseOk env st =>
      let? fd_ := get_int env "fd" in
      prep_commit self (io_uring_prep_rw IORING_OP_CLOSE fd_ 0 0 (Some 0)) st
  end.

(** [Sqe_prep_openat]: only copies the slot's opcode. *)
Definition Sqe_prep_openat (self : addr) (args : list pyobj) (st : state) : outcome pyobj :=
  record_opcode self st.

(** [Sqe_set_data]. *)
Definition Sqe_set_data (self : addr) (args : list pyobj) (st : state) : outcome pyobj :=
  match PyArg_ParseTuple args (Format [F_O] []) [VaDest "data"] ∅ st with
  | ParseUndef => Undefined
  | ParseFail e _ st => Raise e st
  | ParseOk env st =>
      let? d := get_obj env "data" in
      let? st := upd_sqe self (with_data d) st in
      Ret PyNone st
  end.

(** ** IoUringObject methods *)

(** [IoUring_new] and [IoUring_queue_init] on an empty heap. *)
Definition IoUring_new : state := mkState ∅ ∅ ∅ ring_uninit [].

Definition IoUring_queue_init (args : list pyobj) (st : state) : outcome pyobj :=
  match PyArg_ParseTuple args (Format [F_i] [F_I]) [VaDest "entries"; VaDest "flag"]
          {[ "flag" := CInt 0 ]} st with
  | ParseUndef => Undefined
  | ParseFail e _ st => Raise e st
  | ParseOk env st =>
      let? entries := get_int env "entries" in
      let '(ret, r) := io_uring_queue_init entries (ring st) in
      if ret <? 0 then Raise (OSError (int_neg ret)) st
      else Ret PyNone (set_ring (λ _, r) st)
  end.

(** [IoUring_get_sqe].  The new object is returned with two references: the
    caller's and the pending list's. *)
Definition IoUring_get_sqe (st : state) : outcome pyobj :=
  let '(sqeobj_, st) := Sqe_new st in
  let '(p, r) := io_uring_get_sqe (ring st) in
  let? st := upd_sqe sqeobj_ (with_sqe p) (set_ring (λ _, r) st) in
  let? st := Py_INCREF_sqe sqeobj_ st in
  Ret (PySqe sqeobj_) (set_wait_submit (wait_submit st ++ [sqeobj_]) st).

(** The loop of [IoUring_submit]:
    [io_uring_sqe_set_data(sqeobj->sqe, sqeobj); Py_INCREF(sqeobj);] *)
Fixpoint submit_tag_and_pin (pending : list addr) (st : state) : option state :=
  match pending with
  | [] => Some st
  | s :: rest =>
      so ← sqe_heap st !! s;
      slot ← sqe so;
      e ← sqes (ring st) !! slot;
      r ← write_sqe slot (io_uring_sqe_set_data (ptr_to_u64 s) e) (ring st);
      st' ← Py_INCREF_sqe s (set_ring (λ _, r) st);
      submit_tag_and_pin rest st'
  end.

(** [Py_DECREF(self->wait_submit)]: the list dies and drops one reference
    on each item. *)
Fixpoint list_dealloc (items : list addr) (st : state) : option state :=
  match items with
  | [] => Some st
  | s :: rest => st' ← Py_DECREF_sqe s st; list_dealloc rest st'
  end.

(** [IoUring_submit].  [kernel_err] is the kernel's verdict on the batch. *)
Definition IoUring_submit (kernel_err : option Z) (st : state) : outcome pyobj :=
  let? st := submit_tag_and_pin (wait_submit st) st in
  let '(ret, r) := io_uring_submit kernel_err (ring st) in
  let st := set_ring (λ _, r) st in
  if ret <? 0 then Raise (OSError (int_neg ret)) st
  else
    let? st := list_dealloc (wait_submit st) st in
    Ret PyNone (set_wait_submit [] st).

(** [IoUring_dealloc]: the object gives up the pending list, which dies and
    drops one reference on each item; [self->ring] is freed without
    [io_uring_queue_exit], so the mapped arrays stay where the wrappers
    point (the state keeps them), and nothing is done about the pins taken
    by [submit].  No method of the object can be called afterwards. *)
Definition IoUring_dealloc (st : state) : option state :=
  st' ← list_dealloc (wait_submit st) st;
  Some (set_wait_submit [] st').

(** The block that the three retrieval functions repeat: resolve the
    completion entry to its request through [user_data], then create a
    wrapper if the request caches none, or take a new reference on the
    cached one. *)
Definition wrap_cqe (slot : nat) (st : state) : option (addr * state) :=
  e ← cqes (ring st) !! slot;
  s ← u64_to_ptr (cqe_user_data e);
  so ← sqe_heap st !! s;
  match cqeobj so with
  | None =>
      let '(c, st) := Cqe_new st in
      st ← upd_cqe c (with_cqe (Some slot)) st;
      st ← Py_INCREF_sqe s st;
      st ← upd_cqe c (with_sqeobj (Some s)) st;
      st ← upd_sqe s (with_cqeobj (Some c)) st;
      Some (c, st)
  | Some c =>
      st ← Py_INCREF_cqe c st;
      Some (c, st)
  end.

(** [for (i = 0; i < wait_nr; i++) { cqe = cqes + i; ... }]: the entries are
    addressed from the head pointer without the ring mask. *)
Fixpoint wait_loop (n : nat) (cqes_ptr : option nat) (i : nat) (st : state)
    : option (list pyobj * state) :=
  match n with
  | O => Some ([], st)
  | S n' =>
      base ← cqes_ptr;
      '(c, st') ← wrap_cqe (base + i) st;
      '(l, st'') ← wait_loop n' cqes_ptr (S i) st';
      Some (PyCqe c :: l, st'')
  end.

(** [IoUring_wait_cqe_nr_impl]. *)
Definition IoUring_wait_cqe_nr_impl (wait_nr : Z) (st : state) : outcome pyobj :=
  match io_uring_wait_cqe_nr (ring st) wait_nr with
  | WaitForever => Blocked
  | WaitDone ret cqes_ptr =>
      if ret <? 0 then Raise (OSError (int_neg ret)) st
      else
        let? (l, st') := wait_loop (Z.to_nat wait_nr) cqes_ptr 0 st in
        Ret (PyList l) st'
  end.

(** [IoUring_wait_cqe_nr]. *)
Definition IoUring_wait_cqe_nr (args : list pyobj) (st : state) : outcome pyobj :=
  match PyArg_ParseTuple args (Format [F_I] []) [VaDest "wait_nr"]
          {[ "wait_nr" := CInt 1 ]} st with
  | ParseUndef => Undefined
  | ParseFail e _ st => Raise e st
  | ParseOk env st =>
      let? wait_nr := get_int env "wait_nr" in
      IoUring_wait_cqe_nr_impl wait_nr st
  end.

(** The timeout handed to [io_uring_wait_cqes] by [IoUring_wait_cqes]:
    [if (timeout) { ... &ts ... } else { ... NULL ... }]. *)
Definition wait_cqes_timespec (timeout : float) : option (option timespec) :=
  if CDouble.truth timeout then Some <$> timespec_of_double timeout
  else Some None.

(** [IoUring_wait_cqes]. *)
Definition IoUring_wait_cqes (args : list pyobj) (st : state) : outcome pyobj :=
  match PyArg_ParseTuple args (Format [F_I] [F_d]) [VaDest "wait_nr"; VaDest "timeout"]
          {[ "wait_nr" := CInt 0; "timeout" := CDouble 0 ]} st with
  | ParseUndef => Undefined
  | ParseFail e _ st => Raise e st
  | ParseOk env st =>
      let? wait_nr := get_int env "wait_nr" in
      let? timeout := get_double env "timeout" in
      let? ts := wait_cqes_timespec timeout in
      match io_uring_wait_cqes (ring st) wait_nr ts with
      | WaitForever => Blocked
      | WaitDone ret cqes_ptr =>
          if negb (ret =? 0) then Raise (OSError (int_neg ret)) st
          else
            let? (l, st') := wait_loop (Z.to_nat wait_nr) cqes_ptr 0 st in
            Ret (PyList l) st'
      end
  end.

(** [IoUring_wait_single_cqe]. *)
Definition IoUring_wait_single_cqe (wait_nr : Z) (st : state) : outcome pyobj :=
  match io_uring_wait_cqe_nr (ring st) wait_nr with
  | WaitForever => Blocked
  | WaitDone ret cqe_ptr =>
      if ret <? 0 then Raise (OSError (int_neg ret)) st
      else
        let? slot := cqe_ptr in
        let? (c, st) := wrap_cqe slot st in
        let? e := cqes (ring st) !! slot in
        let? st := upd_cqe c (with_cqe (Some slot)) st in
        let? st := upd_cqe c (with_sqeobj (u64_to_ptr (cqe_user_data e))) st in
        Ret (PyCqe c) st
  end.

Definition IoUring_wait_cqe (st : state) : outcome pyobj := IoUring_wait_single_cqe 1 st.
Definition IoUring_peek_cqe (st : state) : outcome pyobj := IoUring_wait_single_cqe 0 st.

(** [IoUring_cqe_seen].  The ["O"] argument is used as a [CqeObject]
    without a type check. *)
Definition IoUring_cqe_seen (args : list pyobj) (st : state) : outcome pyobj :=
  match PyArg_ParseTuple args (Format [F_O] []) [VaDest "cqe"] ∅ st with
  | ParseUndef => Undefined
  | ParseFail e _ st => Raise e st
  | ParseOk env st =>
      match get_obj env "cqe" with
      | Some (PyCqe c) =>
          let? co := cqe_heap st !! c in
          if seen co then Ret PyNone st
          else
            let st := set_ring (io_uring_cqe_seen (cqe co)) st in
            let? st := upd_cqe c (with_seen true) st in
            let? s := sqeobj co in
            let? st := Py_DECREF_sqe s st in
            Ret PyNone st
      | _ => Undefined
      end
  end.

(** The queue-depth getters. *)
Definition IoUring_sq_ready (st : state) : Z :=
  wrap_uint (sqe_tail (ring st) - sqe_head (ring st)).
Definition IoUring_sq_space_left (st : state) : Z :=
  sq_ring_entries (ring st) - IoUring_sq_ready st.
Definition IoUring_cq_ready (st : state) : Z :=
  wrap_uint (cq_tail (ring st) - cq_head (ring st)).

(** ** CqeObject methods *)

(** [Cqe_get_data]. *)
Definition Cqe_get_data (self : addr) (st : state) : outcome pyobj :=
  let? co := cqe_heap st !! self in
  let? s := sqeobj co in
  let? so := sqe_heap st !! s in
  Ret (data so) st.

(** [Cqe_res]. *)
Definition Cqe_res (self : addr) (st : state) : outcome pyobj :=
  let? co := cqe_heap st !! self in
  let? slot := cqe co in
  let? e := cqes (ring st) !! slot in
  Ret (PyLong (res e)) st.

(** [Cqe_getresult]. *)
Definition Cqe_getresult (self : addr) (st : state) : outcome pyobj :=
  let? co := cqe_heap st !! self in
  let? s := sqeobj co in
  let? so := sqe_heap st !! s in
  let? slot := cqe co in
  let? e := cqes (ring st) !! slot in
  let operation_ := operation so in
  let res_ := res e in
  if res_ <? 0 then Raise (OSError (int_neg res_)) st
  else if operation_ =? IORING_OP_NOP then Ret PyNone st
  else if (operation_ =? IORING_OP_READ) || (operation_ =? IORING_OP_RECV) then
    let? b := allocated_buffer so in
    let? bo := bytes_heap st !! b in
    if negb (res_ =? PyBytes_GET_SIZE bo) then
      let? (pv, rc, st) := _PyBytes_Resize b res_ st in
      let? st := upd_sqe s (with_allocated_buffer pv) st in
      if negb (rc =? 0) then Raise SystemError st
      else
        let? b' := pv in
        let? st := Py_INCREF_bytes b' st in
        Ret (PyBytes b') st
    else
      let? st := Py_INCREF_bytes b st in
      Ret (PyBytes b) st
  else Ret (PyLong res_) st.

(** ** The method table [Sqe_methods], restricted to the prepare calls *)

Inductive prep_method :=
| M_prep_recv | M_prep_send | M_prep_connect | M_prep_accept | M_prep_read
| M_prep_write | M_prep_nop | M_prep_timeout | M_prep_timeout_remove
| M_prep_close | M_prep_openat | M_prep_cancel.

(** A call through the table.  [prep_nop] is registered [METH_NOARGS]: the
    interpreter rejects a call with arguments before the C function runs. *)
Definition Sqe_methods (inet_pton : string → option (list Byte.byte))
    (m : prep_method) (self : addr) (args : list pyobj) (st : state) : outcome pyobj :=
  match m with
  | M_prep_recv => Sqe_prep_recv self args st
  | M_prep_send => Sqe_prep_send self args st
  | M_prep_connect => Sqe_prep_connect inet_pton self args st
  | M_prep_accept => Sqe_prep_accept self args st
  | M_prep_read => Sqe_prep_read self args st
  | M_prep_write => Sqe_prep_write self args st
  | M_prep_nop => match args with [] => Sqe_prep_nop self st | _ => Raise TypeError st end
  | M_prep_timeout => Sqe_prep_timeout self args st
  | M_prep_timeout_remove => Sqe_prep_timeout_remove self args st
  | M_prep_close => Sqe_prep_close self args st
  | M_prep_openat => Sqe_prep_openat self args st
  | M_prep_cancel => Sqe_prep_cancel self args st
  end.

(** The prepare calls whose first statement is [Sqe_reinit_buffer(self)]. *)
Definition calls_reinit_buffer (m : prep_method) : bool :=
  match m with
  | M_prep_recv | M_prep_send | M_prep_connect | M_prep_accept
  | M_prep_read | M_prep_write | M_prep_timeout => true
  | M_prep_nop | M_prep_timeout_remove | M_prep_close | M_prep_openat
  | M_prep_cancel => false
  end.

(** * Predicates and sessions *)

(** ** Result decoding *)

(** The completion wrapper [self] is live, refers to the live request [s]
    and to a completion entry carrying the raw result [r]. *)
Definition decodes (st : state) (self s : addr) (so : SqeObject) (r : Z) : Prop :=
  ∃ co slot e,
    cqe_heap st !! self = Some co ∧ sqeobj co = Some s ∧ sqe_heap st !! s = Some so
    ∧ cqe co = Some slot ∧ cqes (ring st) !! slot = Some e ∧ res e = r.

(** The two opcodes whose result is the prepared buffer. *)
Definition is_read_or_recv (op : Z) : bool :=
  (op =? IORING_OP_READ) || (op =? IORING_OP_RECV).

(** [n] successive calls of [getresult] on the same wrapper: the values
    returned and the final state. *)
Fixpoint getresult_times (n : nat) (self : addr) (st : state)
    : option (list pyobj * state) :=
  match n with
  | O => Some ([], st)
  | S n' =>
      match Cqe_getresult self st with
      | Ret v st' =>
          '(vs, st'') ← getresult_times n' self st';
          Some (v :: vs, st'')
      | _ => None
      end
  end.

(** ** Outcomes and concrete sessions *)

(** The state a call leaves, when it comes back. *)
Definition after {A} (o : outcome A) : state :=
  match o with
  | Ret _ st | Raise _ st => st
  | Blocked | Undefined => IoUring_new
  end.

(** The kernel posts the completion [e], when the ring has room. *)
Definition kernel_posts (e : io_uring_cqe) (st : state) : state :=
  match kernel_post e (ring st) with
  | Some r => set_ring (λ _, r) st
  | None => st
  end.

(** [queue_init(4)], one request prepared as a five-byte read, [submit()];
    then a completion with raw result [r] posted by the kernel for the
    request's tag, and [wait_cqe()].  The request is at address 1, its
    buffer at 1 in the bytes heap, the wrapper at 1 in the wrapper heap. *)
Definition session_submitted_read : state :=
  let st := after (IoUring_queue_init [PyLong 4] IoUring_new) in
  let st := after (IoUring_get_sqe st) in
  let st := after (Sqe_prep_read 1%positive [PyLong 3; PyLong 5; PyLong 0] st) in
  after (IoUring_submit None st).

Definition session_read_completed (r : Z) : state :=
  after (IoUring_wait_cqe (kernel_posts (mkNCqe 1 r 0) session_submitted_read)).

(** Two requests acquired and prepared as no-ops, not yet submitted. *)
Definition session_two_nops : state :=
  let st := after (IoUring_queue_init [PyLong 4] IoUring_new) in
  let st := after (IoUring_get_sqe st) in
  let st := after (Sqe_prep_nop 1%positive st) in
  let st := after (IoUring_get_sqe st) in
  after (Sqe_prep_nop 2%positive st).

(** The call never comes back. *)
Definition is_blocked {A} (o : outcome A) : bool :=
  match o with Blocked => true | _ => false end.

(** Request 1 prepared as a timeout, requests 2 and 3 acquired. *)
Definition session_three_acquired : state :=
  let st := after (IoUring_queue_init [PyLong 4] IoUring_new) in
  let st := after (IoUring_get_sqe st) in
  let st := after (Sqe_prep_timeout 1%positive [PyFloat 1.5] st) in
  let st := after (IoUring_get_sqe st) in
  after (IoUring_get_sqe st).

(** The call returns a value, without exception. *)
Definition returns {A} (o : outcome A) : bool :=
  match o with Ret _ _ => true | _ => false end.

(** ** What argument parsing can touch *)

(** Two states that differ at most in the bytes heap. *)
Definition same_but_bytes (st st' : state) : Prop :=
  sqe_heap st' = sqe_heap st ∧ cqe_heap st' = cqe_heap st
  ∧ ring st' = ring st ∧ wait_submit st' = wait_submit st.

(** The format has no ["y*"] unit. *)
Definition no_ystar (us : list fmt_unit) : bool :=
  forallb (λ u, match u with F_ystar => false | _ => true end) us.

(** ** Prepare calls: what is attached, what is released *)

(** Two request objects that agree on every field but the two buffers. *)
Definition same_but_buffers (so so' : SqeObject) : Prop :=
  sqe_refcnt so' = sqe_refcnt so ∧ sqe so' = sqe so ∧ fd so' = fd so
  ∧ error so' = error so ∧ operation so' = operation so ∧ data so' = data so
  ∧ cqeobj so' = cqeobj so.

(** After a release, an owned buffer is attached: a new bytes object with
    one reference, entered in the request. *)
Definition attaches_owned (self : addr) (st1 st' : state) : Prop :=
  ∃ b bo so',
    bytes_heap st1 !! b = None
    ∧ bytes_heap st' = <[b := bo]> (bytes_heap st1) ∧ bytes_refcnt bo = 1%nat
    ∧ sqe_heap st' !! self = Some so'
    ∧ allocated_buffer so' = Some b ∧ buf_obj (user_buffer so') = None.

(** After a release, a borrowed view is attached: the view
    [PyObject_GetBuffer] gives on the released state, entered in the
    request. *)
Definition attaches_view (self : addr) (st1 st' : state) : Prop :=
  ∃ b v st2 so',
    PyObject_GetBuffer b st1 = Some (v, st2)
    ∧ bytes_heap st' = bytes_heap st2
    ∧ sqe_heap st' !! self = Some so'
    ∧ user_buffer so' = v ∧ allocated_buffer so' = None.

(** What a prepare call may do to the request [self], whose object was [so]
    before the call.  [reinit] tells whether the method starts with
    [Sqe_reinit_buffer]. *)
Definition prep_outcome (reinit : bool) (self : addr) (so : SqeObject) (st : state)
    (o : outcome pyobj) : Prop :=
  match o with
  | Ret v st' =>
      v = PyNone
      ∧ if reinit
        then ∃ st1 so1,
               Sqe_reinit_buffer self st = Some st1
               ∧ sqe_heap st1 !! self = Some so1
               ∧ allocated_buffer so1 = None ∧ buf_obj (user_buffer so1) = None
               ∧ (attaches_owned self st1 st' ∨ attaches_view self st1 st')
        else bytes_heap st' = bytes_heap st
             ∧ ∃ so', sqe_heap st' !! self = Some so'
                 ∧ allocated_buffer so' = allocated_buffer so
                 ∧ user_buffer so' = user_buffer so
  | Raise e st' =>
      ring st' = ring st ∧ cqe_heap st' = cqe_heap st ∧ wait_submit st' = wait_submit st
      ∧ ∃ so', sqe_heap st' !! self = Some so' ∧ same_but_buffers so so'
          ∧ if reinit
            then allocated_buffer so' = None ∧ buf_obj (user_buffer so') = None
            else st' = st
  | Blocked => False
  | Undefined => True
  end.

(** One request, prepared as a five-byte read and not yet submitted: it owns
    the bytes object 1. *)
Definition session_prepared_read : state :=
  let st := after (IoUring_queue_init [PyLong 4] IoUring_new) in
  let st := after (IoUring_get_sqe st) in
  after (Sqe_prep_read 1%positive [PyLong 3; PyLong 5; PyLong 0] st).

(** An [inet_pton] that rejects every address. *)
Definition no_inet_pton : string → option (list Byte.byte) := λ _, None.

(** ** Sessions: the module driven by a Python program and the kernel

    A session is a sequence of calls.  Besides the state, it carries what
    the C heap does not record: how many references to each request and to
    each wrapper the Python program holds, and how many submission pins are
    outstanding on each request.  The program only uses and drops
    references it holds; it acknowledges a wrapper not yet acknowledged
    only while a pin is outstanding on the wrapper's request, and that
    consumes the pin.  The kernel may post any completion entry. *)

Record holders := Holders {
  held_sqe : gmap addr nat;
  held_cqe : gmap addr nat;
  pinned : gmap addr nat
}.

(** One reference more, one reference less, in a count per address. *)
Definition bump (a : addr) (m : gmap addr nat) : gmap addr nat := <[a := S (m !!! a)]> m.

Definition unbump (a : addr) (m : gmap addr nat) : gmap addr nat := <[a := pred (m !!! a)]> m.

(** The program stores what a call returned. *)
Definition hold1 (v : pyobj) (g : holders) : holders :=
  match v with
  | PySqe s => Holders (bump s (held_sqe g)) (held_cqe g) (pinned g)
  | PyCqe c => Holders (held_sqe g) (bump c (held_cqe g)) (pinned g)
  | _ => g
  end.

Definition hold (v : pyobj) (g : holders) : holders :=
  match v with
  | PyList items => foldl (λ g v, hold1 v g) g items
  | _ => hold1 v g
  end.

Definition pin_all (pending : list addr) (g : holders) : holders :=
  Holders (held_sqe g) (held_cqe g) (foldr bump (pinned g) pending).

Inductive call :=
| Call_get_sqe
| Call_submit (kernel_err : option Z)
| Call_wait_cqe
| Call_peek_cqe
| Call_wait_cqe_nr (args : list pyobj)
| Call_wait_cqes (args : list pyobj)
| Call_cqe_seen (c : addr)
| Call_prep (m : prep_method) (self : addr) (args : list pyobj)
| Call_set_data (self : addr) (args : list pyobj)
| Call_getresult (c : addr)
| Drop_sqe (s : addr)
| Drop_cqe (c : addr)
| Kernel_post (e : io_uring_cqe).

(** A call that comes back, with or without exception; a call that blocks
    or leaves defined behaviour ends the session. *)
Definition came_back (o : outcome pyobj) : option (pyobj * state) :=
  match o with
  | Ret v st => Some (v, st)
  | Raise _ st => Some (PyNone, st)
  | Blocked | Undefined => None
  end.

Definition exec (inet_pton : string → option (list Byte.byte)) (c : call)
    (σ : state * holders) : option (state * holders) :=
  let '(st, g) := σ in
  match c with
  | Call_get_sqe =>
      '(v, st') ← came_back (IoUring_get_sqe st); Some (st', hold v g)
  | Call_submit kernel_err =>
      '(_, st') ← came_back (IoUring_submit kernel_err st);
      Some (st', pin_all (wait_submit st) g)
  | Call_wait_cqe =>
      '(v, st') ← came_back (IoUring_wait_cqe st); Some (st', hold v g)
  | Call_peek_cqe =>
      '(v, st') ← came_back (IoUring_peek_cqe st); Some (st', hold v g)
  | Call_wait_cqe_nr args =>
      '(v, st') ← came_back (IoUring_wait_cqe_nr args st); Some (st', hold v g)
  | Call_wait_cqes args =>
      '(v, st') ← came_back (IoUring_wait_cqes args st); Some (st', hold v g)
  | Call_cqe_seen c =>
      if decide (0 < held_cqe g !!! c)%nat then
        co ← cqe_heap st !! c;
        '(_, st') ← came_back (IoUring_cqe_seen [PyCqe c] st);
        if seen co then Some (st', g)
        else
          s ← sqeobj co;
          if decide (0 < pinned g !!! s)%nat
          then Some (st', Holders (held_sqe g) (held_cqe g) (unbump s (pinned g)))
          else None
      else None
  | Call_prep m self args =>
      if decide (0 < held_sqe g !!! self)%nat then
        '(_, st') ← came_back (Sqe_methods inet_pton m self args st); Some (st', g)
      else None
  | Call_set_data self args =>
      if decide (0 < held_sqe g !!! self)%nat then
        '(_, st') ← came_back (Sqe_set_data self args st); Some (st', g)
      else None
  | Call_getresult c =>
      if decide (0 < held_cqe g !!! c)%nat then
        '(_, st') ← came_back (Cqe_getresult c st); Some (st', g)
      else None
  | Drop_sqe s =>
      if decide (0 < held_sqe g !!! s)%nat then
        st' ← Py_DECREF_sqe s st;
        Some (st', Holders (unbump s (held_sqe g)) (held_cqe g) (pinned g))
      else None
  | Drop_cqe c =>
      if decide (0 < held_cqe g !!! c)%nat then
        st' ← Py_DECREF_cqe c st;
        Some (st', Holders (held_sqe g) (unbump c (held_cqe g)) (pinned g))
      else None
  | Kernel_post e =>
      r ← kernel_post e (ring st); Some (set_ring (λ _, r) st, g)
  end.

Fixpoint run (inet_pton : string → option (list Byte.byte)) (calls : list call)
    (σ : state * holders) : option (state * holders) :=
  match calls with
  | [] => Some σ
  | c :: rest => σ' ← exec inet_pton c σ; run inet_pton rest σ'
  end.

(** A session starts from a new [IoUring] object; [queue_init] is its first
    call. *)
Definition session_start (entries : Z) : state * holders :=
  (after (IoUring_queue_init [PyLong entries] IoUring_new), Holders ∅ ∅ ∅).

Definition reachable (st : state) : Prop :=
  ∃ inet_pton entries calls g,
    run inet_pton calls (session_start entries) = Some (st, g).

Definition cached (so : SqeObject) : nat :=
  match cqeobj so with Some _ => 1 | None => 0 end.

Definition occurrences (s : addr) (l : list addr) : nat :=
  length (filter (λ x, x = s) l).

(** The invariant, over the three counts as functions of the address.  A
    live request is referenced exactly by the program, the pending list,
    the pins and its cached wrapper, and caches only a live wrapper made
    for it; a dead request is referenced by nobody.  A live wrapper is
    referenced exactly by the program and is the cache entry of its own
    live request; a dead wrapper is referenced by nobody. *)
Definition sqe_ok (st : state) (hs pn : addr → nat) (s : addr) : Prop :=
  match sqe_heap st !! s with
  | Some so =>
      (sqe_refcnt so = hs s + occurrences s (wait_submit st) + pn s + cached so)%nat
      ∧ (0 < sqe_refcnt so)%nat
      ∧ ∀ c, cqeobj so = Some c →
             ∃ co, cqe_heap st !! c = Some co ∧ sqeobj co = Some s
  | None =>
      hs s = 0%nat ∧ occurrences s (wait_submit st) = 0%nat ∧ pn s = 0%nat
  end.

Definition cqe_ok (st : state) (hc : addr → nat) (c : addr) : Prop :=
  match cqe_heap st !! c with
  | Some co =>
      cqe_refcnt co = hc c ∧ (0 < cqe_refcnt co)%nat
      ∧ ∃ s so, sqeobj co = Some s ∧ sqe_heap st !! s = Some so ∧ cqeobj so = Some c
  | None => hc c = 0%nat
  end.

Definition inv (st : state) (hs hc pn : addr → nat) : Prop :=
  ∀ a, sqe_ok st hs pn a ∧ cqe_ok st hc a.

Definition count_of (m : gmap addr nat) : addr → nat := λ a, m !!! a.

Definition session_inv (σ : state * holders) : Prop :=
  inv σ.1 (count_of (held_sqe σ.2)) (count_of (held_cqe σ.2)) (count_of (pinned σ.2)).

(** ** The lifecycle data of a request *)

(** Same reference count, same cache pointer. *)
Definition same_lifecycle (so so' : SqeObject) : Prop :=
  sqe_refcnt so' = sqe_refcnt so ∧ cqeobj so' = cqeobj so.

Definition lifecycle_frame (st st' : state) : Prop :=
  cqe_heap st' = cqe_heap st ∧ wait_submit st' = wait_submit st
  ∧ ∀ a, match sqe_heap st !! a, sqe_heap st' !! a with
         | Some so, Some so' => same_lifecycle so so'
         | None, None => True
         | _, _ => False
         end.

Definition outcome_frame (st : state) (o : outcome pyobj) : Prop :=
  match o with
  | Ret _ st' | Raise _ st' => lifecycle_frame st st'
  | Blocked | Undefined => True
  end.

(** ** Retrieval *)

(** The completion entry at [slot] is tagged with the live request [s]. *)
Definition resolves (st : state) (slot : nat) (s : addr) : Prop :=
  ∃ e, cqes (ring st) !! slot = Some e ∧ u64_to_ptr (cqe_user_data e) = Some s
       ∧ is_Some (sqe_heap st !! s).

(** The wrapper that the request tagged on the entry at [slot] caches. *)
Definition cached_at (st : state) (slot : nat) (c : addr) : Prop :=
  ∃ e s so, cqes (ring st) !! slot = Some e ∧ u64_to_ptr (cqe_user_data e) = Some s
            ∧ sqe_heap st !! s = Some so ∧ cqeobj so = Some c.

(** The slot of the oldest completion that is not yet acknowledged. *)
Definition head_slot (st : state) : nat := cq_slot (ring st) (cq_head (ring st)).

(** A list-returning retrieval of [n] completions hands out, at every
    position whose request caches a wrapper, that wrapper. *)
Definition bulk_returns_cached (st : state) (n : Z) (o : outcome pyobj) : Prop :=
  ∃ l st',
    o = Ret (PyList l) st'
    ∧ length l = Z.to_nat n
    ∧ ∀ j c, (j < Z.to_nat n)%nat → cached_at st (head_slot st + j) c →
        l !! j = Some (PyCqe c).

(** One request prepared as a no-op, submitted, completed by the kernel
    and retrieved once; the completion is not acknowledged. *)
Definition session_retrieved_calls : list call :=
  [Call_get_sqe; Call_prep M_prep_nop 1%positive []; Call_submit None;
   Kernel_post (mkNCqe 1 0 0); Call_wait_cqe].

Definition session_retrieved : state * holders :=
  default (session_start 4) (run no_inet_pton session_retrieved_calls (session_start 4)).

(** ** Further sessions *)

(** A ring of one entry whose only submission slot has been handed out. *)
Definition session_queue_full : state :=
  after (IoUring_get_sqe (after (IoUring_queue_init [PyLong 1] IoUring_new))).

(** A ring of four entries, nothing acquired. *)
Definition session_initialised : state :=
  after (IoUring_queue_init [PyLong 4] IoUring_new).

(** The native slot a request points at, read through the heap. *)
Definition slot_of (st : state) (s : addr) : option nat :=
  so ← sqe_heap st !! s; sqe so.

(** Every request in the list is live and points into the submission
    array. *)
Definition slots_valid (st : state) (l : list addr) : Prop :=
  ∀ s, s ∈ l → ∃ slot, slot_of st s = Some slot ∧ (slot < length (sqes (ring st)))%nat.

(** The objects whose reference count the state does not record: every
    value but the three kinds of heap object.  [Sqe_set_data] and
    [Cqe_get_data] move references to the data object only. *)
Definition uncounted (d : pyobj) : bool :=
  match d with
  | PyBytes _ | PySqe _ | PyCqe _ => false
  | _ => true
  end.

(** The state a prepare call leaves when it has attached an owned buffer:
    the new bytes object [b] with [payload], the request with that buffer
    and the opcode of the entry [e], and [e] in the request's slot. *)
Definition owned_attached (self : addr) (so : SqeObject) (slot : nat) (b : addr)
    (payload : list Byte.byte) (e : io_uring_sqe) (st : state) : state :=
  mkState
    (<[self := with_operation (opcode e) (with_allocated_buffer (Some b) so)]> (sqe_heap st))
    (cqe_heap st)
    (<[b := mkBytes 1 payload 0]> (bytes_heap st))
    (with_sq (<[slot := e]> (sqes (ring st))) (sqe_head (ring st)) (sqe_tail (ring st))
       (ring st))
    (wait_submit st).

(** A request acquired on a ring of four entries, not yet prepared. *)
Definition session_acquired : state :=
  after (IoUring_get_sqe (after (IoUring_queue_init [PyLong 4] IoUring_new))).

(** The state a prepare call leaves when it has attached a view on the
    caller's bytes object [b]: one more reference and one more export on
    [b], the request holding the view and the opcode of [e], and [e] in the
    request's slot. *)
Definition view_attached (self : addr) (so : SqeObject) (slot : nat) (b : addr)
    (bo : PyBytesObject) (e : io_uring_sqe) (st : state) : state :=
  mkState
    (<[self := with_operation (opcode e)
                 (with_user_buffer
                    (mkPy_buffer (Some b) (PyBytes_AS_STRING b) (PyBytes_GET_SIZE bo)) so)]>
       (sqe_heap st))
    (cqe_heap st)
    (<[b := mkBytes (S (bytes_refcnt bo)) (ob_sval bo) (S (ob_exports bo))]> (bytes_heap st))
    (with_sq (<[slot := e]> (sqes (ring st))) (sqe_head (ring st)) (sqe_tail (ring st))
       (ring st))
    (wait_submit st).

(** A request acquired on a ring of four entries, and a bytes object of
    three bytes that the caller holds. *)
Definition session_with_message : state :=
  set_bytes_heap
    <[7%positive := mkBytes 1 [Byte.x61; Byte.x62; Byte.x63] 0]> session_acquired.

(** The state a prepare call leaves when it has attached nothing: the entry
    [e] in the request's slot and its opcode recorded in the request. *)
Definition committed (self : addr) (so : SqeObject) (slot : nat) (e : io_uring_sqe)
    (st : state) : state :=
  mkState
    (<[self := with_operation (opcode e) so]> (sqe_heap st))
    (cqe_heap st) (bytes_heap st)
    (with_sq (<[slot := e]> (sqes (ring st))) (sqe_head (ring st)) (sqe_tail (ring st))
       (ring st))
    (wait_submit st).

(** One request prepared as a five-byte read and submitted, as a session
    of calls. *)
Definition session_submitted_calls : list call :=
  [Call_get_sqe; Call_prep M_prep_read 1%positive [PyLong 3; PyLong 5; PyLong 0];
   Call_submit None].

Definition session_submitted : state * holders :=
  default (session_start 4) (run no_inet_pton session_submitted_calls (session_start 4)).

(** A whole life: one request prepared as a no-op, submitted, completed,
    retrieved, acknowledged, and every reference dropped. *)
Definition session_finished_calls : list call :=
  [Call_get_sqe; Call_prep M_prep_nop 1%positive []; Call_submit None;
   Kernel_post (mkNCqe 1 0 0); Call_wait_cqe; Call_cqe_seen 1%positive;
   Drop_cqe 1%positive; Drop_sqe 1%positive].

Definition session_finished : state * holders :=
  default (session_start 4) (run no_inet_pton session_finished_calls (session_start 4)).

(** The same, where the program drops the request right after submitting
    it and never acknowledges the completion. *)
Definition session_dropped_early_calls : list call :=
  [Call_get_sqe; Call_prep M_prep_nop 1%positive []; Call_submit None;
   Drop_sqe 1%positive].

Definition session_dropped_early : state * holders :=
  default (session_start 4)
    (run no_inet_pton session_dropped_early_calls (session_start 4)).

(** A five-byte read completed with three bytes, retrieved and
    acknowledged; the program has dropped the request and holds the
    wrapper only. *)
Definition session_read_acknowledged_calls : list call :=
  [Call_get_sqe; Call_prep M_prep_read 1%positive [PyLong 3; PyLong 5; PyLong 0];
   Call_submit None; Kernel_post (mkNCqe 1 3 0); Call_wait_cqe;
   Call_cqe_seen 1%positive; Drop_sqe 1%positive].

Definition session_read_acknowledged : state * holders :=
  default (session_start 4)
    (run no_inet_pton session_read_acknowledged_calls (session_start 4)).

(** A ring of four entries (eight completion entries) on which one no-op
    was completed, retrieved and acknowledged, and seven more completions
    were posted: the completion tail has come round to the first slot. *)
Definition session_ring_wrapped_calls : list call :=
  [Call_get_sqe; Call_prep M_prep_nop 1%positive []; Call_submit None;
   Kernel_post (mkNCqe 1 0 0); Call_wait_cqe; Call_cqe_seen 1%positive]
  ++ replicate 7 (Kernel_post (mkNCqe 1 0 0)).

Definition session_ring_wrapped : state * holders :=
  default (session_start 4)
    (run no_inet_pton session_ring_wrapped_calls (session_start 4)).

(** A ring of eight completion entries whose head is at the last slot,
    with two completions ready: the second one lies in slot 0. *)
Definition session_head_at_end : state :=
  set_ring (λ r, with_cq (cqes r) 7 9 r) session_initialised.

(** A five-byte read completed with three bytes, retrieved, decoded and
    acknowledged; then eight more completions tagged with the same request
    and carrying result 4, the last of which lands in the slot the wrapper
    points at. *)
Definition session_slot_reused_calls : list call :=
  [Call_get_sqe; Call_prep M_prep_read 1%positive [PyLong 3; PyLong 5; PyLong 0];
   Call_submit None; Kernel_post (mkNCqe 1 3 0); Call_wait_cqe;
   Call_getresult 1%positive; Call_cqe_seen 1%positive]
  ++ replicate 8 (Kernel_post (mkNCqe 1 4 0)).

Definition session_slot_reused : state * holders :=
  default (session_start 4)
    (run no_inet_pton session_slot_reused_calls (session_start 4)).

(** Two requests acquired on a ring of four entries; the first is
    submitted and the program drops both without waiting.  The first is
    kept by its pin, the second by the pending list. *)
Definition session_abandoned_calls : list call :=
  [Call_get_sqe; Call_prep M_prep_nop 1%positive []; Call_submit None;
   Call_get_sqe; Drop_sqe 1%positive; Drop_sqe 2%positive].

Definition session_abandoned : state * holders :=
  default (session_start 4) (run no_inet_pton session_abandoned_calls (session_start 4)).

(** An accept request whose buffer holds what the kernel stores for the
    peer 10.0.0.1, port 8080: the address image and the length 16. *)
Definition session_accept_completed : state :=
  set_bytes_heap
    <[1%positive :=
        mkBytes 1
          ([Byte.x02; Byte.x00; Byte.x1f; Byte.x90; Byte.x0a; Byte.x00; Byte.x00; Byte.x01]
             ++ replicate 8 Byte.x00 ++ [Byte.x10; Byte.x00; Byte.x00; Byte.x00]) 0]>
    (after (Sqe_prep_accept 1%positive [PyLong 3] session_acquired)).

(** Stand-ins for the C library on the one address used above. *)
Definition inet_pton_sample : string → option (list Byte.byte) :=
  λ s, if decide (s = "10.0.0.1") then Some [Byte.x0a; Byte.x00; Byte.x00; Byte.x01]
       else None.

Definition inet_ntop_sample : list Byte.byte → string := λ _, "10.0.0.1".

(** The same after the caller has dropped its reference to the request:
    the pending list holds the only one. *)
Definition session_message_unheld : state :=
  default session_with_message (Py_DECREF_sqe 1%positive session_with_message).


(** * Properties *)

(** ** Arithmetic of the C scalars *)

Lemma wrap_int_id z : INT_MIN <= z <= INT_MAX → wrap_int z = z.
Proof.
  unfold wrap_int, INT_MIN, INT_MAX. intros Hz.
  rewrite Z.mod_small; lia.
Qed.

Lemma int_neg_exact x : INT_MIN < x <= INT_MAX → int_neg x = - x.
Proof.
  intros Hx. unfold int_neg. apply wrap_int_id.
  unfold INT_MIN, INT_MAX in *. lia.
Qed.

(** ** Result decoding ([Cqe_getresult]) *)

Ltac decode_start H :=
  destruct H as (co & slot & e & Hco & Hs & Hso & Hslot & He & Hres);
  unfold Cqe_getresult; rewrite Hco; simpl; rewrite Hs; simpl; rewrite Hso; simpl;
  rewrite Hslot; simpl; rewrite He; simpl; rewrite Hres.

(** C4.  A negative raw result decodes to [OSError] for every opcode and
    whatever the request's buffers are: the call raises with [errno] set to
    the C negation of the result and leaves the state untouched, so no
    opcode-specific decoding has run.  The C negation is the mathematical
    one for every negative [int] other than [INT_MIN]. *)
Theorem getresult_negative_is_oserror st self s so r :
  decodes st self s so r → r < 0 →
  Cqe_getresult self st = Raise (OSError (int_neg r)) st
  ∧ (INT_MIN < r → int_neg r = - r).
Proof.
  intros Hd Hneg. split.
  - decode_start Hd.
    destruct (r <? 0) eqn:E; [reflexivity | apply Z.ltb_ge in E; lia].
  - intros Hmin. apply int_neg_exact. unfold INT_MAX. lia.
Qed.

Lemma resize_payload_length n l : length (resize_payload n l) = n.
Proof.
  unfold resize_payload. rewrite length_app, length_take, length_replicate. lia.
Qed.

Lemma resize_payload_same l : resize_payload (length l) l = l.
Proof.
  unfold resize_payload. rewrite firstn_all, Nat.sub_diag. simpl.
  apply app_nil_r.
Qed.

Lemma resize_payload_shrink n l : (n ≤ length l)%nat → resize_payload n l = take n l.
Proof.
  intros Hn. unfold resize_payload.
  replace (n - length l)%nat with 0%nat by lia. apply app_nil_r.
Qed.

Lemma with_allocated_buffer_id so b :
  allocated_buffer so = Some b → with_allocated_buffer (Some b) so = so.
Proof. destruct so; simpl; intros ->; reflexivity. Qed.

(** The read/recv branch of [Cqe_getresult], for a buffer that is either
    referenced once (as [Sqe_prep_read] and [Sqe_prep_recv] leave it) or
    already of the size of the result.  The call returns the request's own
    buffer object with one more reference and, as payload, the old payload
    resized to the result; the request, the wrappers, the ring and the
    other bytes objects stay as they are. *)
Lemma getresult_read_spec st self s so r b bo :
  decodes st self s so r → 0 <= r →
  is_read_or_recv (operation so) = true →
  allocated_buffer so = Some b → bytes_heap st !! b = Some bo →
  bytes_refcnt bo = 1%nat ∨ PyBytes_GET_SIZE bo = r →
  ∃ st',
    Cqe_getresult self st = Ret (PyBytes b) st'
    ∧ decodes st' self s so r
    ∧ bytes_heap st' !! b
      = Some (mkBytes (S (bytes_refcnt bo)) (resize_payload (Z.to_nat r) (ob_sval bo))
                (ob_exports bo))
    ∧ (∀ b', b' ≠ b → bytes_heap st' !! b' = bytes_heap st !! b').
Proof.
  intros Hd Hr Hop Hb Hbo Hcase.
  assert (Hd' := Hd).
  decode_start Hd.
  destruct (r <? 0) eqn:E; [apply Z.ltb_lt in E; lia | clear E].
  unfold is_read_or_recv in Hop.
  assert (Hnop : (operation so =? IORING_OP_NOP) = false).
  { apply orb_true_iff in Hop. unfold IORING_OP_NOP, IORING_OP_READ, IORING_OP_RECV in *.
    destruct Hop as [H|H]; apply Z.eqb_eq in H; rewrite H; reflexivity. }
  rewrite Hnop, Hop, Hb. simpl. rewrite Hbo. simpl.
  assert (Hdec : ∀ st1, cqe_heap st1 = cqe_heap st → ring st1 = ring st →
                 sqe_heap st1 = <[s := so]> (sqe_heap st) → decodes st1 self s so r).
  { intros st1 E1 E2 E3. exists co, slot, e. rewrite E1, E2, E3.
    rewrite lookup_insert_eq. repeat split; assumption. }
  destruct (r =? PyBytes_GET_SIZE bo) eqn:Esz; simpl.
  - (* already of the right size *)
    apply Z.eqb_eq in Esz. unfold Py_INCREF_bytes. rewrite Hbo. simpl.
    eexists. split; [reflexivity|]. split; [|split].
    + exists co, slot, e. simpl. repeat split; assumption.
    + simpl. rewrite lookup_insert_eq. unfold with_bytes_refcnt. simpl.
      unfold PyBytes_GET_SIZE in Esz. rewrite Esz, Nat2Z.id, resize_payload_same.
      reflexivity.
    + intros b' Hne. simpl. rewrite lookup_insert_ne by congruence. reflexivity.
  - (* first call with a result shorter or longer than the buffer *)
    apply Z.eqb_neq in Esz.
    destruct Hcase as [Hone | Hsame]; [| congruence].
    unfold _PyBytes_Resize. rewrite Hbo. simpl.
    destruct (r <? 0) eqn:E; [apply Z.ltb_lt in E; lia | clear E].
    destruct (PyBytes_GET_SIZE bo =? r) eqn:E; [apply Z.eqb_eq in E; congruence | clear E].
    rewrite Hone. simpl.
    unfold upd_sqe. simpl. rewrite Hso. simpl.
    rewrite (with_allocated_buffer_id so b Hb).
    unfold Py_INCREF_bytes. simpl. rewrite lookup_insert_eq. simpl.
    eexists. split; [reflexivity|]. split; [|split].
    + apply Hdec; reflexivity.
    + simpl. rewrite lookup_insert_eq. unfold with_bytes_refcnt, with_sval. simpl.
      rewrite Hone. reflexivity.
    + intros b' Hne. simpl. rewrite !lookup_insert_ne by congruence. reflexivity.
Qed.

(** C5.  With a non-negative raw result [r]: a no-op decodes to [None]; a
    read or a recv whose owned buffer is as prepare left it (referenced
    once, of any length [L]) decodes to that buffer object, which now holds
    exactly [r] bytes, the first [r] of the old payload when [r <= L]; every
    other opcode decodes to the integer [r]. *)
Theorem getresult_nonnegative_by_opcode st self s so r :
  decodes st self s so r → 0 <= r →
  (operation so = IORING_OP_NOP → Cqe_getresult self st = Ret PyNone st)
  ∧ (∀ b bo,
       is_read_or_recv (operation so) = true →
       allocated_buffer so = Some b → bytes_heap st !! b = Some bo →
       bytes_refcnt bo = 1%nat →
       ∃ st' bo',
         Cqe_getresult self st = Ret (PyBytes b) st'
         ∧ bytes_heap st' !! b = Some bo'
         ∧ PyBytes_GET_SIZE bo' = r
         ∧ (r <= PyBytes_GET_SIZE bo → ob_sval bo' = take (Z.to_nat r) (ob_sval bo))
         ∧ ∃ so', sqe_heap st' !! s = Some so' ∧ allocated_buffer so' = Some b)
  ∧ (operation so ≠ IORING_OP_NOP → is_read_or_recv (operation so) = false →
     Cqe_getresult self st = Ret (PyLong r) st).
Proof.
  intros Hd Hr. split; [|split].
  - intros Hop. decode_start Hd.
    destruct (r <? 0) eqn:E; [apply Z.ltb_lt in E; lia | clear E].
    rewrite Hop. reflexivity.
  - intros b bo Hop Hb Hbo Hone.
    destruct (getresult_read_spec st self s so r b bo Hd Hr Hop Hb Hbo (or_introl Hone))
      as (st' & Hret & Hd' & Hbo' & _).
    eexists st', _. split; [exact Hret|]. split; [exact Hbo'|]. split; [|split].
    + unfold PyBytes_GET_SIZE. simpl. rewrite resize_payload_length. lia.
    + intros Hle. simpl. apply resize_payload_shrink.
      unfold PyBytes_GET_SIZE in Hle. lia.
    + destruct Hd' as (co & slot & e & _ & _ & Hso' & _). eauto.
  - intros Hnop Hrw. decode_start Hd.
    destruct (r <? 0) eqn:E; [apply Z.ltb_lt in E; lia | clear E].
    destruct (operation so =? IORING_OP_NOP) eqn:E; [apply Z.eqb_eq in E; congruence|].
    unfold is_read_or_recv in Hrw. rewrite Hrw. reflexivity.
Qed.

Lemma getresult_times_read self s so r b :
  0 <= r → is_read_or_recv (operation so) = true → allocated_buffer so = Some b →
  ∀ n st bo,
    decodes st self s so r → bytes_heap st !! b = Some bo →
    bytes_refcnt bo = 1%nat ∨ PyBytes_GET_SIZE bo = r →
    ∃ st_n,
      getresult_times n self st = Some (replicate n (PyBytes b), st_n)
      ∧ decodes st_n self s so r
      ∧ (0 < n →
         bytes_heap st_n !! b
         = Some (mkBytes (n + bytes_refcnt bo) (resize_payload (Z.to_nat r) (ob_sval bo))
                   (ob_exports bo)))%nat.
Proof.
  intros Hr Hop Hb.
  induction n as [|n IH]; intros st bo Hd Hbo Hcase.
  - exists st. repeat split; [assumption | lia].
  - destruct (getresult_read_spec st self s so r b bo Hd Hr Hop Hb Hbo Hcase)
      as (st1 & Hret & Hd1 & Hbo1 & _).
    destruct (IH st1 _ Hd1 Hbo1) as (st_n & Hn & Hdn & Hbon).
    { right. unfold PyBytes_GET_SIZE. simpl. rewrite resize_payload_length. lia. }
    exists st_n. simpl. rewrite Hret, Hn. simpl.
    split; [reflexivity|]. split; [assumption|]. intros _.
    destruct n as [|n].
    + simpl in Hn. injection Hn as <-. rewrite Hbo1. reflexivity.
    + rewrite Hbon by lia. simpl. f_equal. f_equal; [lia|].
      rewrite <- (resize_payload_length (Z.to_nat r) (ob_sval bo)) at 1.
      apply resize_payload_same.
Qed.


(** ** Acknowledgment ([IoUring_cqe_seen]) *)

Lemma cqe_seen_unfold c st :
  IoUring_cqe_seen [PyCqe c] st =
  match cqe_heap st !! c with
  | None => Undefined
  | Some co =>
      if seen co then Ret PyNone st
      else
        match upd_cqe c (with_seen true) (set_ring (io_uring_cqe_seen (cqe co)) st) with
        | None => Undefined
        | Some st1 =>
            match sqeobj co with
            | None => Undefined
            | Some s =>
                match Py_DECREF_sqe s st1 with
                | None => Undefined
                | Some st2 => Ret PyNone st2
                end
            end
        end
  end.
Proof. reflexivity. Qed.

(** [Py_DECREF] on a request leaves the completion wrappers and the ring
    alone, also when it frees the request. *)
Lemma Sqe_reinit_buffer_frame s st st' :
  Sqe_reinit_buffer s st = Some st' →
  cqe_heap st' = cqe_heap st ∧ ring st' = ring st ∧ wait_submit st' = wait_submit st.
Proof.
  unfold Sqe_reinit_buffer, upd_sqe, PyBuffer_Release, Py_DECREF_bytes. intros H.
  repeat (simplify_option_eq || case_match); simpl; auto.
Qed.

Lemma Py_DECREF_sqe_frame s st st' :
  Py_DECREF_sqe s st = Some st' →
  cqe_heap st' = cqe_heap st ∧ ring st' = ring st ∧ wait_submit st' = wait_submit st.
Proof.
  unfold Py_DECREF_sqe, Sqe_dealloc, upd_sqe. intros H.
  destruct (sqe_heap st !! s) as [o|] eqn:Ho; simpl in H; [|discriminate].
  destruct (sqe_refcnt o) as [|[|n]]; [discriminate| |].
  - destruct (Sqe_reinit_buffer s st) as [st1|] eqn:E; simpl in H; [|discriminate].
    injection H as <-. simpl. eapply Sqe_reinit_buffer_frame; eauto.
  - simpl in H. injection H as <-. simpl. auto.
Qed.

(** Whenever a call of [cqe_seen] returns, a second call on the same wrapper
    returns [None] and changes nothing. *)
Lemma cqe_seen_twice c st v st1 :
  IoUring_cqe_seen [PyCqe c] st = Ret v st1 →
  v = PyNone ∧ IoUring_cqe_seen [PyCqe c] st1 = Ret PyNone st1.
Proof.
  rewrite !cqe_seen_unfold. intros H.
  destruct (cqe_heap st !! c) as [co|] eqn:Hco; [|discriminate].
  destruct (seen co) eqn:Hseen.
  - injection H as <- <-. rewrite Hco, Hseen. auto.
  - unfold upd_cqe in H. simpl in H. rewrite Hco in H. simpl in H.
    destruct (sqeobj co) as [s|]; [|discriminate].
    match type of H with
    | match Py_DECREF_sqe s ?st0 with _ => _ end = _ =>
        destruct (Py_DECREF_sqe s st0) as [st2|] eqn:Hdec; [|discriminate];
        apply Py_DECREF_sqe_frame in Hdec as (Hc & _ & _)
    end.
    injection H as <- <-. rewrite Hc. simpl. rewrite lookup_insert_eq. simpl. auto.
Qed.

(** C2.  On a wrapper not yet acknowledged, whose request is held by the
    submission pin besides the wrapper's own reference, [cqe_seen] returns
    [None] having advanced the completion head by one, set [seen] and taken
    one reference off the request.  A second call returns [None] in the
    very same state: no slot and no reference is released again. *)
Theorem cqe_seen_idempotent st c co slot s so :
  cqe_heap st !! c = Some co → seen co = false → cqe co = Some slot →
  sqeobj co = Some s → sqe_heap st !! s = Some so → (2 ≤ sqe_refcnt so)%nat →
  ∃ st1,
    IoUring_cqe_seen [PyCqe c] st = Ret PyNone st1
    ∧ cq_head (ring st1) = wrap_uint (cq_head (ring st) + 1)
    ∧ cq_tail (ring st1) = cq_tail (ring st)
    ∧ cqe_heap st1 !! c = Some (with_seen true co)
    ∧ sqe_heap st1 !! s = Some (with_sqe_refcnt (sqe_refcnt so - 1) so)
    ∧ IoUring_cqe_seen [PyCqe c] st1 = Ret PyNone st1.
Proof.
  intros Hco Hseen Hslot Hs Hso Hpin.
  assert (∃ st1, IoUring_cqe_seen [PyCqe c] st = Ret PyNone st1
                 ∧ cq_head (ring st1) = wrap_uint (cq_head (ring st) + 1)
                 ∧ cq_tail (ring st1) = cq_tail (ring st)
                 ∧ cqe_heap st1 !! c = Some (with_seen true co)
                 ∧ sqe_heap st1 !! s = Some (with_sqe_refcnt (sqe_refcnt so - 1) so))
    as (st1 & Hret & H).
  { rewrite cqe_seen_unfold, Hco, Hseen. unfold upd_cqe. simpl. rewrite Hco. simpl.
    rewrite Hs. unfold Py_DECREF_sqe, upd_sqe. simpl. rewrite Hso. simpl.
    destruct (sqe_refcnt so) as [|[|n]] eqn:Hn; [lia | lia |].
    simpl. eexists. split; [reflexivity|]. simpl. rewrite Hslot. simpl.
    rewrite !lookup_insert_eq. replace (n - 0)%nat with n by lia.
    repeat split; reflexivity. }
  exists st1. split; [exact Hret|].
  destruct H as (H1 & H2 & H3 & H4). repeat split; try assumption.
  apply (cqe_seen_twice c st PyNone st1 Hret).
Qed.

(** ** Decoding and acknowledgment on a concrete session *)

Ltac decodes_by_compute :=
  unfold decodes; eexists _, _, _;
  split; [vm_compute; reflexivity|];
  split; [vm_compute; reflexivity|];
  split; [vm_compute; reflexivity|];
  split; [vm_compute; reflexivity|];
  split; [vm_compute; reflexivity|];
  vm_compute; reflexivity.

Lemma getresult_negative_is_oserror_witness :
  Cqe_getresult 1%positive (session_read_completed (-9))
  = Raise (OSError (int_neg (-9))) (session_read_completed (-9))
  ∧ (INT_MIN < -9 → int_neg (-9) = - -9).
Proof.
  eapply (getresult_negative_is_oserror (session_read_completed (-9)) 1%positive).
  - decodes_by_compute.
  - lia.
Defined.

Lemma getresult_nonnegative_by_opcode_witness :
  ∃ st' bo',
    Cqe_getresult 1%positive (session_read_completed 3) = Ret (PyBytes 1%positive) st'
    ∧ bytes_heap st' !! 1%positive = Some bo'
    ∧ PyBytes_GET_SIZE bo' = 3.
Proof.
  edestruct (getresult_nonnegative_by_opcode (session_read_completed 3) 1%positive)
    as (_ & Hread & _).
  - decodes_by_compute.
  - lia.
  - edestruct (Hread 1%positive) as (st' & bo' & H1 & H2 & H3 & _).
    + vm_compute; reflexivity.
    + vm_compute; reflexivity.
    + vm_compute; reflexivity.
    + vm_compute; reflexivity.
    + exists st', bo'. auto.
Defined.


Lemma cqe_seen_idempotent_witness :
  ∃ st1,
    IoUring_cqe_seen [PyCqe 1%positive] (session_read_completed 3) = Ret PyNone st1
    ∧ cq_head (ring st1) = 1
    ∧ IoUring_cqe_seen [PyCqe 1%positive] st1 = Ret PyNone st1.
Proof.
  edestruct (cqe_seen_idempotent (session_read_completed 3) 1%positive)
    as (st1 & H1 & H2 & _ & _ & _ & H3).
  - vm_compute; reflexivity.
  - vm_compute; reflexivity.
  - vm_compute; reflexivity.
  - vm_compute; reflexivity.
  - vm_compute; reflexivity.
  - vm_compute; lia.
  - exists st1. auto.
Defined.

(** ** Submission ([IoUring_submit]) *)

(** Whatever the batch, a call of [submit] that returns returns [None]: the
    count that [io_uring_submit] reported is dropped. *)
Lemma IoUring_submit_returns_none kernel_err st v st' :
  IoUring_submit kernel_err st = Ret v st' → v = PyNone.
Proof.
  unfold IoUring_submit. intros H.
  destruct (submit_tag_and_pin (wait_submit st) st) as [st1|]; [|discriminate].
  destruct (io_uring_submit kernel_err (ring st1)) as [ret r].
  destruct (ret <? 0); [discriminate|].
  match type of H with
  | match ?x with _ => _ end = _ => destruct x; [|discriminate]
  end.
  injection H as <- _. reflexivity.
Qed.

(** C3, on the code.  With two prepared no-ops pending, [submit] tags slot 0
    with request 1 and slot 1 with request 2, leaves each request with the
    caller's reference and the pin, empties the pending list, and the native
    call reports two entries; but the method returns [None], not 2.  The
    first part states that this holds for every batch. *)
Theorem submit_returns_none_not_count :
  (∀ kernel_err st v st', IoUring_submit kernel_err st = Ret v st' → v = PyNone)
  ∧ ∃ st',
      IoUring_submit None session_two_nops = Ret PyNone st'
      ∧ IoUring_sq_ready session_two_nops = 2
      ∧ wait_submit session_two_nops = [1%positive; 2%positive]
      ∧ wait_submit st' = []
      ∧ user_data <$> sqes (ring st') !! 0%nat = Some (ptr_to_u64 1%positive)
      ∧ user_data <$> sqes (ring st') !! 1%nat = Some (ptr_to_u64 2%positive)
      ∧ sqe_refcnt <$> sqe_heap st' !! 1%positive = Some 2%nat
      ∧ sqe_refcnt <$> sqe_heap st' !! 2%positive = Some 2%nat.
Proof.
  split.
  - exact IoUring_submit_returns_none.
  - eexists. split; [vm_compute; reflexivity|].
    repeat (split; [vm_compute; reflexivity|]). vm_compute; reflexivity.
Qed.

(** ** The timeout of the bulk wait ([IoUring_wait_cqes]) *)

(** C6, as stated, fails.  On a ring with one request in flight and no
    completion ready, [wait_cqes(1, 0.0)] is handed no timespec and sleeps
    for ever, exactly as [wait_cqes(1)] does, while [wait_cqes(1, 0.5)]
    comes back with [ETIME]. *)
Lemma wait_cqes_zero_timeout_waits_forever :
  IoUring_wait_cqes [PyLong 1; PyFloat 0] session_submitted_read = Blocked
  ∧ IoUring_wait_cqes [PyLong 1] session_submitted_read = Blocked
  ∧ IoUring_wait_cqes [PyLong 1; PyFloat 0.5] session_submitted_read
    = Raise (OSError ETIME) session_submitted_read.
Proof. repeat split; vm_compute; reflexivity. Qed.

Lemma wait_cqes_unfold n t st :
  IoUring_wait_cqes [PyLong n; PyFloat t] st =
  match wait_cqes_timespec t with
  | None => Undefined
  | Some ts =>
      match io_uring_wait_cqes (ring st) (wrap_uint n) ts with
      | WaitForever => Blocked
      | WaitDone ret cqes_ptr =>
          if negb (ret =? 0) then Raise (OSError (int_neg ret)) st
          else
            match wait_loop (Z.to_nat (wrap_uint n)) cqes_ptr 0 st with
            | Some (l, st') => Ret (PyList l) st'
            | None => Undefined
            end
      end
  end.
Proof. reflexivity. Qed.

Lemma wait_cqes_unfold_absent n st :
  IoUring_wait_cqes [PyLong n] st =
  match wait_cqes_timespec 0 with
  | None => Undefined
  | Some ts =>
      match io_uring_wait_cqes (ring st) (wrap_uint n) ts with
      | WaitForever => Blocked
      | WaitDone ret cqes_ptr =>
          if negb (ret =? 0) then Raise (OSError (int_neg ret)) st
          else
            match wait_loop (Z.to_nat (wrap_uint n)) cqes_ptr 0 st with
            | Some (l, st') => Ret (PyList l) st'
            | None => Undefined
            end
      end
  end.
Proof. reflexivity. Qed.

(** C6, amended.  The numeric value of the timeout decides: the native wait
    gets no timespec exactly when the value compares equal to zero; a call
    without timeout is the call with timeout [0.0]; and a call whose timeout
    is non-zero never sleeps for ever. *)
Theorem wait_cqes_timeout_decided_by_value :
  (∀ t, wait_cqes_timespec t = Some None ↔ CDouble.truth t = false)
  ∧ (∀ n st, IoUring_wait_cqes [PyLong n] st = IoUring_wait_cqes [PyLong n; PyFloat 0] st)
  ∧ (∀ n t st, CDouble.truth t = true →
       is_blocked (IoUring_wait_cqes [PyLong n; PyFloat t] st) = false).
Proof.
  split; [|split].
  - intros t. unfold wait_cqes_timespec. destruct (CDouble.truth t).
    + split; [|discriminate]. destruct (timespec_of_double t); discriminate.
    + split; reflexivity.
  - intros n st. rewrite wait_cqes_unfold, wait_cqes_unfold_absent. reflexivity.
  - intros n t st Ht. rewrite wait_cqes_unfold. unfold wait_cqes_timespec. rewrite Ht.
    destruct (timespec_of_double t) as [ts|]; [|reflexivity]. simpl.
    unfold io_uring_wait_cqes.
    repeat match goal with |- context [if ?b then _ else _] => destruct b end;
      try reflexivity.
    all: simpl; destruct (wait_loop _ _ _ _) as [[l st']|]; reflexivity.
Qed.

(** ** The target of cancel and timeout-remove *)

(** [Sqe_prep_timeout_remove] never returns normally: with fewer than two
    arguments the count check fails, and otherwise the first conversion
    meets [&timeout] where ["O!"] expects a type object. *)
Lemma Sqe_prep_timeout_remove_never_returns self args st :
  returns (Sqe_prep_timeout_remove self args st) = false.
Proof.
  unfold Sqe_prep_timeout_remove, PyArg_ParseTuple.
  destruct args as [|a args]; [reflexivity|].
  match goal with |- context [if ?b then _ else _] => destruct b end;
    reflexivity.
Qed.

(** C9, on the code.  In a session where request 1 is a prepared timeout:
    [prep_cancel] on request 2 with target 1 stores the address of request 1
    in the slot, which is the very value [submit] then writes as the tag of
    request 1; [prep_timeout_remove] on request 3 with the same target
    leaves defined behaviour without encoding anything.  The first part
    states that [prep_timeout_remove] returns normally for no input. *)
Theorem timeout_remove_does_not_encode_target :
  (∀ self args st, returns (Sqe_prep_timeout_remove self args st) = false)
  ∧ Sqe_prep_timeout_remove 3%positive [PySqe 1%positive; PyLong 0] session_three_acquired
    = Undefined
  ∧ ∃ st1 st2,
      Sqe_prep_cancel 2%positive [PySqe 1%positive; PyLong 0] session_three_acquired
      = Ret PyNone st1
      ∧ sqe_addr <$> sqes (ring st1) !! 1%nat = Some (ptr_to_u64 1%positive)
      ∧ IoUring_submit None st1 = Ret PyNone st2
      ∧ user_data <$> sqes (ring st2) !! 0%nat = Some (ptr_to_u64 1%positive).
Proof.
  split; [exact Sqe_prep_timeout_remove_never_returns|].
  split; [vm_compute; reflexivity|].
  eexists _, _.
  split; [vm_compute; reflexivity|].
  split; [vm_compute; reflexivity|].
  split; [vm_compute; reflexivity|].
  vm_compute; reflexivity.
Qed.

(** ** What argument parsing can touch *)

Lemma same_but_bytes_refl st : same_but_bytes st st.
Proof. repeat split. Qed.

Lemma same_but_bytes_trans st1 st2 st3 :
  same_but_bytes st1 st2 → same_but_bytes st2 st3 → same_but_bytes st1 st3.
Proof.
  intros (A1 & A2 & A3 & A4) (B1 & B2 & B3 & B4).
  repeat split; congruence.
Qed.

Lemma set_bytes_heap_same f st : same_but_bytes st (set_bytes_heap f st).
Proof. repeat split. Qed.

Lemma Py_DECREF_bytes_same b st st' :
  Py_DECREF_bytes b st = Some st' → same_but_bytes st st'.
Proof.
  unfold Py_DECREF_bytes. intros H.
  destruct (bytes_heap st !! b) as [bo|]; [|discriminate]. simpl in H.
  destruct (bytes_refcnt bo) as [|[|n]]; [discriminate| |];
    injection H as <-; apply set_bytes_heap_same.
Qed.

Lemma PyObject_GetBuffer_same b st v st' :
  PyObject_GetBuffer b st = Some (v, st') → same_but_bytes st st'.
Proof.
  unfold PyObject_GetBuffer. intros H.
  destruct (bytes_heap st !! b) as [bo|]; [|discriminate]. simpl in H.
  injection H as _ <-. apply set_bytes_heap_same.
Qed.

Lemma PyBuffer_Release_spec v st v' st' :
  PyBuffer_Release v st = Some (v', st') →
  same_but_bytes st st' ∧ buf_obj v' = None.
Proof.
  unfold PyBuffer_Release. intros H.
  destruct (buf_obj v) as [b|] eqn:Hv.
  - destruct (bytes_heap st !! b) as [bo|]; [|discriminate]. simpl in H.
    match type of H with
    | context [Py_DECREF_bytes b ?s] =>
        destruct (Py_DECREF_bytes b s) as [st2|] eqn:Hd; [|discriminate]
    end.
    simpl in H. injection H as <- <-. split; [|reflexivity].
    apply Py_DECREF_bytes_same in Hd.
    eapply same_but_bytes_trans; [apply set_bytes_heap_same | exact Hd].
  - injection H as <- <-. split; [apply same_but_bytes_refl | exact Hv].
Qed.

Lemma PyBytes_FromStringAndSize_spec content size st b st' :
  PyBytes_FromStringAndSize content size st = Some (b, st') →
  same_but_bytes st st' ∧ bytes_heap st !! b = None
  ∧ ∃ payload, bytes_heap st' = <[b := mkBytes 1 payload 0]> (bytes_heap st)
      ∧ (content = None → payload = replicate (Z.to_nat size) Byte.x00).
Proof.
  unfold PyBytes_FromStringAndSize. intros H.
  destruct (size <? 0); [discriminate|]. injection H as <- <-.
  split; [apply set_bytes_heap_same|]. split.
  - apply not_elem_of_dom, is_fresh.
  - eexists. split; [reflexivity|]. intros ->. reflexivity.
Qed.

Lemma convertitem_same u arg va env st va' env' st' :
  convertitem u arg va env st = ConvOk va' env' st' → same_but_bytes st st'.
Proof.
  unfold convertitem. intros H.
  repeat case_match; simplify_eq; try apply same_but_bytes_refl.
  eapply PyObject_GetBuffer_same; eauto.
Qed.

Lemma parse_cleanup_same acquired : ∀ env st env' st',
  parse_cleanup acquired env st = Some (env', st') → same_but_bytes st st'.
Proof.
  induction acquired as [|x rest IH]; simpl; intros env st env' st' H.
  - injection H as _ <-. apply same_but_bytes_refl.
  - destruct (env !! x) as [[| | | |v]|]; eauto.
    destruct (PyBuffer_Release v st) as [[v1 st1]|] eqn:Hr; [|discriminate].
    simpl in H. apply PyBuffer_Release_spec in Hr as [Hr _].
    eapply same_but_bytes_trans; eauto.
Qed.

Lemma convert_args_same us : ∀ args va acquired env st,
  match convert_args us args va acquired env st with
  | ParseOk _ st' | ParseFail _ _ st' => same_but_bytes st st'
  | ParseUndef => True
  end.
Proof.
  induction us as [|u us IH]; intros [|arg args] va acquired env st; simpl;
    try exact I; try apply same_but_bytes_refl.
  destruct (convertitem u arg va env st) as [va' env' st'| e |] eqn:Hc; [| |exact I].
  - apply convertitem_same in Hc.
    specialize (IH args va' (acquired_by u va ++ acquired) env' st').
    destruct (convert_args us args va' _ env' st'); try exact I;
      eapply same_but_bytes_trans; eauto.
  - destruct (parse_cleanup acquired env st) as [[env' st']|] eqn:Hcl; [|exact I].
    eapply parse_cleanup_same; eauto.
Qed.

(** Parsing changes nothing but the bytes heap. *)
Lemma PyArg_ParseTuple_same args f va env st :
  match PyArg_ParseTuple args f va env st with
  | ParseOk _ st' | ParseFail _ _ st' => same_but_bytes st st'
  | ParseUndef => True
  end.
Proof.
  unfold PyArg_ParseTuple.
  destruct (_ || _); [apply same_but_bytes_refl | apply convert_args_same].
Qed.

Lemma convertitem_plain u arg va env st va' env' st' :
  (match u with F_ystar => false | _ => true end) = true →
  convertitem u arg va env st = ConvOk va' env' st' → st' = st.
Proof.
  unfold convertitem. intros Hu H.
  repeat case_match; simplify_eq; reflexivity.
Qed.

Lemma convert_args_plain us : ∀ args va env st,
  no_ystar us = true →
  match convert_args us args va [] env st with
  | ParseOk _ st' | ParseFail _ _ st' => st' = st
  | ParseUndef => True
  end.
Proof.
  induction us as [|u us IH]; intros [|arg args] va env st Hus; simpl;
    try exact I; try reflexivity.
  simpl in Hus. apply andb_true_iff in Hus as [Hu Hus].
  destruct (convertitem u arg va env st) as [va' env' st'| e |] eqn:Hc;
    [| reflexivity | exact I].
  apply convertitem_plain in Hc as ->; [|exact Hu].
  replace (acquired_by u va ++ []) with (@nil string).
  - apply IH, Hus.
  - destruct u; try reflexivity; discriminate.
Qed.

Lemma PyArg_ParseTuple_plain args f va env st :
  no_ystar (fmt_required f ++ fmt_optional f) = true →
  match PyArg_ParseTuple args f va env st with
  | ParseOk _ st' | ParseFail _ _ st' => st' = st
  | ParseUndef => True
  end.
Proof.
  intros Hf. unfold PyArg_ParseTuple.
  destruct (_ || _); [reflexivity | apply convert_args_plain, Hf].
Qed.

Lemma get_buf_insert_eq env x v : get_buf (<[x := CBuf v]> env) x = Some v.
Proof. unfold get_buf. rewrite lookup_insert_eq. reflexivity. Qed.

Lemma get_buf_insert_ne env x y c : x ≠ y → get_buf (<[x := c]> env) y = get_buf env y.
Proof. intros Hne. unfold get_buf. rewrite lookup_insert_ne by exact Hne. reflexivity. Qed.

(** The format ["iy*|i"] of [Sqe_prep_send] and [Sqe_prep_write], whose view
    destination [ub] is [self->user_buffer].  On success the view is the one
    [PyObject_GetBuffer] returned on the incoming state; on failure the
    view holds no exporter (it was never acquired, or was released by the
    cleanup). *)
Lemma PyArg_ParseTuple_view x1 ub x3 args env st v0 :
  x1 ≠ ub → x3 ≠ ub → get_buf env ub = Some v0 → buf_obj v0 = None →
  match PyArg_ParseTuple args (Format [F_i; F_ystar] [F_i])
          [VaDest x1; VaDest ub; VaDest x3] env st with
  | ParseUndef => True
  | ParseFail _ env' st' => ∃ v', get_buf env' ub = Some v' ∧ buf_obj v' = None
  | ParseOk env' st' =>
      ∃ b v, PyObject_GetBuffer b st = Some (v, st') ∧ get_buf env' ub = Some v
  end.
Proof.
  intros H1 H3 Hv0 Hnone. unfold PyArg_ParseTuple.
  assert (Hkeep : ∃ v', get_buf env ub = Some v' ∧ buf_obj v' = None) by eauto.
  assert (Hkeep1 : ∀ c, ∃ v', get_buf (<[x1 := c]> env) ub = Some v' ∧ buf_obj v' = None).
  { intros c. rewrite get_buf_insert_ne by exact H1. exact Hkeep. }
  destruct args as [|a1 [|a2 [|a3 [|a4 args]]]]; simpl; try exact Hkeep.
  - (* fd, buf *)
    destruct a1; simpl; try exact Hkeep.
    destruct (is_int z); simpl; [|exact Hkeep].
    destruct a2; simpl; try apply Hkeep1.
    destruct (PyObject_GetBuffer b st) as [[v st']|] eqn:Hg; simpl; [|exact I].
    exists b, v. split; [exact Hg | apply get_buf_insert_eq].
  - (* fd, buf, flags *)
    destruct a1; simpl; try exact Hkeep.
    destruct (is_int z); simpl; [|exact Hkeep].
    destruct a2; simpl; try apply Hkeep1.
    destruct (PyObject_GetBuffer b st) as [[v st']|] eqn:Hg; simpl; [|exact I].
    assert (Hfail :
      match
        match PyBuffer_Release v st' with
        | Some (v', st'') =>
            Some (<[ub := CBuf v']> (<[ub := CBuf v]> (<[x1 := CInt z]> env)), st'')
        | None => None
        end
      with
      | Some (env', st'') => ∃ v', get_buf env' ub = Some v' ∧ buf_obj v' = None
      | None => True
      end).
    { destruct (PyBuffer_Release v st') as [[v' st'']|] eqn:Hr; [|exact I].
      apply PyBuffer_Release_spec in Hr as [_ Hr].
      exists v'. split; [apply get_buf_insert_eq | exact Hr]. }
    destruct a3; simpl; rewrite ?lookup_insert_eq; simpl;
      try (destruct (PyBuffer_Release v st') as [[v' st'']|]; simpl in *; exact Hfail).
    destruct (is_int z0); simpl; rewrite ?lookup_insert_eq; simpl.
    + exists b, v. split; [exact Hg|].
      rewrite get_buf_insert_ne by exact H3. apply get_buf_insert_eq.
    + destruct (PyBuffer_Release v st') as [[v' st'']|]; simpl in *; exact Hfail.
Qed.

(** ** Prepare calls and the buffer slot *)

Lemma same_but_buffers_refl so : same_but_buffers so so.
Proof. repeat split. Qed.

Lemma upd_sqe_spec a f st st' :
  upd_sqe a f st = Some st' →
  ∃ o, sqe_heap st !! a = Some o ∧ st' = set_sqe_heap <[a := f o]> st.
Proof.
  unfold upd_sqe. destruct (sqe_heap st !! a) as [o|]; [|discriminate].
  simpl. intros [= <-]. eauto.
Qed.

Lemma reinit_owned_phase self stA soA st1 :
  sqe_heap stA !! self = Some soA →
  match allocated_buffer soA with
  | Some b =>
      st2 ← Py_DECREF_bytes b stA;
      upd_sqe self (with_allocated_buffer None) st2
  | None => Some stA
  end = Some st1 →
  ∃ so1, sqe_heap st1 !! self = Some so1 ∧ same_but_buffers soA so1
    ∧ allocated_buffer so1 = None ∧ user_buffer so1 = user_buffer soA.
Proof.
  intros HsoA H. destruct (allocated_buffer soA) as [b|] eqn:Hb.
  - destruct (Py_DECREF_bytes b stA) as [st2|] eqn:Hd; [|discriminate]. simpl in H.
    apply Py_DECREF_bytes_same in Hd as (S1 & _).
    apply upd_sqe_spec in H as (o & Ho & ->). rewrite S1, HsoA in Ho.
    injection Ho as <-. exists (with_allocated_buffer None soA). simpl.
    rewrite lookup_insert_eq. repeat split.
  - injection H as <-. exists soA. repeat split; assumption.
Qed.

(** [Sqe_reinit_buffer] leaves the request without view and without owned
    buffer and touches nothing else but the bytes heap. *)
Lemma Sqe_reinit_buffer_spec self st st1 so :
  Sqe_reinit_buffer self st = Some st1 → sqe_heap st !! self = Some so →
  cqe_heap st1 = cqe_heap st ∧ ring st1 = ring st ∧ wait_submit st1 = wait_submit st
  ∧ ∃ so1, sqe_heap st1 !! self = Some so1 ∧ same_but_buffers so so1
      ∧ allocated_buffer so1 = None ∧ buf_obj (user_buffer so1) = None.
Proof.
  intros H Hso. destruct (Sqe_reinit_buffer_frame _ _ _ H) as (F1 & F2 & F3).
  split; [exact F1|]. split; [exact F2|]. split; [exact F3|].
  unfold Sqe_reinit_buffer in H. rewrite Hso in H. simpl in H.
  destruct (buf_obj (user_buffer so)) as [x|] eqn:Hv.
  - destruct (PyBuffer_Release (user_buffer so) st) as [[v sta]|] eqn:Hr; [|discriminate].
    simpl in H. apply PyBuffer_Release_spec in Hr as [(S1 & _) _].
    destruct (upd_sqe self _ sta) as [stA|] eqn:Hu; [|discriminate]. simpl in H.
    apply upd_sqe_spec in Hu as (o & Ho & ->). rewrite S1, Hso in Ho. injection Ho as <-.
    simpl in H. rewrite lookup_insert_eq in H. simpl in H.
    apply (reinit_owned_phase self _
             (with_user_buffer (mkPy_buffer None (buf_buf v) (buf_len v)) so))
      in H as (so1 & A1 & A2 & A3 & A4); [|simpl; apply lookup_insert_eq].
    exists so1. split; [exact A1|]. split; [|split; [exact A3|rewrite A4; reflexivity]].
    destruct A2 as (B1 & B2 & B3 & B4 & B5 & B6 & B7). repeat split; assumption.
  - simpl in H. rewrite Hso in H. simpl in H.
    eapply reinit_owned_phase in H as (so1 & A1 & A2 & A3 & A4); [|exact Hso].
    exists so1. split; [exact A1|]. split; [exact A2|]. split; [exact A3|].
    rewrite A4. exact Hv.
Qed.

Lemma record_opcode_spec self st :
  match record_opcode self st with
  | Ret v st' =>
      v = PyNone
      ∧ ∃ so op, sqe_heap st !! self = Some so
          ∧ st' = set_sqe_heap <[self := with_operation op so]> st
  | Raise _ _ | Blocked => False
  | Undefined => True
  end.
Proof.
  unfold record_opcode.
  destruct (sqe_heap st !! self) as [so|] eqn:Hso; [|exact I].
  destruct (sqe so) as [slot|]; [|exact I].
  destruct (sqes (ring st) !! slot) as [e|]; [|exact I].
  unfold upd_sqe. rewrite Hso. simpl. eauto.
Qed.

(** [prep_commit] writes one submission slot and the request's opcode; it
    never fails with an exception. *)
Lemma prep_commit_spec self e st :
  match prep_commit self e st with
  | Ret v st' =>
      v = PyNone
      ∧ cqe_heap st' = cqe_heap st ∧ bytes_heap st' = bytes_heap st
      ∧ wait_submit st' = wait_submit st
      ∧ ∃ so op, sqe_heap st !! self = Some so
          ∧ sqe_heap st' = <[self := with_operation op so]> (sqe_heap st)
  | Raise _ _ | Blocked => False
  | Undefined => True
  end.
Proof.
  unfold prep_commit.
  destruct (sqe_heap st !! self) as [so|] eqn:Hso; [|exact I].
  destruct (sqe so) as [slot|]; [|exact I].
  destruct (write_sqe slot e (ring st)) as [r|]; [|exact I].
  pose proof (record_opcode_spec self (set_ring (λ _, r) st)) as H.
  destruct (record_opcode self (set_ring (λ _, r) st)); try exact H.
  destruct H as (-> & so' & op & Hso' & ->). simpl in *.
  repeat split. exists so, op. rewrite Hso in Hso'. injection Hso' as <-. auto.
Qed.

Lemma attach_owned_commit self st1 so1 content size (E : addr → io_uring_sqe) :
  sqe_heap st1 !! self = Some so1 →
  allocated_buffer so1 = None → buf_obj (user_buffer so1) = None →
  match
    (let? (b, st) := PyBytes_FromStringAndSize content size st1 in
     let? st := upd_sqe self (with_allocated_buffer (Some b)) st in
     prep_commit self (E b) st)
  with
  | Ret v st' => v = PyNone ∧ attaches_owned self st1 st'
  | Raise _ _ | Blocked => False
  | Undefined => True
  end.
Proof.
  intros Hso1 Hnone Hview.
  destruct (PyBytes_FromStringAndSize content size st1) as [[b st2]|] eqn:Ha; [|exact I].
  apply PyBytes_FromStringAndSize_spec in Ha as ((S1 & S2 & S3 & S4) & Hfresh & payload & Hb & _).
  destruct (upd_sqe self (with_allocated_buffer (Some b)) st2) as [st3|] eqn:Hu; [|exact I].
  apply upd_sqe_spec in Hu as (o & Ho & ->). rewrite S1, Hso1 in Ho. injection Ho as <-.
  pose proof (prep_commit_spec self (E b)
                (set_sqe_heap <[self := with_allocated_buffer (Some b) so1]> st2)) as H.
  destruct (prep_commit self (E b) _) as [v st'| | |]; try exact H.
  destruct H as (-> & _ & Hbytes & _ & so' & op & Hso' & Hheap).
  split; [reflexivity|]. simpl in *. rewrite lookup_insert_eq in Hso'. injection Hso' as <-.
  exists b, (mkBytes 1 payload 0), (with_operation op (with_allocated_buffer (Some b) so1)).
  split; [exact Hfresh|]. split; [congruence|]. split; [reflexivity|].
  split; [rewrite Hheap; apply lookup_insert_eq|]. split; [reflexivity | exact Hview].
Qed.

Ltac destruct_let :=
  match goal with
  | |- context [match get_int ?e ?x with _ => _ end] => destruct (get_int e x); [|exact I]
  | |- context [match get_double ?e ?x with _ => _ end] => destruct (get_double e x); [|exact I]
  | |- context [match get_str ?e ?x with _ => _ end] => destruct (get_str e x); [|exact I]
  | |- context [match timespec_of_double ?t with _ => _ end] =>
      destruct (timespec_of_double t); [|exact I]
  end.

(** A method that releases, parses a format without view, then attaches an
    owned buffer. *)
Ltac prep_owned_plain :=
  let st1 := fresh "st1" in let Hre := fresh "Hre" in
  match goal with
  | Hso : sqe_heap ?st !! ?self = Some ?so
    |- context [Sqe_reinit_buffer ?self ?st] =>
      destruct (Sqe_reinit_buffer self st) as [st1|] eqn:Hre; [|exact I];
      destruct (Sqe_reinit_buffer_spec self st st1 so Hre Hso)
        as (R1 & R2 & R3 & so1 & Hso1 & Hsame & Hb1 & Hv1)
  end.

Lemma attach_owned_outcome self so st st1 so1 content size (E : addr → io_uring_sqe) :
  Sqe_reinit_buffer self st = Some st1 →
  sqe_heap st1 !! self = Some so1 →
  allocated_buffer so1 = None → buf_obj (user_buffer so1) = None →
  prep_outcome true self so st
    (let? (b, st) := PyBytes_FromStringAndSize content size st1 in
     let? st := upd_sqe self (with_allocated_buffer (Some b)) st in
     prep_commit self (E b) st).
Proof.
  intros Hre Hso1 Hb1 Hv1.
  pose proof (attach_owned_commit self st1 so1 content size E Hso1 Hb1 Hv1) as H.
  simpl in H.
  match type of H with
  | match ?o with _ => _ end =>
      destruct o; simpl; [|contradiction|contradiction|exact I]
  end.
  destruct H as [-> H]. split; [reflexivity|]. eauto 10.
Qed.

(** The failure branch of a method that has released and then parsed a
    format without view: the state is the released one. *)
Lemma released_failure_outcome self so st st1 so1 e :
  cqe_heap st1 = cqe_heap st → ring st1 = ring st → wait_submit st1 = wait_submit st →
  sqe_heap st1 !! self = Some so1 → same_but_buffers so so1 →
  allocated_buffer so1 = None → buf_obj (user_buffer so1) = None →
  prep_outcome true self so st (Raise e st1).
Proof.
  intros R1 R2 R3 Hso1 Hsame Hb1 Hv1. simpl. rewrite R1, R2, R3.
  repeat split. eauto.
Qed.

Ltac parse_plain :=
  match goal with
  | |- context [PyArg_ParseTuple ?a ?f ?va ?env ?s] =>
      let Hp := fresh "Hp" in
      pose proof (PyArg_ParseTuple_plain a f va env s eq_refl) as Hp;
      destruct (PyArg_ParseTuple a f va env s) as [? ?st2|? ? ?st2|]; [| |exact I];
      subst st2
  end.

Ltac prep_owned_method :=
  prep_owned_plain; parse_plain;
  [ repeat destruct_let; eapply attach_owned_outcome; eassumption
  | eapply released_failure_outcome; eassumption ].

Lemma Sqe_prep_recv_outcome self args st so :
  sqe_heap st !! self = Some so →
  prep_outcome true self so st (Sqe_prep_recv self args st).
Proof. intros Hso. unfold Sqe_prep_recv. prep_owned_method. Qed.

Lemma Sqe_prep_read_outcome self args st so :
  sqe_heap st !! self = Some so →
  prep_outcome true self so st (Sqe_prep_read self args st).
Proof. intros Hso. unfold Sqe_prep_read. prep_owned_method. Qed.

Lemma Sqe_prep_accept_outcome self args st so :
  sqe_heap st !! self = Some so →
  prep_outcome true self so st (Sqe_prep_accept self args st).
Proof. intros Hso. unfold Sqe_prep_accept. prep_owned_method. Qed.

Lemma Sqe_prep_timeout_outcome self args st so :
  sqe_heap st !! self = Some so →
  prep_outcome true self so st (Sqe_prep_timeout self args st).
Proof. intros Hso. unfold Sqe_prep_timeout. prep_owned_method. Qed.

Section ConnectOutcome.

Variable inet_pton : string → option (list Byte.byte).

Lemma Sqe_prep_connect_outcome self args st so :
  sqe_heap st !! self = Some so →
  prep_outcome true self so st (Sqe_prep_connect inet_pton self args st).
Proof.
  intros Hso. unfold Sqe_prep_connect. prep_owned_plain. parse_plain.
  - repeat destruct_let.
    match goal with
    | |- context [match get_obj ?e ?x with _ => _ end] =>
        destruct (get_obj e x) as [[]|]; try exact I
    end.
    parse_plain.
    + repeat destruct_let. eapply attach_owned_outcome; eassumption.
    + eapply released_failure_outcome; eassumption.
  - eapply released_failure_outcome; eassumption.
Qed.

End ConnectOutcome.

(** The two methods that attach a borrowed view. *)
Lemma attach_view_outcome self so st st1 so1 x1 x3 args env
    (K : locals → Py_buffer → state → outcome pyobj) :
  Sqe_reinit_buffer self st = Some st1 →
  cqe_heap st1 = cqe_heap st → ring st1 = ring st → wait_submit st1 = wait_submit st →
  sqe_heap st1 !! self = Some so1 → same_but_buffers so so1 →
  allocated_buffer so1 = None → buf_obj (user_buffer so1) = None →
  x1 ≠ "self->user_buffer" → x3 ≠ "self->user_buffer" →
  get_buf env "self->user_buffer" = Some (user_buffer so1) →
  (∀ env' v st0, K env' v st0 = Undefined ∨ ∃ e, K env' v st0 = prep_commit self e st0) →
  prep_outcome true self so st
    match PyArg_ParseTuple args (Format [F_i; F_ystar] [F_i])
            [VaDest x1; VaDest "self->user_buffer"; VaDest x3] env st1 with
    | ParseUndef => Undefined
    | ParseFail e env st =>
        let? st := store_user_buffer self env st in Raise e st
    | ParseOk env st =>
        let? st := store_user_buffer self env st in
        let? v := get_buf env "self->user_buffer" in
        K env v st
    end.
Proof.
  intros Hre R1 R2 R3 Hso1 Hsame Hb1 Hv1 Hx1 Hx3 Henv HK.
  pose proof (PyArg_ParseTuple_view x1 "self->user_buffer" x3 args env st1
                (user_buffer so1) Hx1 Hx3 Henv Hv1) as Hview.
  pose proof (PyArg_ParseTuple_same args (Format [F_i; F_ystar] [F_i])
                [VaDest x1; VaDest "self->user_buffer"; VaDest x3] env st1) as Hsame2.
  destruct (PyArg_ParseTuple _ _ _ _ _) as [env' st2|e env' st2|]; [| |exact I].
  - destruct Hview as (b & v & Hg & Hget).
    destruct Hsame2 as (S1 & S2 & S3 & S4).
    unfold store_user_buffer. rewrite Hget. simpl.
    unfold upd_sqe. rewrite S1, Hso1. simpl.
    destruct (HK env' v (set_sqe_heap <[self := with_user_buffer v so1]> st2))
      as [-> | [e ->]]; [exact I|].
    match goal with
    | |- prep_outcome _ _ _ _ (prep_commit ?s ?e ?st0) =>
        pose proof (prep_commit_spec s e st0) as H;
        destruct (prep_commit s e st0) as [r st'| | |]; simpl;
        [|contradiction|contradiction|exact I]
    end.
    destruct H as (-> & _ & Hbytes & _ & so' & op & Hso' & Hheap).
    simpl in *. rewrite lookup_insert_eq in Hso'. injection Hso' as <-.
    split; [reflexivity|].
    exists st1, so1. repeat (split; [assumption|]). right.
    exists b, v, st2, (with_operation op (with_user_buffer v so1)).
    split; [exact Hg|]. split; [exact Hbytes|].
    split; [rewrite Hheap; apply lookup_insert_eq|]. split; [reflexivity | exact Hb1].
  - destruct Hview as (v' & Hget & Hnone).
    destruct Hsame2 as (S1 & S2 & S3 & S4).
    unfold store_user_buffer. rewrite Hget. simpl.
    unfold upd_sqe. rewrite S1, Hso1. simpl.
    rewrite S2, S3, S4, R1, R2, R3. repeat split.
    exists (with_user_buffer v' so1). rewrite lookup_insert_eq.
    split; [reflexivity|]. split; [exact Hsame|]. split; [exact Hb1 | exact Hnone].
Qed.

Lemma Sqe_prep_send_outcome self args st so :
  sqe_heap st !! self = Some so →
  prep_outcome true self so st (Sqe_prep_send self args st).
Proof.
  intros Hso. unfold Sqe_prep_send. prep_owned_plain. rewrite Hso1.
  eapply (attach_view_outcome self so st st1 so1 "fd" "flags" args _
            (λ env v st,
               let? fd_ := get_int env "fd" in
               let? flags := get_int env "flags" in
               prep_commit self
                 (with_op_flags flags
                    (io_uring_prep_rw IORING_OP_SEND fd_ (buf_buf v) (wrap_int (buf_len v))
                       (Some 0))) st)); try eassumption; try discriminate.
  - reflexivity.
  - intros env' v st0. simpl.
    destruct (get_int env' "fd"); [|auto]. destruct (get_int env' "flags"); eauto.
Qed.

Lemma Sqe_prep_write_outcome self args st so :
  sqe_heap st !! self = Some so →
  prep_outcome true self so st (Sqe_prep_write self args st).
Proof.
  intros Hso. unfold Sqe_prep_write. prep_owned_plain. rewrite Hso1.
  eapply (attach_view_outcome self so st st1 so1 "fd" "offset" args _
            (λ env v st,
               let? fd_ := get_int env "fd" in
               prep_commit self
                 (io_uring_prep_rw IORING_OP_WRITE fd_ (buf_buf v) (wrap_int (buf_len v))
                    (int_to_u64 <$> get_int env "offset")) st));
    try eassumption; try discriminate.
  - reflexivity.
  - intros env' v st0. simpl. destruct (get_int env' "fd"); eauto.
Qed.

(** The methods that do not release. *)
Lemma commit_outcome self so st e :
  sqe_heap st !! self = Some so →
  prep_outcome false self so st (prep_commit self e st).
Proof.
  intros Hso. pose proof (prep_commit_spec self e st) as H.
  destruct (prep_commit self e st) as [v st'| | |]; simpl;
    [|contradiction|contradiction|exact I].
  destruct H as (-> & _ & Hbytes & _ & so' & op & Hso' & Hheap).
  rewrite Hso in Hso'. injection Hso' as <-.
  split; [reflexivity|]. split; [exact Hbytes|].
  exists (with_operation op so). rewrite Hheap, lookup_insert_eq. auto.
Qed.

Lemma unchanged_failure_outcome self so st e :
  sqe_heap st !! self = Some so →
  prep_outcome false self so st (Raise e st).
Proof.
  intros Hso. simpl. repeat split. exists so.
  split; [exact Hso|]. split; [apply same_but_buffers_refl | reflexivity].
Qed.

Ltac prep_plain_method :=
  parse_plain;
  [ repeat destruct_let;
    try match goal with
      | |- context [match get_obj ?e ?x with _ => _ end] =>
          destruct (get_obj e x) as [[]|]; try exact I
      end;
    apply commit_outcome; assumption
  | apply unchanged_failure_outcome; assumption ].

Lemma Sqe_prep_close_outcome self args st so :
  sqe_heap st !! self = Some so →
  prep_outcome false self so st (Sqe_prep_close self args st).
Proof. intros Hso. unfold Sqe_prep_close. prep_plain_method. Qed.

Lemma Sqe_prep_cancel_outcome self args st so :
  sqe_heap st !! self = Some so →
  prep_outcome false self so st (Sqe_prep_cancel self args st).
Proof. intros Hso. unfold Sqe_prep_cancel. prep_plain_method. Qed.

Lemma Sqe_prep_timeout_remove_outcome self args st so :
  sqe_heap st !! self = Some so →
  prep_outcome false self so st (Sqe_prep_timeout_remove self args st).
Proof. intros Hso. unfold Sqe_prep_timeout_remove. prep_plain_method. Qed.

Lemma Sqe_prep_openat_outcome self args st so :
  sqe_heap st !! self = Some so →
  prep_outcome false self so st (Sqe_prep_openat self args st).
Proof.
  intros Hso. unfold Sqe_prep_openat.
  pose proof (record_opcode_spec self st) as H.
  destruct (record_opcode self st) as [v st'| | |]; simpl;
    [|contradiction|contradiction|exact I].
  destruct H as (-> & so' & op & Hso' & ->). rewrite Hso in Hso'. injection Hso' as <-.
  split; [reflexivity|]. split; [reflexivity|].
  exists (with_operation op so). simpl. rewrite lookup_insert_eq. auto.
Qed.

(** Every prepare call of the method table, with the family it is in. *)
Lemma Sqe_methods_outcome inet_pton m self args st so :
  sqe_heap st !! self = Some so →
  prep_outcome (calls_reinit_buffer m) self so st (Sqe_methods inet_pton m self args st).
Proof.
  intros Hso. destruct m; simpl calls_reinit_buffer; unfold Sqe_methods.
  - apply Sqe_prep_recv_outcome, Hso.
  - apply Sqe_prep_send_outcome, Hso.
  - apply Sqe_prep_connect_outcome, Hso.
  - apply Sqe_prep_accept_outcome, Hso.
  - apply Sqe_prep_read_outcome, Hso.
  - apply Sqe_prep_write_outcome, Hso.
  - destruct args; [apply commit_outcome | apply unchanged_failure_outcome]; exact Hso.
  - apply Sqe_prep_timeout_outcome, Hso.
  - apply Sqe_prep_timeout_remove_outcome, Hso.
  - apply Sqe_prep_close_outcome, Hso.
  - apply Sqe_prep_openat_outcome, Hso.
  - apply Sqe_prep_cancel_outcome, Hso.
Qed.







(** ** Exact effect of the reference-count operations *)

Lemma Sqe_reinit_buffer_heap self st st1 :
  Sqe_reinit_buffer self st = Some st1 →
  ∃ o, sqe_heap st1 = <[self := o]> (sqe_heap st).
Proof.
  unfold Sqe_reinit_buffer. intros H.
  destruct (sqe_heap st !! self) as [so|] eqn:Hso; [|discriminate]. simpl in H.
  match type of H with
  | ?m ≫= _ = _ => destruct m as [stA|] eqn:HA; [|discriminate]
  end.
  simpl in H.
  assert (HstA : ∃ oA, sqe_heap stA !! self = Some oA
                       ∧ sqe_heap stA = <[self := oA]> (sqe_heap st)).
  { destruct (buf_obj (user_buffer so)).
    - destruct (PyBuffer_Release (user_buffer so) st) as [[v sta]|] eqn:Hr; [|discriminate].
      simpl in HA. apply PyBuffer_Release_spec in Hr as [(S1 & _) _].
      apply upd_sqe_spec in HA as (o & Ho & ->). simpl. rewrite S1.
      eexists. split; [apply lookup_insert_eq | reflexivity].
    - injection HA as <-. exists so. split; [exact Hso|].
      symmetry. apply insert_id, Hso. }
  destruct HstA as (oA & HoA & HheapA). rewrite HoA in H. simpl in H.
  destruct (allocated_buffer oA).
  - destruct (Py_DECREF_bytes a stA) as [st2|] eqn:Hd; [|discriminate]. simpl in H.
    apply Py_DECREF_bytes_same in Hd as (S1 & _).
    apply upd_sqe_spec in H as (o & Ho & ->). simpl. rewrite S1, HheapA.
    rewrite insert_insert_eq. eauto.
  - injection H as <-. eauto.
Qed.

Lemma Py_DECREF_sqe_spec s st st' :
  Py_DECREF_sqe s st = Some st' →
  ∃ so, sqe_heap st !! s = Some so
    ∧ cqe_heap st' = cqe_heap st ∧ ring st' = ring st ∧ wait_submit st' = wait_submit st
    ∧ ((sqe_refcnt so = 1%nat ∧ sqe_heap st' = delete s (sqe_heap st))
       ∨ (∃ n, sqe_refcnt so = S (S n)
            ∧ sqe_heap st' = <[s := with_sqe_refcnt (S n) so]> (sqe_heap st))).
Proof.
  intros H. destruct (Py_DECREF_sqe_frame _ _ _ H) as (F1 & F2 & F3).
  unfold Py_DECREF_sqe in H.
  destruct (sqe_heap st !! s) as [so|] eqn:Hso; [|discriminate]. simpl in H.
  exists so. split; [reflexivity|]. split; [exact F1|]. split; [exact F2|].
  split; [exact F3|].
  destruct (sqe_refcnt so) as [|[|n]] eqn:Hn; [discriminate| |].
  - left. split; [reflexivity|]. unfold Sqe_dealloc in H.
    destruct (Sqe_reinit_buffer s st) as [st1|] eqn:Hre; [|discriminate].
    simpl in H. injection H as <-. simpl.
    apply Sqe_reinit_buffer_heap in Hre as (o & ->). apply delete_insert_eq.
  - right. exists n. split; [reflexivity|].
    apply upd_sqe_spec in H as (o & Ho & ->). rewrite Hso in Ho. injection Ho as <-.
    reflexivity.
Qed.

Lemma Py_INCREF_sqe_spec s st st' :
  Py_INCREF_sqe s st = Some st' →
  ∃ so, sqe_heap st !! s = Some so
    ∧ st' = set_sqe_heap <[s := with_sqe_refcnt (S (sqe_refcnt so)) so]> st.
Proof. intros H. apply upd_sqe_spec in H. exact H. Qed.

Lemma upd_cqe_spec a f st st' :
  upd_cqe a f st = Some st' →
  ∃ o, cqe_heap st !! a = Some o ∧ st' = set_cqe_heap <[a := f o]> st.
Proof.
  unfold upd_cqe. destruct (cqe_heap st !! a) as [o|]; [|discriminate].
  simpl. intros [= <-]. eauto.
Qed.

(** The block shared by the retrieval functions, in full: either the
    request caches no wrapper and a new one is allocated, entered in the
    request and given a reference on it; or the cached wrapper gets one more
    reference and nothing else changes. *)
Lemma wrap_cqe_spec slot st c st' :
  wrap_cqe slot st = Some (c, st') →
  ∃ e s so,
    cqes (ring st) !! slot = Some e ∧ u64_to_ptr (cqe_user_data e) = Some s
    ∧ sqe_heap st !! s = Some so
    ∧ ((cqeobj so = None ∧ c = fresh (dom (cqe_heap st))
        ∧ st' = mkState
                  (<[s := with_cqeobj (Some c) (with_sqe_refcnt (S (sqe_refcnt so)) so)]>
                     (sqe_heap st))
                  (<[c := mkCqe 1 (Some slot) (Some s) false]> (cqe_heap st))
                  (bytes_heap st) (ring st) (wait_submit st))
       ∨ (cqeobj so = Some c
          ∧ ∃ co, cqe_heap st !! c = Some co
              ∧ st' = set_cqe_heap <[c := with_cqe_refcnt (S (cqe_refcnt co)) co]> st)).
Proof.
  unfold wrap_cqe. intros H.
  destruct (cqes (ring st) !! slot) as [e|] eqn:He; [|discriminate]. simpl in H.
  destruct (u64_to_ptr (cqe_user_data e)) as [s|] eqn:Hs; [|discriminate]. simpl in H.
  destruct (sqe_heap st !! s) as [so|] eqn:Hso; [|discriminate]. simpl in H.
  exists e, s, so. split; [reflexivity|]. split; [exact Hs|]. split; [exact Hso|].
  destruct (cqeobj so) as [c0|] eqn:Hc.
  - right. destruct (Py_INCREF_cqe c0 st) as [st1|] eqn:Hi; [|discriminate].
    simpl in H. injection H as <- <-. split; [reflexivity|].
    apply upd_cqe_spec in Hi. exact Hi.
  - left. unfold Cqe_new, upd_cqe, Py_INCREF_sqe, upd_sqe in H. simpl in H.
    rewrite lookup_insert_eq in H. simpl in H. rewrite Hso in H. simpl in H.
    rewrite lookup_insert_eq in H. simpl in H.
    rewrite lookup_insert_eq in H. simpl in H.
    injection H as <- <-. split; [reflexivity|]. split; [reflexivity|].
    unfold set_sqe_heap, set_cqe_heap. simpl.
    rewrite !insert_insert_eq. reflexivity.
Qed.

(** ** Calls that leave the lifecycle data alone

    The invariant reads, of a request, its reference count and its cache
    pointer, and nothing of the ring or the bytes heap. *)

Lemma lifecycle_frame_refl st : lifecycle_frame st st.
Proof.
  repeat split. intros a. destruct (sqe_heap st !! a); [split; reflexivity | exact I].
Qed.

Lemma lifecycle_frame_trans st1 st2 st3 :
  lifecycle_frame st1 st2 → lifecycle_frame st2 st3 → lifecycle_frame st1 st3.
Proof.
  intros (A1 & A2 & A3) (B1 & B2 & B3). split; [congruence|]. split; [congruence|].
  intros a. specialize (A3 a). specialize (B3 a).
  destruct (sqe_heap st1 !! a), (sqe_heap st2 !! a), (sqe_heap st3 !! a);
    try contradiction; try exact I.
  destruct A3, B3. split; congruence.
Qed.

Lemma outcome_frame_from st st1 o :
  lifecycle_frame st st1 → outcome_frame st1 o → outcome_frame st o.
Proof.
  intros H. destruct o; simpl; try exact id; apply lifecycle_frame_trans, H.
Qed.

Lemma same_but_bytes_frame st st' : same_but_bytes st st' → lifecycle_frame st st'.
Proof.
  intros (S1 & S2 & _ & S4). split; [exact S2|]. split; [exact S4|].
  intros a. rewrite S1. destruct (sqe_heap st !! a); [split; reflexivity | exact I].
Qed.

Lemma frame_same_heaps st st' :
  sqe_heap st' = sqe_heap st → cqe_heap st' = cqe_heap st →
  wait_submit st' = wait_submit st → lifecycle_frame st st'.
Proof.
  intros S1 S2 S3. split; [exact S2|]. split; [exact S3|].
  intros a. rewrite S1. destruct (sqe_heap st !! a); [split; reflexivity | exact I].
Qed.

Lemma insert_sqe_frame a so so' st :
  sqe_heap st !! a = Some so → same_lifecycle so so' →
  lifecycle_frame st (set_sqe_heap <[a := so']> st).
Proof.
  intros Hso Hsame. split; [reflexivity|]. split; [reflexivity|].
  intros b. simpl. destruct (decide (a = b)) as [<-|Hne].
  - rewrite Hso, lookup_insert_eq. exact Hsame.
  - rewrite lookup_insert_ne by exact Hne.
    destruct (sqe_heap st !! b); [split; reflexivity | exact I].
Qed.

Lemma upd_sqe_frame a f st st' :
  (∀ o, same_lifecycle o (f o)) →
  upd_sqe a f st = Some st' → lifecycle_frame st st'.
Proof.
  intros Hf H. apply upd_sqe_spec in H as (o & Ho & ->).
  eapply insert_sqe_frame; eauto.
Qed.

Lemma Sqe_reinit_buffer_lifecycle self st st1 :
  Sqe_reinit_buffer self st = Some st1 → lifecycle_frame st st1.
Proof.
  intros H.
  assert (∃ so, sqe_heap st !! self = Some so) as [so Hso].
  { unfold Sqe_reinit_buffer in H. destruct (sqe_heap st !! self); [eauto|discriminate]. }
  destruct (Sqe_reinit_buffer_spec _ _ _ _ H Hso)
    as (R1 & _ & R3 & so1 & Hso1 & (B1 & _ & _ & _ & _ & _ & B7) & _).
  destruct (Sqe_reinit_buffer_heap _ _ _ H) as (o & Hheap).
  rewrite Hheap, lookup_insert_eq in Hso1. injection Hso1 as ->.
  split; [exact R1|]. split; [exact R3|]. intros b. rewrite Hheap.
  destruct (decide (self = b)) as [<-|Hne].
  - rewrite Hso, lookup_insert_eq. split; assumption.
  - rewrite lookup_insert_ne by exact Hne.
    destruct (sqe_heap st !! b); [split; reflexivity | exact I].
Qed.

Lemma record_opcode_frame self st : outcome_frame st (record_opcode self st).
Proof.
  pose proof (record_opcode_spec self st) as H.
  destruct (record_opcode self st); simpl; try exact I; try contradiction.
  destruct H as (_ & so & op & Hso & ->).
  eapply insert_sqe_frame; [exact Hso | split; reflexivity].
Qed.

Lemma prep_commit_frame self e st : outcome_frame st (prep_commit self e st).
Proof.
  unfold prep_commit.
  destruct (sqe_heap st !! self) as [so|]; [|exact I].
  destruct (sqe so) as [slot|]; [|exact I].
  destruct (write_sqe slot e (ring st)) as [r|]; [|exact I].
  eapply outcome_frame_from; [|apply record_opcode_frame].
  apply frame_same_heaps; reflexivity.
Qed.

Lemma store_user_buffer_frame self env st st' :
  store_user_buffer self env st = Some st' → lifecycle_frame st st'.
Proof.
  unfold store_user_buffer. destruct (get_buf env "self->user_buffer"); [|discriminate].
  simpl. apply upd_sqe_frame. intros o. split; reflexivity.
Qed.

(** One step of a method body: split on the next call, record what it did
    to the state, and go on from the new state. *)
Ltac frame_step :=
  match goal with
  | |- outcome_frame _ (Ret _ _) => simpl; apply lifecycle_frame_refl
  | |- outcome_frame _ (Raise _ _) => simpl; apply lifecycle_frame_refl
  | |- outcome_frame _ Undefined => exact I
  | |- outcome_frame _ (prep_commit _ _ _) => apply prep_commit_frame
  | |- outcome_frame _ (record_opcode _ _) => apply record_opcode_frame
  | |- outcome_frame ?st (match Sqe_reinit_buffer ?self ?st with _ => _ end) =>
      let H := fresh "H" in
      destruct (Sqe_reinit_buffer self st) eqn:H; [|exact I];
      apply Sqe_reinit_buffer_lifecycle in H;
      eapply outcome_frame_from; [exact H|]; clear H
  | |- outcome_frame ?st (match PyArg_ParseTuple ?a ?f ?va ?env ?st with _ => _ end) =>
      let H := fresh "H" in
      pose proof (PyArg_ParseTuple_same a f va env st) as H;
      destruct (PyArg_ParseTuple a f va env st); [| |exact I];
      apply same_but_bytes_frame in H;
      (eapply outcome_frame_from; [exact H|]); clear H
  | |- outcome_frame ?st (match PyBytes_FromStringAndSize ?c ?n ?st with _ => _ end) =>
      let H := fresh "H" in
      destruct (PyBytes_FromStringAndSize c n st) as [[? ?]|] eqn:H; [|exact I];
      apply PyBytes_FromStringAndSize_spec in H as [H _];
      apply same_but_bytes_frame in H;
      (eapply outcome_frame_from; [exact H|]); clear H
  | |- outcome_frame ?st (match store_user_buffer ?self ?env ?st with _ => _ end) =>
      let H := fresh "H" in
      destruct (store_user_buffer self env st) eqn:H; [|exact I];
      apply store_user_buffer_frame in H;
      (eapply outcome_frame_from; [exact H|]); clear H
  | |- outcome_frame ?st (match upd_sqe ?a ?f ?st with _ => _ end) =>
      let H := fresh "H" in
      destruct (upd_sqe a f st) eqn:H; [|exact I];
      apply upd_sqe_frame in H; [|intros ?; split; reflexivity];
      (eapply outcome_frame_from; [exact H|]); clear H
  | |- outcome_frame _ (match ?x with Some _ => _ | None => _ end) =>
      destruct x; [|exact I]
  | |- outcome_frame _ (match ?x with PyNone => _ | _ => _ end) =>
      destruct x; try exact I
  | |- outcome_frame _ (match ?x with [] => _ | _ => _ end) =>
      destruct x
  end.

Lemma Sqe_methods_frame inet_pton m self args st :
  outcome_frame st (Sqe_methods inet_pton m self args st).
Proof.
  destruct m; unfold Sqe_methods, Sqe_prep_recv, Sqe_prep_send, Sqe_prep_connect,
    Sqe_prep_accept, Sqe_prep_read, Sqe_prep_write, Sqe_prep_nop, Sqe_prep_timeout,
    Sqe_prep_timeout_remove, Sqe_prep_close, Sqe_prep_openat, Sqe_prep_cancel;
    repeat frame_step.
Qed.

Lemma Sqe_set_data_frame self args st : outcome_frame st (Sqe_set_data self args st).
Proof. unfold Sqe_set_data. repeat frame_step. Qed.

Lemma _PyBytes_Resize_same v n st pv rc st' :
  _PyBytes_Resize v n st = Some (pv, rc, st') → same_but_bytes st st'.
Proof.
  unfold _PyBytes_Resize. intros H.
  destruct (bytes_heap st !! v) as [bo|]; [|discriminate]. simpl in H.
  repeat match type of H with
         | (if ?b then _ else _) = _ => destruct b
         | (Py_DECREF_bytes ?x ?s ≫= _) = _ =>
             let E := fresh in
             destruct (Py_DECREF_bytes x s) eqn:E; [|discriminate];
             apply Py_DECREF_bytes_same in E; simpl in H
         end;
    injection H as _ _ <-; try assumption;
    try apply same_but_bytes_refl; apply set_bytes_heap_same.
Qed.

Lemma Py_INCREF_bytes_same b st st' :
  Py_INCREF_bytes b st = Some st' → same_but_bytes st st'.
Proof.
  unfold Py_INCREF_bytes. destruct (bytes_heap st !! b); [|discriminate].
  simpl. intros [= <-]. apply set_bytes_heap_same.
Qed.

Lemma Cqe_getresult_frame self st : outcome_frame st (Cqe_getresult self st).
Proof.
  unfold Cqe_getresult.
  destruct (cqe_heap st !! self) as [co|]; [|exact I].
  destruct (sqeobj co) as [s|]; [|exact I].
  destruct (sqe_heap st !! s) as [so|]; [|exact I].
  destruct (cqe co) as [slot|]; [|exact I].
  destruct (cqes (ring st) !! slot) as [e|]; [|exact I].
  destruct (res e <? 0); [apply lifecycle_frame_refl|].
  destruct (operation so =? IORING_OP_NOP); [apply lifecycle_frame_refl|].
  destruct (_ || _); [|apply lifecycle_frame_refl].
  destruct (allocated_buffer so) as [b|]; [|exact I].
  destruct (bytes_heap st !! b) as [bo|]; [|exact I].
  destruct (negb _).
  - destruct (_PyBytes_Resize b (res e) st) as [[[pv rc] st1]|] eqn:Hr; [|exact I].
    apply _PyBytes_Resize_same, same_but_bytes_frame in Hr.
    eapply outcome_frame_from; [exact Hr|]. clear Hr.
    destruct (upd_sqe s (with_allocated_buffer pv) st1) as [st2|] eqn:Hu; [|exact I].
    apply upd_sqe_frame in Hu; [|intros ?; split; reflexivity].
    eapply outcome_frame_from; [exact Hu|]. clear Hu.
    destruct (negb _); [apply lifecycle_frame_refl|].
    destruct pv as [b'|]; [|exact I].
    destruct (Py_INCREF_bytes b' st2) as [st3|] eqn:Hi; [|exact I].
    apply Py_INCREF_bytes_same, same_but_bytes_frame in Hi. exact Hi.
  - destruct (Py_INCREF_bytes b st) as [st3|] eqn:Hi; [|exact I].
    apply Py_INCREF_bytes_same, same_but_bytes_frame in Hi. exact Hi.
Qed.

(** ** Preservation of the session invariant *)

Lemma occurrences_cons s a l :
  occurrences s (a :: l) = ((if decide (a = s) then 1 else 0) + occurrences s l)%nat.
Proof.
  unfold occurrences. rewrite filter_cons.
  destruct (decide (a = s)); reflexivity.
Qed.

Lemma occurrences_app s l1 l2 :
  occurrences s (l1 ++ l2) = (occurrences s l1 + occurrences s l2)%nat.
Proof. unfold occurrences. rewrite filter_app, length_app. reflexivity. Qed.

Lemma count_of_bump a m x :
  count_of (bump a m) x = if decide (a = x) then S (count_of m a) else count_of m x.
Proof.
  unfold count_of, bump. destruct (decide (a = x)) as [<-|Hne].
  - apply lookup_total_insert_eq.
  - apply lookup_total_insert_ne, Hne.
Qed.

Lemma count_of_unbump a m x :
  count_of (unbump a m) x = if decide (a = x) then pred (count_of m a) else count_of m x.
Proof.
  unfold count_of, unbump. destruct (decide (a = x)) as [<-|Hne].
  - apply lookup_total_insert_eq.
  - apply lookup_total_insert_ne, Hne.
Qed.

Lemma count_of_empty x : count_of ∅ x = 0%nat.
Proof. unfold count_of. rewrite lookup_total_empty. reflexivity. Qed.

Lemma count_of_pins l m x :
  count_of (foldr bump m l) x = (count_of m x + occurrences x l)%nat.
Proof.
  induction l as [|a l IH]; simpl.
  - unfold occurrences. simpl. lia.
  - rewrite count_of_bump, occurrences_cons.
    destruct (decide (a = x)) as [->|Hne]; rewrite ?IH; lia.
Qed.

Lemma inv_frame st st' hs hc pn :
  inv st hs hc pn → lifecycle_frame st st' → inv st' hs hc pn.
Proof.
  intros Hinv (F1 & F2 & F3) a. destruct (Hinv a) as [Ha Hc]. split.
  - unfold sqe_ok in *. specialize (F3 a).
    destruct (sqe_heap st !! a) as [so|], (sqe_heap st' !! a) as [so'|];
      try contradiction.
    + destruct F3 as [E1 E2]. unfold cached. rewrite E1, E2, F1, F2. exact Ha.
    + rewrite F2. exact Ha.
  - unfold cqe_ok in *. rewrite F1.
    destruct (cqe_heap st !! a) as [co|]; [|exact Hc].
    destruct Hc as (C1 & C2 & s & so & D1 & D2 & D3).
    split; [exact C1|]. split; [exact C2|].
    specialize (F3 s). rewrite D2 in F3.
    destruct (sqe_heap st' !! s) as [so'|] eqn:E'; [|contradiction].
    exists s, so'. destruct F3 as [_ E2]. rewrite E2. auto.
Qed.

(** A change of reference counts of requests, with the matching change of
    the counts of holders. *)
Lemma inv_sqe_refcounts st st' hs hc pn hs' pn' (f : addr → SqeObject → nat) :
  inv st hs hc pn →
  cqe_heap st' = cqe_heap st →
  (∀ a, sqe_heap st' !! a = (λ o, with_sqe_refcnt (f a o) o) <$> sqe_heap st !! a) →
  (∀ a so, sqe_heap st !! a = Some so →
     (f a so = hs' a + occurrences a (wait_submit st') + pn' a + cached so
      ∧ 0 < f a so)%nat) →
  (∀ a, sqe_heap st !! a = None →
     hs' a = 0%nat ∧ occurrences a (wait_submit st') = 0%nat ∧ pn' a = 0%nat) →
  inv st' hs' hc pn'.
Proof.
  intros Hinv Hc Hs Hf Hn a. destruct (Hinv a) as [Ha Hca]. split.
  - unfold sqe_ok in *. rewrite Hs.
    destruct (sqe_heap st !! a) as [so|] eqn:E; simpl.
    + destruct (Hf a so E) as [F1 F2]. split; [exact F1|]. split; [exact F2|].
      rewrite Hc. apply Ha.
    + apply Hn. exact E.
  - unfold cqe_ok in *. rewrite Hc.
    destruct (cqe_heap st !! a) as [co|]; [|exact Hca].
    destruct Hca as (C1 & C2 & s & so & D1 & D2 & D3).
    split; [exact C1|]. split; [exact C2|].
    exists s, (with_sqe_refcnt (f s so) so). rewrite Hs, D2. simpl. auto.
Qed.

(** A change of one wrapper that keeps its request pointer. *)
Lemma inv_cqe_update st hs hc pn c co co' hc' :
  inv st hs hc pn → cqe_heap st !! c = Some co →
  sqeobj co' = sqeobj co → cqe_refcnt co' = hc' c → (0 < cqe_refcnt co')%nat →
  (∀ a, a ≠ c → hc' a = hc a) →
  inv (set_cqe_heap <[c := co']> st) hs hc' pn.
Proof.
  intros Hinv Hco Hsq Hrc Hpos Hother a. destruct (Hinv a) as [Ha Hca]. split.
  - unfold sqe_ok in *. simpl. destruct (sqe_heap st !! a) as [so|]; [|exact Ha].
    destruct Ha as (A1 & A2 & A3). split; [exact A1|]. split; [exact A2|].
    intros c0 Hc0. destruct (A3 c0 Hc0) as (co0 & E1 & E2).
    destruct (decide (c = c0)) as [<-|Hne].
    + rewrite lookup_insert_eq. exists co'. split; [reflexivity|]. congruence.
    + rewrite lookup_insert_ne by exact Hne. eauto.
  - unfold cqe_ok in *. simpl. destruct (decide (c = a)) as [<-|Hne].
    + rewrite lookup_insert_eq. rewrite Hco in Hca.
      destruct Hca as (_ & _ & s & so & D1 & D2 & D3).
      split; [exact Hrc|]. split; [exact Hpos|]. exists s, so. rewrite Hsq. auto.
    + rewrite lookup_insert_ne by exact Hne. rewrite (Hother a) by congruence.
      exact Hca.
Qed.

(** A new request enters the heap and the pending list, held once by the
    program. *)
Lemma inv_new_sqe st st' hs hc pn a so hs' :
  inv st hs hc pn → sqe_heap st !! a = None →
  sqe_refcnt so = 2%nat → cqeobj so = None →
  sqe_heap st' = <[a := so]> (sqe_heap st) → cqe_heap st' = cqe_heap st →
  wait_submit st' = wait_submit st ++ [a] →
  hs' a = S (hs a) → (∀ x, x ≠ a → hs' x = hs x) →
  inv st' hs' hc pn.
Proof.
  intros Hinv Hfresh Hrc Hcq Hs Hc Hw Hh Ho x. destruct (Hinv x) as [Hx Hcx]. split.
  - unfold sqe_ok in *. rewrite Hs, Hc, Hw, occurrences_app, occurrences_cons.
    destruct (decide (a = x)) as [<-|Hne].
    + rewrite lookup_insert_eq. rewrite Hfresh in Hx. destruct Hx as (X1 & X2 & X3).
      unfold cached. rewrite Hrc, Hcq, Hh, X1, X2, X3. unfold occurrences. simpl.
      split; [lia|]. split; [lia|]. discriminate.
    + rewrite lookup_insert_ne by exact Hne. rewrite (Ho x) by congruence.
      unfold occurrences at 2 4. simpl. rewrite !Nat.add_0_r. exact Hx.
  - unfold cqe_ok in *. rewrite Hc. destruct (cqe_heap st !! x) as [co|]; [|exact Hcx].
    destruct Hcx as (C1 & C2 & s & so0 & D1 & D2 & D3).
    split; [exact C1|]. split; [exact C2|]. exists s, so0. rewrite Hs.
    rewrite lookup_insert_ne by congruence. auto.
Qed.

(** A new wrapper is made for a request that caches none. *)
Lemma inv_link_cqe st st' hs hc pn c co' s so hc' :
  inv st hs hc pn → cqe_heap st !! c = None →
  sqe_heap st !! s = Some so → cqeobj so = None →
  sqe_heap st' = <[s := with_cqeobj (Some c) (with_sqe_refcnt (S (sqe_refcnt so)) so)]>
                   (sqe_heap st) →
  cqe_heap st' = <[c := co']> (cqe_heap st) →
  wait_submit st' = wait_submit st →
  sqeobj co' = Some s → cqe_refcnt co' = 1%nat →
  hc' c = S (hc c) → (∀ x, x ≠ c → hc' x = hc x) →
  inv st' hs hc' pn.
Proof.
  intros Hinv Hfresh Hso Hcq Hs Hc Hw Hsq Hrc Hh Ho x.
  destruct (Hinv x) as [Hx Hcx]. split.
  - unfold sqe_ok in *. rewrite Hs, Hc, Hw. destruct (decide (s = x)) as [<-|Hne].
    + rewrite lookup_insert_eq. rewrite Hso in Hx. destruct Hx as (X1 & X2 & _).
      unfold cached in *. simpl. rewrite Hcq in X1. split; [lia|]. split; [lia|].
      intros c0 [= <-]. rewrite lookup_insert_eq. eauto.
    + rewrite lookup_insert_ne by exact Hne.
      destruct (sqe_heap st !! x) as [sox|]; [|exact Hx].
      destruct Hx as (X1 & X2 & X3). split; [exact X1|]. split; [exact X2|].
      intros c0 Hc0. destruct (X3 c0 Hc0) as (co0 & E1 & E2). exists co0.
      rewrite lookup_insert_ne by congruence. auto.
  - unfold cqe_ok in *. rewrite Hs, Hc. destruct (decide (c = x)) as [<-|Hne].
    + rewrite lookup_insert_eq. rewrite Hfresh in Hcx.
      split; [lia|]. split; [lia|]. eexists s, _. rewrite lookup_insert_eq. auto.
    + rewrite lookup_insert_ne by exact Hne. rewrite (Ho x) by congruence.
      destruct (cqe_heap st !! x) as [co|]; [|exact Hcx].
      destruct Hcx as (C1 & C2 & s0 & so0 & D1 & D2 & D3).
      split; [exact C1|]. split; [exact C2|]. exists s0, so0.
      rewrite lookup_insert_ne by congruence. auto.
Qed.

(** A wrapper is unlinked from its request and freed; its reference on the
    request is handed to the count [hs'], to be dropped next. *)
Lemma inv_unlink_cqe st st' hs hc pn c co s so hs' hc' :
  inv st hs hc pn → cqe_heap st !! c = Some co → sqeobj co = Some s →
  sqe_heap st !! s = Some so →
  sqe_heap st' = <[s := with_cqeobj None so]> (sqe_heap st) →
  cqe_heap st' = delete c (cqe_heap st) →
  wait_submit st' = wait_submit st →
  hs' s = S (hs s) → (∀ x, x ≠ s → hs' x = hs x) →
  hc' c = 0%nat → (∀ x, x ≠ c → hc' x = hc x) →
  inv st' hs' hc' pn.
Proof.
  intros Hinv Hco Hsq Hso Hs Hc Hw Hh Ho Hh' Ho' x.
  assert (Hlink : cqeobj so = Some c).
  { destruct (Hinv c) as [_ Hcc]. unfold cqe_ok in Hcc. rewrite Hco in Hcc.
    destruct Hcc as (_ & _ & s0 & so0 & D1 & D2 & D3). congruence. }
  destruct (Hinv x) as [Hx Hcx]. split.
  - unfold sqe_ok in *. rewrite Hs, Hc, Hw. destruct (decide (s = x)) as [<-|Hne].
    + rewrite lookup_insert_eq. rewrite Hso in Hx. destruct Hx as (X1 & X2 & _).
      unfold cached in *. simpl. rewrite Hlink in X1. split; [lia|]. split; [lia|].
      discriminate.
    + rewrite lookup_insert_ne by exact Hne. rewrite (Ho x) by congruence.
      destruct (sqe_heap st !! x) as [sox|]; [|exact Hx].
      destruct Hx as (X1 & X2 & X3). split; [exact X1|]. split; [exact X2|].
      intros c0 Hc0. destruct (X3 c0 Hc0) as (co0 & E1 & E2). exists co0.
      rewrite lookup_delete_ne; [auto|]. intros <-. congruence.
  - unfold cqe_ok in *. rewrite Hs, Hc. destruct (decide (c = x)) as [<-|Hne].
    + rewrite lookup_delete_eq. exact Hh'.
    + rewrite lookup_delete_ne by exact Hne. rewrite (Ho' x) by congruence.
      destruct (cqe_heap st !! x) as [cox|]; [|exact Hcx].
      destruct Hcx as (C1 & C2 & s0 & so0 & D1 & D2 & D3).
      split; [exact C1|]. split; [exact C2|]. exists s0, so0.
      rewrite lookup_insert_ne; [auto|]. intros <-. congruence.
Qed.

(** One reference on a request is dropped by a holder that is the program
    or a pin: the request is freed with its last reference, and otherwise
    its count goes down by one. *)
Lemma inv_decref_sqe st st' hs hc pn s so hs' pn' :
  inv st hs hc pn → sqe_heap st !! s = Some so →
  cqe_heap st' = cqe_heap st → wait_submit st' = wait_submit st →
  ((sqe_refcnt so = 1%nat ∧ sqe_heap st' = delete s (sqe_heap st))
   ∨ (∃ n, sqe_refcnt so = S (S n)
        ∧ sqe_heap st' = <[s := with_sqe_refcnt (S n) so]> (sqe_heap st))) →
  (hs' s + pn' s + 1 = hs s + pn s)%nat →
  (∀ x, x ≠ s → hs' x = hs x ∧ pn' x = pn x) →
  inv st' hs' hc pn'.
Proof.
  intros Hinv Hso Hc Hw Hcase Hcount Ho.
  destruct (Hinv s) as [Hs _]. unfold sqe_ok in Hs. rewrite Hso in Hs.
  destruct Hs as (S1 & S2 & S3).
  destruct Hcase as [[Hone Hheap] | (n & Hn & Hheap)].
  - (* freed *)
    assert (Hnone : cqeobj so = None).
    { unfold cached in S1. destruct (cqeobj so); [lia|reflexivity]. }
    intros x. destruct (Hinv x) as [Hx Hcx]. split.
    + unfold sqe_ok in *. rewrite Hheap, Hc, Hw. destruct (decide (s = x)) as [<-|Hne].
      * rewrite lookup_delete_eq. lia.
      * rewrite lookup_delete_ne by exact Hne.
        destruct (Ho x) as [-> ->]; [congruence|]. exact Hx.
    + unfold cqe_ok in *. rewrite Hheap, Hc.
      destruct (cqe_heap st !! x) as [cox|]; [|exact Hcx].
      destruct Hcx as (C1 & C2 & s0 & so0 & D1 & D2 & D3).
      split; [exact C1|]. split; [exact C2|]. exists s0, so0.
      rewrite lookup_delete_ne; [auto|]. intros <-. congruence.
  - (* one reference less *)
    eapply (inv_sqe_refcounts st st' hs hc pn hs' pn'
              (λ a o, if decide (a = s) then S n else sqe_refcnt o)); eauto.
    + intros a. rewrite Hheap. destruct (decide (s = a)) as [<-|Hne].
      * rewrite lookup_insert_eq, Hso. simpl. rewrite decide_True by reflexivity.
        reflexivity.
      * rewrite lookup_insert_ne by exact Hne.
        destruct (sqe_heap st !! a) as [o|]; [|reflexivity]. simpl.
        rewrite decide_False by congruence. destruct o; reflexivity.
    + intros a o Ha. rewrite Hw. destruct (decide (a = s)) as [->|Hne].
      * rewrite Hso in Ha. injection Ha as <-. lia.
      * destruct (Hinv a) as [Hax _]. unfold sqe_ok in Hax. rewrite Ha in Hax.
        destruct (Ho a Hne) as [-> ->]. destruct Hax as (A1 & A2 & _). lia.
    + intros a Ha. rewrite Hw. destruct (Hinv a) as [Hax _]. unfold sqe_ok in Hax.
      rewrite Ha in Hax. destruct (Ho a) as [-> ->]; [congruence|]. exact Hax.
Qed.

Lemma inv_ext st hs hc pn hs' hc' pn' :
  inv st hs hc pn →
  (∀ a, hs' a = hs a) → (∀ a, hc' a = hc a) → (∀ a, pn' a = pn a) →
  inv st hs' hc' pn'.
Proof.
  intros Hinv E1 E2 E3 a. destruct (Hinv a) as [Ha Hc].
  unfold sqe_ok, cqe_ok in *. rewrite E1, E2, E3. auto.
Qed.

Lemma IoUring_get_sqe_spec st :
  ∃ st' so,
    IoUring_get_sqe st = Ret (PySqe (fresh (dom (sqe_heap st)))) st'
    ∧ sqe_heap st' = <[fresh (dom (sqe_heap st)) := so]> (sqe_heap st)
    ∧ cqe_heap st' = cqe_heap st
    ∧ wait_submit st' = wait_submit st ++ [fresh (dom (sqe_heap st))]
    ∧ sqe_refcnt so = 2%nat ∧ cqeobj so = None.
Proof.
  unfold IoUring_get_sqe, Sqe_new. simpl.
  destruct (io_uring_get_sqe (ring st)) as [p r].
  unfold Py_INCREF_sqe, upd_sqe. simpl.
  rewrite lookup_insert_eq. simpl. rewrite lookup_insert_eq. simpl.
  eexists _, _. split; [reflexivity|]. simpl.
  rewrite !insert_insert_eq. repeat split.
Qed.

Lemma inv_get_sqe st v st' g :
  session_inv (st, g) →
  came_back (IoUring_get_sqe st) = Some (v, st') →
  session_inv (st', hold v g).
Proof.
  unfold session_inv. simpl. intros Hinv H.
  destruct (IoUring_get_sqe_spec st) as (st1 & so & Hret & Hs & Hc & Hw & Hrc & Hcq).
  rewrite Hret in H. simpl in H. injection H as <- <-. simpl.
  eapply inv_new_sqe; eauto.
  - apply not_elem_of_dom, is_fresh.
  - rewrite count_of_bump, decide_True by reflexivity. reflexivity.
  - intros x Hx. rewrite count_of_bump, decide_False by congruence. reflexivity.
Qed.

Lemma with_sqe_refcnt_twice n m o :
  with_sqe_refcnt n (with_sqe_refcnt m o) = with_sqe_refcnt n o.
Proof. reflexivity. Qed.

Lemma with_sqe_refcnt_same o : with_sqe_refcnt (sqe_refcnt o) o = o.
Proof. destruct o; reflexivity. Qed.

Lemma submit_tag_and_pin_spec l : ∀ st st',
  submit_tag_and_pin l st = Some st' →
  cqe_heap st' = cqe_heap st ∧ wait_submit st' = wait_submit st
  ∧ ∀ a, sqe_heap st' !! a
         = (λ o, with_sqe_refcnt (sqe_refcnt o + occurrences a l) o) <$> sqe_heap st !! a.
Proof.
  induction l as [|s l IH]; simpl; intros st st' H.
  - injection H as <-. repeat split. intros a.
    destruct (sqe_heap st !! a) as [o|]; [|reflexivity]. simpl.
    unfold occurrences. simpl. rewrite Nat.add_0_r, with_sqe_refcnt_same. reflexivity.
  - destruct (sqe_heap st !! s) as [so|] eqn:Hso; [|discriminate]. simpl in H.
    destruct (sqe so) as [slot|]; [|discriminate]. simpl in H.
    destruct (sqes (ring st) !! slot) as [e|]; [|discriminate]. simpl in H.
    destruct (write_sqe slot _ (ring st)) as [r|]; [|discriminate]. simpl in H.
    destruct (Py_INCREF_sqe s (set_ring (λ _, r) st)) as [st1|] eqn:Hi; [|discriminate].
    simpl in H. apply Py_INCREF_sqe_spec in Hi as (so1 & Hso1 & ->). simpl in Hso1.
    rewrite Hso in Hso1. injection Hso1 as <-.
    destruct (IH _ _ H) as (I1 & I2 & I3). simpl in *.
    split; [exact I1|]. split; [exact I2|]. intros a. rewrite I3, occurrences_cons.
    destruct (decide (s = a)) as [<-|Hne].
    + rewrite lookup_insert_eq, Hso. simpl. f_equal.
      rewrite with_sqe_refcnt_twice. f_equal. lia.
    + rewrite lookup_insert_ne by exact Hne. reflexivity.
Qed.

Lemma list_dealloc_spec l : ∀ st st',
  list_dealloc l st = Some st' →
  (∀ a so, sqe_heap st !! a = Some so → (occurrences a l < sqe_refcnt so)%nat) →
  cqe_heap st' = cqe_heap st ∧ wait_submit st' = wait_submit st
  ∧ ∀ a, sqe_heap st' !! a
         = (λ o, with_sqe_refcnt (sqe_refcnt o - occurrences a l) o) <$> sqe_heap st !! a.
Proof.
  induction l as [|s l IH]; simpl; intros st st' H Hbig.
  - injection H as <-. repeat split. intros a.
    destruct (sqe_heap st !! a) as [o|]; [|reflexivity]. simpl.
    unfold occurrences. simpl. rewrite Nat.sub_0_r, with_sqe_refcnt_same. reflexivity.
  - destruct (Py_DECREF_sqe s st) as [st1|] eqn:Hd; [|discriminate]. simpl in H.
    apply Py_DECREF_sqe_spec in Hd as (so & Hso & D1 & _ & D3 & Hcase).
    pose proof (Hbig s so Hso) as Hs. rewrite occurrences_cons in Hs.
    rewrite decide_True in Hs by reflexivity.
    destruct Hcase as [[Hone _] | (n & Hn & Hheap)]; [lia|].
    destruct (IH _ _ H) as (I1 & I2 & I3).
    { intros a soa Ha. rewrite Hheap in Ha. destruct (decide (s = a)) as [<-|Hne].
      - rewrite lookup_insert_eq in Ha. injection Ha as <-. simpl. lia.
      - rewrite lookup_insert_ne in Ha by exact Hne.
        pose proof (Hbig a soa Ha) as Hlt. rewrite occurrences_cons in Hlt.
        rewrite decide_False in Hlt by exact Hne. exact Hlt. }
    split; [congruence|]. split; [congruence|]. intros a.
    rewrite I3, Hheap, occurrences_cons. destruct (decide (s = a)) as [<-|Hne].
    + rewrite lookup_insert_eq, Hso. simpl. f_equal. rewrite with_sqe_refcnt_twice.
      f_equal. lia.
    + rewrite lookup_insert_ne by exact Hne. reflexivity.
Qed.

Lemma inv_submit kernel_err st g v st' :
  session_inv (st, g) →
  came_back (IoUring_submit kernel_err st) = Some (v, st') →
  session_inv (st', pin_all (wait_submit st) g).
Proof.
  unfold session_inv. simpl. intros Hinv H. unfold IoUring_submit in H.
  destruct (submit_tag_and_pin (wait_submit st) st) as [st1|] eqn:Hpin; [|discriminate].
  apply submit_tag_and_pin_spec in Hpin as (P1 & P2 & P3).
  destruct (io_uring_submit kernel_err (ring st1)) as [ret r].
  assert (Hpos : ∀ a so, sqe_heap st !! a = Some so →
            (sqe_refcnt so
             = count_of (held_sqe g) a + occurrences a (wait_submit st)
               + count_of (pinned g) a + cached so ∧ 0 < sqe_refcnt so)%nat).
  { intros a so Ha. destruct (Hinv a) as [Hx _]. unfold sqe_ok in Hx.
    rewrite Ha in Hx. destruct Hx as (X1 & X2 & _). auto. }
  assert (Hdead : ∀ a, sqe_heap st !! a = None →
            count_of (held_sqe g) a = 0%nat ∧ occurrences a (wait_submit st) = 0%nat
            ∧ count_of (pinned g) a = 0%nat).
  { intros a Ha. destruct (Hinv a) as [Hx _]. unfold sqe_ok in Hx.
    rewrite Ha in Hx. exact Hx. }
  destruct (ret <? 0).
  - (* the kernel refused: the pins stay, and so does the list *)
    simpl in H. injection H as _ <-.
    eapply (inv_sqe_refcounts st _ _ _ _ _ _
              (λ a o, (sqe_refcnt o + occurrences a (wait_submit st))%nat)).
    + exact Hinv.
    + simpl. exact P1.
    + simpl. exact P3.
    + simpl. intros a so Ha. rewrite P2, count_of_pins.
      destruct (Hpos a so Ha). lia.
    + simpl. intros a Ha. rewrite P2, count_of_pins.
      destruct (Hdead a Ha) as (D1 & D2 & D3). lia.
  - (* the batch is taken: the list dies *)
    simpl in H.
    destruct (list_dealloc (wait_submit st1) (set_ring (λ _, r) st1)) as [st2|] eqn:Hl;
      [|discriminate].
    simpl in H. injection H as _ <-.
    apply list_dealloc_spec in Hl as (L1 & L2 & L3).
    2:{ simpl. intros a so1 Ha. rewrite P3 in Ha.
        destruct (sqe_heap st !! a) as [so|] eqn:Hso; [|discriminate].
        simpl in Ha. injection Ha as <-. simpl. rewrite P2.
        destruct (Hpos a so Hso). lia. }
    simpl in *.
    eapply (inv_sqe_refcounts st _ _ _ _ _ _ (λ a o, sqe_refcnt o)).
    + exact Hinv.
    + simpl. congruence.
    + simpl. intros a. rewrite L3, P3, P2.
      destruct (sqe_heap st !! a) as [so|]; [|reflexivity]. simpl.
      rewrite with_sqe_refcnt_twice. f_equal. f_equal. lia.
    + simpl. intros a so Ha. rewrite count_of_pins. unfold occurrences at 1. simpl.
      destruct (Hpos a so Ha). lia.
    + simpl. intros a Ha. rewrite count_of_pins. unfold occurrences at 1. simpl.
      destruct (Hdead a Ha) as (D1 & D2 & D3). lia.
Qed.

Lemma inv_wrap_cqe slot st c st' g :
  session_inv (st, g) → wrap_cqe slot st = Some (c, st') →
  session_inv (st', hold1 (PyCqe c) g).
Proof.
  unfold session_inv. simpl. intros Hinv H.
  apply wrap_cqe_spec in H as (e & s & so & He & Hs & Hso & Hcase).
  destruct Hcase as [(Hnone & -> & ->) | (Hsome & co & Hco & ->)].
  - eapply inv_link_cqe with (s := s) (hc := count_of (held_cqe g));
      try reflexivity; try eassumption.
    + apply not_elem_of_dom, is_fresh.
    + rewrite count_of_bump, decide_True by reflexivity. reflexivity.
    + intros x Hx. rewrite count_of_bump, decide_False by congruence. reflexivity.
  - destruct (Hinv c) as [_ Hc]. unfold cqe_ok in Hc. rewrite Hco in Hc.
    destruct Hc as (C1 & C2 & _).
    eapply inv_cqe_update; try eassumption.
    + reflexivity.
    + simpl. rewrite count_of_bump, decide_True by reflexivity. congruence.
    + simpl. lia.
    + intros x Hx. rewrite count_of_bump, decide_False by congruence. reflexivity.
Qed.

(** What the shared block returns is a live wrapper that points to the
    request the entry is tagged with; the ring is not touched. *)
Lemma wrap_cqe_result slot st c st' g :
  session_inv (st, g) → wrap_cqe slot st = Some (c, st') →
  ring st' = ring st
  ∧ ∃ e s co', cqes (ring st) !! slot = Some e ∧ u64_to_ptr (cqe_user_data e) = Some s
      ∧ cqe_heap st' !! c = Some co' ∧ sqeobj co' = Some s.
Proof.
  unfold session_inv. simpl. intros Hinv H.
  apply wrap_cqe_spec in H as (e & s & so & He & Hs & Hso & Hcase).
  destruct Hcase as [(Hnone & -> & ->) | (Hsome & co & Hco & ->)]; simpl.
  - split; [reflexivity|]. exists e, s. eexists. rewrite lookup_insert_eq. auto.
  - split; [reflexivity|]. exists e, s. eexists. rewrite lookup_insert_eq.
    repeat split; try assumption.
    destruct (Hinv s) as [Hx _]. unfold sqe_ok in Hx. rewrite Hso in Hx.
    destruct Hx as (_ & _ & X3). destruct (X3 c Hsome) as (co0 & E1 & E2).
    simpl. congruence.
Qed.

Lemma inv_wait_loop n : ∀ cqes_ptr i st g l st',
  session_inv (st, g) → wait_loop n cqes_ptr i st = Some (l, st') →
  session_inv (st', foldl (λ g v, hold1 v g) g l).
Proof.
  induction n as [|n IH]; simpl; intros cqes_ptr i st g l st' Hinv H.
  - injection H as <- <-. exact Hinv.
  - destruct cqes_ptr as [base|]; [|discriminate]. simpl in H.
    destruct (wrap_cqe (base + i) st) as [[c st1]|] eqn:Hw; [|discriminate]. simpl in H.
    destruct (wait_loop n (Some base) (S i) st1) as [[l1 st2]|] eqn:Hl; [|discriminate].
    simpl in H. injection H as <- <-. simpl.
    eapply IH; [|exact Hl]. eapply inv_wrap_cqe; eauto.
Qed.

Lemma inv_wait_cqe_nr args st g v st' :
  session_inv (st, g) →
  came_back (IoUring_wait_cqe_nr args st) = Some (v, st') →
  session_inv (st', hold v g).
Proof.
  intros Hinv H. unfold IoUring_wait_cqe_nr in H.
  match type of H with
  | context [PyArg_ParseTuple ?a ?f ?va ?env ?s] =>
      pose proof (PyArg_ParseTuple_plain a f va env s eq_refl) as Hp;
      destruct (PyArg_ParseTuple a f va env s) as [env' st2|e env' st2|]; [| |discriminate];
      subst st2
  end.
  - destruct (get_int env' "wait_nr") as [n|]; [|discriminate].
    unfold IoUring_wait_cqe_nr_impl in H.
    destruct (io_uring_wait_cqe_nr (ring st) n) as [ret p|]; [|discriminate].
    destruct (ret <? 0); [simpl in H; injection H as <- <-; exact Hinv|].
    destruct (wait_loop (Z.to_nat n) p 0 st) as [[l st1]|] eqn:Hl; [|discriminate].
    simpl in H. injection H as <- <-. simpl. eapply inv_wait_loop; eauto.
  - simpl in H. injection H as <- <-. exact Hinv.
Qed.

Lemma inv_wait_cqes args st g v st' :
  session_inv (st, g) →
  came_back (IoUring_wait_cqes args st) = Some (v, st') →
  session_inv (st', hold v g).
Proof.
  intros Hinv H. unfold IoUring_wait_cqes in H.
  match type of H with
  | context [PyArg_ParseTuple ?a ?f ?va ?env ?s] =>
      pose proof (PyArg_ParseTuple_plain a f va env s eq_refl) as Hp;
      destruct (PyArg_ParseTuple a f va env s) as [env' st2|e env' st2|]; [| |discriminate];
      subst st2
  end.
  - destruct (get_int env' "wait_nr") as [n|]; [|discriminate].
    destruct (get_double env' "timeout") as [t|]; [|discriminate].
    destruct (wait_cqes_timespec t) as [ts|]; [|discriminate].
    destruct (io_uring_wait_cqes (ring st) n ts) as [ret p|]; [|discriminate].
    destruct (negb (ret =? 0)); [simpl in H; injection H as <- <-; exact Hinv|].
    destruct (wait_loop (Z.to_nat n) p 0 st) as [[l st1]|] eqn:Hl; [|discriminate].
    simpl in H. injection H as <- <-. simpl. eapply inv_wait_loop; eauto.
  - simpl in H. injection H as <- <-. exact Hinv.
Qed.

Lemma inv_wait_single_cqe wait_nr st g v st' :
  session_inv (st, g) →
  came_back (IoUring_wait_single_cqe wait_nr st) = Some (v, st') →
  session_inv (st', hold v g).
Proof.
  intros Hinv H. unfold IoUring_wait_single_cqe in H.
  destruct (io_uring_wait_cqe_nr (ring st) wait_nr) as [ret p|]; [|discriminate].
  destruct (ret <? 0); [simpl in H; injection H as <- <-; exact Hinv|].
  destruct p as [slot|]; [|discriminate].
  destruct (wrap_cqe slot st) as [[c st1]|] eqn:Hw; [|discriminate].
  pose proof (inv_wrap_cqe _ _ _ _ _ Hinv Hw) as Hinv1.
  destruct (wrap_cqe_result _ _ _ _ _ Hinv Hw) as (Hring & e & s & co1 & He & Hs & Hco1 & Hsq).
  rewrite Hring, He in H.
  unfold upd_cqe in H. rewrite Hco1 in H. simpl in H.
  rewrite lookup_insert_eq in H. simpl in H. injection H as <- <-.
  unfold session_inv in *. simpl in *.
  destruct (Hinv1 c) as [_ Hc]. unfold cqe_ok in Hc. rewrite Hco1 in Hc.
  destruct Hc as (C1 & C2 & _).
  eapply inv_ext.
  - eapply (inv_cqe_update _ _ (count_of (bump c (held_cqe g))) _ c).
    + eapply (inv_cqe_update _ _ (count_of (bump c (held_cqe g))) _ c); try exact Hinv1;
        try exact Hco1; try reflexivity.
      * exact C1.
      * exact C2.
    + simpl. apply lookup_insert_eq.
    + simpl. congruence.
    + simpl. exact C1.
    + simpl. exact C2.
    + reflexivity.
  - reflexivity.
  - reflexivity.
  - reflexivity.
Qed.

Lemma inv_set_ring f st hs hc pn :
  inv st hs hc pn → inv (set_ring f st) hs hc pn.
Proof. intros H. eapply inv_frame; [exact H|]. apply frame_same_heaps; reflexivity. Qed.

Lemma inv_cqe_seen c co st g v st' :
  session_inv (st, g) → cqe_heap st !! c = Some co →
  came_back (IoUring_cqe_seen [PyCqe c] st) = Some (v, st') →
  if seen co then session_inv (st', g)
  else ∀ s, sqeobj co = Some s → (0 < count_of (pinned g) s)%nat →
            session_inv (st', Holders (held_sqe g) (held_cqe g) (unbump s (pinned g))).
Proof.
  unfold session_inv. simpl. intros Hinv Hco H.
  rewrite cqe_seen_unfold, Hco in H.
  destruct (seen co) eqn:Hseen.
  - simpl in H. injection H as _ <-. exact Hinv.
  - intros s Hs Hpin. unfold upd_cqe in H. simpl in H. rewrite Hco in H. simpl in H.
    rewrite Hs in H.
    match type of H with
    | context [Py_DECREF_sqe s ?st1] =>
        assert (Hinv1 : inv st1 (count_of (held_sqe g)) (count_of (held_cqe g))
                          (count_of (pinned g)));
        [| destruct (Py_DECREF_sqe s st1) as [st2|] eqn:Hd; [|discriminate] ]
    end.
    { destruct (Hinv c) as [_ Hc]. unfold cqe_ok in Hc. rewrite Hco in Hc.
      destruct Hc as (C1 & C2 & _).
      eapply (inv_cqe_update (set_ring _ st) _ _ _ c co (with_seen true co)).
      - apply inv_set_ring. exact Hinv.
      - simpl. exact Hco.
      - reflexivity.
      - exact C1.
      - exact C2.
      - reflexivity. }
    simpl in H. injection H as _ <-.
    apply Py_DECREF_sqe_spec in Hd as (so & Hso & D1 & _ & D3 & Hcase).
    eapply (inv_decref_sqe _ st2 _ _ _ s so); try eassumption.
    + simpl. rewrite count_of_unbump, decide_True by reflexivity. lia.
    + intros x Hx. simpl. rewrite count_of_unbump, decide_False by congruence. auto.
Qed.

Lemma inv_drop_sqe s st g st' :
  session_inv (st, g) → (0 < count_of (held_sqe g) s)%nat →
  Py_DECREF_sqe s st = Some st' →
  session_inv (st', Holders (unbump s (held_sqe g)) (held_cqe g) (pinned g)).
Proof.
  unfold session_inv. simpl. intros Hinv Hheld Hd.
  apply Py_DECREF_sqe_spec in Hd as (so & Hso & D1 & _ & D3 & Hcase).
  eapply (inv_decref_sqe _ st' _ _ _ s so); try eassumption.
  - rewrite count_of_unbump, decide_True by reflexivity. lia.
  - intros x Hx. rewrite count_of_unbump, decide_False by congruence. auto.
Qed.

Lemma inv_drop_cqe c st g st' :
  session_inv (st, g) → (0 < count_of (held_cqe g) c)%nat →
  Py_DECREF_cqe c st = Some st' →
  session_inv (st', Holders (held_sqe g) (unbump c (held_cqe g)) (pinned g)).
Proof.
  unfold session_inv. simpl. intros Hinv Hheld Hd. unfold Py_DECREF_cqe in Hd.
  destruct (cqe_heap st !! c) as [co|] eqn:Hco; [|discriminate]. simpl in Hd.
  destruct (Hinv c) as [_ Hc]. unfold cqe_ok in Hc. rewrite Hco in Hc.
  destruct Hc as (C1 & C2 & s & so & Hsq & Hso & Hlink).
  destruct (cqe_refcnt co) as [|[|n]] eqn:Hn; [discriminate| |].
  - (* the last reference: [Cqe_dealloc] *)
    unfold Cqe_dealloc in Hd. rewrite Hco in Hd. simpl in Hd. rewrite Hsq in Hd.
    simpl in Hd. unfold upd_sqe in Hd. rewrite Hso in Hd. simpl in Hd.
    match type of Hd with
    | context [Py_DECREF_sqe s ?st1] =>
        destruct (Py_DECREF_sqe s st1) as [st2|] eqn:Hdec; [|discriminate];
        set (stA := set_cqe_heap (delete c) st1)
    end.
    simpl in Hd. injection Hd as <-.
    apply Py_DECREF_sqe_spec in Hdec as (so1 & Hso1 & D1 & _ & D3 & Hcase).
    simpl in Hso1. rewrite lookup_insert_eq in Hso1. injection Hso1 as <-.
    assert (HinvA : inv stA (λ x, if decide (x = s) then S (count_of (held_sqe g) x)
                                  else count_of (held_sqe g) x)
                      (count_of (unbump c (held_cqe g))) (count_of (pinned g))).
    { eapply (inv_unlink_cqe st stA _ _ _ c co s so); try eassumption; try reflexivity.
      - simpl. rewrite decide_True by reflexivity. reflexivity.
      - intros x Hx. simpl. rewrite decide_False by exact Hx. reflexivity.
      - rewrite count_of_unbump, decide_True by reflexivity. lia.
      - intros x Hx. rewrite count_of_unbump, decide_False by congruence. reflexivity. }
    eapply (inv_decref_sqe stA _ _ _ _ s (with_cqeobj None so)); try exact HinvA.
    + simpl. apply lookup_insert_eq.
    + simpl. rewrite D1. reflexivity.
    + simpl. exact D3.
    + simpl. exact Hcase.
    + simpl. rewrite decide_True by reflexivity. lia.
    + intros x Hx. simpl. rewrite decide_False by exact Hx. auto.
  - (* one reference less *)
    apply upd_cqe_spec in Hd as (co0 & Hco0 & ->). rewrite Hco in Hco0.
    injection Hco0 as <-.
    eapply inv_cqe_update; try eassumption; try reflexivity.
    + simpl. rewrite count_of_unbump, decide_True by reflexivity. lia.
    + simpl. lia.
    + intros x Hx. rewrite count_of_unbump, decide_False by congruence. reflexivity.
Qed.

Lemma came_back_frame st o v st' :
  outcome_frame st o → came_back o = Some (v, st') → lifecycle_frame st st'.
Proof.
  destruct o; simpl; intros Hf H; try discriminate; injection H as _ <-; exact Hf.
Qed.

(** Every call of a session keeps the invariant. *)
Lemma exec_inv inet_pton c σ σ' :
  session_inv σ → exec inet_pton c σ = Some σ' → session_inv σ'.
Proof.
  destruct σ as [st g]. intros Hinv H. unfold exec in H.
  destruct c.
  - destruct (came_back (IoUring_get_sqe st)) as [[v st']|] eqn:E; [|discriminate].
    injection H as <-. eapply inv_get_sqe; eauto.
  - destruct (came_back (IoUring_submit kernel_err st)) as [[v st']|] eqn:E; [|discriminate].
    injection H as <-. eapply inv_submit; eauto.
  - destruct (came_back (IoUring_wait_cqe st)) as [[v st']|] eqn:E; [|discriminate].
    injection H as <-. eapply inv_wait_single_cqe; eauto.
  - destruct (came_back (IoUring_peek_cqe st)) as [[v st']|] eqn:E; [|discriminate].
    injection H as <-. eapply inv_wait_single_cqe; eauto.
  - destruct (came_back (IoUring_wait_cqe_nr args st)) as [[v st']|] eqn:E; [|discriminate].
    injection H as <-. eapply inv_wait_cqe_nr; eauto.
  - destruct (came_back (IoUring_wait_cqes args st)) as [[v st']|] eqn:E; [|discriminate].
    injection H as <-. eapply inv_wait_cqes; eauto.
  - destruct (decide _) as [Hheld|]; [|discriminate].
    destruct (cqe_heap st !! c) as [co|] eqn:Hco; [|discriminate]. simpl in H.
    destruct (came_back (IoUring_cqe_seen [PyCqe c] st)) as [[v st']|] eqn:E; [|discriminate].
    simpl in H. pose proof (inv_cqe_seen c co st g v st' Hinv Hco E) as Hseen.
    destruct (seen co).
    + injection H as <-. exact Hseen.
    + destruct (sqeobj co) as [s|] eqn:Hs; [|discriminate]. simpl in H.
      destruct (decide _) as [Hpin|]; [|discriminate]. injection H as <-.
      apply Hseen; [reflexivity | exact Hpin].
  - destruct (decide _); [|discriminate].
    destruct (came_back (Sqe_methods inet_pton m self args st)) as [[v st']|] eqn:E;
      [|discriminate].
    injection H as <-. eapply inv_frame; [exact Hinv|].
    eapply came_back_frame; [apply Sqe_methods_frame | exact E].
  - destruct (decide _); [|discriminate].
    destruct (came_back (Sqe_set_data self args st)) as [[v st']|] eqn:E; [|discriminate].
    injection H as <-. eapply inv_frame; [exact Hinv|].
    eapply came_back_frame; [apply Sqe_set_data_frame | exact E].
  - destruct (decide _); [|discriminate].
    destruct (came_back (Cqe_getresult c st)) as [[v st']|] eqn:E; [|discriminate].
    injection H as <-. eapply inv_frame; [exact Hinv|].
    eapply came_back_frame; [apply Cqe_getresult_frame | exact E].
  - destruct (decide _) as [Hheld|]; [|discriminate].
    destruct (Py_DECREF_sqe s st) as [st'|] eqn:E; [|discriminate].
    injection H as <-. eapply inv_drop_sqe; eauto.
  - destruct (decide _) as [Hheld|]; [|discriminate].
    destruct (Py_DECREF_cqe c st) as [st'|] eqn:E; [|discriminate].
    injection H as <-. eapply inv_drop_cqe; eauto.
  - destruct (kernel_post e (ring st)) as [r|]; [|discriminate].
    injection H as <-. apply inv_set_ring. exact Hinv.
Qed.

Lemma run_inv inet_pton calls : ∀ σ σ',
  session_inv σ → run inet_pton calls σ = Some σ' → session_inv σ'.
Proof.
  induction calls as [|c calls IH]; simpl; intros σ σ' Hinv H.
  - injection H as <-. exact Hinv.
  - destruct (exec inet_pton c σ) as [σ1|] eqn:E; [|discriminate].
    eapply IH; [|exact H]. eapply exec_inv; eauto.
Qed.

Lemma session_start_inv entries : session_inv (session_start entries).
Proof.
  assert (Hempty : ∀ st, sqe_heap st = ∅ → cqe_heap st = ∅ → wait_submit st = [] →
                   session_inv (st, Holders ∅ ∅ ∅)).
  { intros st E1 E2 E3 a. unfold sqe_ok, cqe_ok. simpl.
    rewrite E1, E2, E3, !lookup_empty, !count_of_empty. unfold occurrences. simpl. auto. }
  unfold session_start, IoUring_queue_init.
  match goal with
  | |- context [PyArg_ParseTuple ?a ?f ?va ?env ?s] =>
      pose proof (PyArg_ParseTuple_plain a f va env s eq_refl) as Hp;
      destruct (PyArg_ParseTuple a f va env s) as [env' st2|e env' st2|];
      [subst st2|subst st2|]
  end; try (apply Hempty; reflexivity).
  destruct (get_int env' "entries") as [n|]; [|apply Hempty; reflexivity].
  destruct (io_uring_queue_init n (ring IoUring_new)) as [ret r].
  destruct (ret <? 0); apply Hempty; reflexivity.
Qed.

(** The invariant holds in every reachable state. *)
Lemma reachable_inv st :
  reachable st → ∃ g, session_inv (st, g).
Proof.
  intros (inet_pton & entries & calls & g & Hrun). exists g.
  eapply run_inv; [apply session_start_inv | exact Hrun].
Qed.

(** ** One wrapper per request *)

Lemma unique_wrapper st g c1 c2 co1 co2 :
  session_inv (st, g) →
  cqe_heap st !! c1 = Some co1 → cqe_heap st !! c2 = Some co2 →
  sqeobj co1 = sqeobj co2 → c1 = c2.
Proof.
  unfold session_inv. simpl. intros Hinv H1 H2 Heq.
  destruct (Hinv c1) as [_ A]. destruct (Hinv c2) as [_ B].
  unfold cqe_ok in *. rewrite H1 in A. rewrite H2 in B.
  destruct A as (_ & _ & s1 & so1 & A1 & A2 & A3).
  destruct B as (_ & _ & s2 & so2 & B1 & B2 & B3).
  assert (s1 = s2) by congruence. subst s2. congruence.
Qed.

Lemma wrap_cqe_cached slot st g c :
  session_inv (st, g) → cached_at st slot c →
  ∃ co, cqe_heap st !! c = Some co
    ∧ wrap_cqe slot st
      = Some (c, set_cqe_heap <[c := with_cqe_refcnt (S (cqe_refcnt co)) co]> st).
Proof.
  unfold session_inv. simpl. intros Hinv (e & s & so & He & Hs & Hso & Hc).
  destruct (Hinv s) as [Hx _]. unfold sqe_ok in Hx. rewrite Hso in Hx.
  destruct Hx as (_ & _ & X3). destruct (X3 c Hc) as (co & Hco & _).
  exists co. split; [exact Hco|].
  unfold wrap_cqe. rewrite He. simpl. rewrite Hs. simpl. rewrite Hso. simpl.
  rewrite Hc. unfold Py_INCREF_cqe, upd_cqe. rewrite Hco. reflexivity.
Qed.

Lemma wrap_cqe_total slot st g s :
  session_inv (st, g) → resolves st slot s →
  ∃ c st', wrap_cqe slot st = Some (c, st').
Proof.
  intros Hinv (e & He & Hs & [so Hso]).
  destruct (cqeobj so) as [c|] eqn:Hc.
  - destruct (wrap_cqe_cached slot st g c Hinv) as (co & _ & H); [|eauto].
    exists e, s, so. auto.
  - unfold wrap_cqe. rewrite He. simpl. rewrite Hs. simpl. rewrite Hso. simpl.
    rewrite Hc. unfold Cqe_new, upd_cqe, Py_INCREF_sqe, upd_sqe. simpl.
    rewrite lookup_insert_eq. simpl. rewrite Hso. simpl.
    rewrite lookup_insert_eq. simpl. rewrite lookup_insert_eq. simpl. eauto.
Qed.

(** The shared block keeps the ring, the live requests and the cache
    pointers that are set. *)
Lemma wrap_cqe_keeps slot st c st' :
  wrap_cqe slot st = Some (c, st') →
  ring st' = ring st
  ∧ ∀ s so, sqe_heap st !! s = Some so →
      ∃ so', sqe_heap st' !! s = Some so'
             ∧ ∀ c0, cqeobj so = Some c0 → cqeobj so' = Some c0.
Proof.
  intros H. apply wrap_cqe_spec in H as (e & s0 & so0 & He & Hs & Hso & Hcase).
  destruct Hcase as [(Hnone & -> & ->) | (Hsome & co & Hco & ->)]; simpl.
  - split; [reflexivity|]. intros s so Hs'. destruct (decide (s0 = s)) as [<-|Hne].
    + rewrite lookup_insert_eq. eexists. split; [reflexivity|].
      intros c0 Hc0. congruence.
    + rewrite lookup_insert_ne by exact Hne. eauto.
  - split; [reflexivity|]. eauto.
Qed.

Lemma wait_loop_cached n : ∀ base i st g,
  session_inv (st, g) →
  (∀ j, (j < n)%nat → ∃ s, resolves st (base + i + j) s) →
  ∃ l st',
    wait_loop n (Some base) i st = Some (l, st')
    ∧ length l = n
    ∧ ∀ j c, (j < n)%nat → cached_at st (base + i + j) c → l !! j = Some (PyCqe c).
Proof.
  induction n as [|n IH]; intros base i st g Hinv Hres.
  - exists [], st. repeat split. intros j c Hj. lia.
  - destruct (Hres 0%nat) as [s0 Hs0]; [lia|]. rewrite Nat.add_0_r in Hs0.
    destruct (wrap_cqe_total _ _ _ _ Hinv Hs0) as (c0 & st1 & Hw).
    pose proof (inv_wrap_cqe _ _ _ _ _ Hinv Hw) as Hinv1.
    destruct (wrap_cqe_keeps _ _ _ _ Hw) as (Hring & Hkeep).
    destruct (IH base (S i) st1 _ Hinv1) as (l1 & st2 & Hl & Hlen & Hcached).
    { intros j Hj. destruct (Hres (S j)) as (s & e & He & Hs & [so Hso]); [lia|].
      exists s, e. replace (base + S i + j)%nat with (base + i + S j)%nat by lia.
      rewrite Hring. destruct (Hkeep s so Hso) as (so' & Hso' & _). eauto. }
    exists (PyCqe c0 :: l1), st2. simpl. rewrite Hw. simpl. rewrite Hl. simpl.
    split; [reflexivity|]. split; [lia|].
    intros [|j] c Hj Hc.
    + simpl. rewrite Nat.add_0_r in Hc.
      destruct (wrap_cqe_cached _ _ _ _ Hinv Hc) as (co & _ & Hw').
      rewrite Hw in Hw'. injection Hw' as -> _. reflexivity.
    + simpl. apply Hcached; [lia|].
      destruct Hc as (e & s & so & He & Hs & Hso & Hcq).
      replace (base + S i + j)%nat with (base + i + S j)%nat by lia.
      destruct (Hkeep s so Hso) as (so' & Hso' & Hc').
      exists e, s, so'. rewrite Hring. auto.
Qed.

Lemma ready_wait r n ts :
  0 < wrap_uint (cq_tail r - cq_head r) → n ≤ wrap_uint (cq_tail r - cq_head r) →
  io_uring_wait_cqes r n ts = WaitDone 0 (Some (cq_slot r (cq_head r))).
Proof.
  intros H1 H2. unfold io_uring_wait_cqes.
  destruct (Z.ltb_spec 0 (wrap_uint (cq_tail r - cq_head r))); [|lia].
  destruct (Z.leb_spec n (wrap_uint (cq_tail r - cq_head r))); [|lia].
  reflexivity.
Qed.

Lemma wait_returned r n ts p :
  io_uring_wait_cqes r n ts = WaitDone 0 p →
  p = Some (cq_slot r (cq_head r)) ∧ 0 < wrap_uint (cq_tail r - cq_head r).
Proof.
  unfold io_uring_wait_cqes.
  destruct (Z.ltb_spec 0 (wrap_uint (cq_tail r - cq_head r))); simpl.
  - destruct (n <=? _).
    + intros [= <-]. auto.
    + destruct (n =? 0); [discriminate|]. destruct ts; discriminate.
  - destruct (n =? 0); [discriminate|]. destruct ts; discriminate.
Qed.

Lemma wait_single_cached n st g c :
  session_inv (st, g) → 0 < IoUring_cq_ready st → n ≤ 1 →
  cached_at st (head_slot st) c →
  ∃ st', IoUring_wait_single_cqe n st = Ret (PyCqe c) st'
         ∧ dom (cqe_heap st') = dom (cqe_heap st).
Proof.
  intros Hinv Hready Hn Hc. unfold IoUring_cq_ready in Hready.
  destruct (wrap_cqe_cached _ _ _ _ Hinv Hc) as (co & Hco & Hw).
  destruct Hc as (e & s & so & He & Hs & Hso & Hcq).
  unfold IoUring_wait_single_cqe, io_uring_wait_cqe_nr.
  rewrite ready_wait by lia. simpl. fold (head_slot st). rewrite Hw. simpl.
  fold (head_slot st). rewrite He. unfold upd_cqe. simpl.
  rewrite lookup_insert_eq. simpl. rewrite lookup_insert_eq. simpl.
  eexists. split; [reflexivity|]. simpl.
  rewrite !dom_insert_lookup_L; [reflexivity| | |]; eauto.
  - rewrite lookup_insert_eq. eauto.
  - rewrite lookup_insert_eq. eauto.
Qed.

(** What a single retrieval that returned a wrapper leaves behind: the
    completion is still at the head and its request caches the wrapper. *)
Lemma wait_single_returned n st g c st1 :
  session_inv (st, g) → IoUring_wait_single_cqe n st = Ret (PyCqe c) st1 →
  session_inv (st1, hold1 (PyCqe c) g)
  ∧ 0 < IoUring_cq_ready st1
  ∧ cached_at st1 (head_slot st1) c.
Proof.
  intros Hinv H.
  assert (Hinv1 : session_inv (st1, hold (PyCqe c) g)).
  { eapply inv_wait_single_cqe; [exact Hinv|]. rewrite H. reflexivity. }
  split; [exact Hinv1|].
  unfold IoUring_wait_single_cqe, io_uring_wait_cqe_nr in H.
  destruct (io_uring_wait_cqes (ring st) n None) as [ret p|] eqn:Ew; [|discriminate].
  destruct (Z.ltb_spec ret 0) as [Hneg|Hpos]; [discriminate|].
  assert (ret = 0) as ->.
  { unfold io_uring_wait_cqes in Ew.
    repeat match type of Ew with
           | context [if ?b then _ else _] => destruct b
           end; try discriminate; injection Ew as <- _; try reflexivity;
      unfold EAGAIN in Hpos; lia. }
  apply wait_returned in Ew as [-> Hready]. fold (head_slot st) in H.
  destruct (wrap_cqe (head_slot st) st) as [[c0 st0]|] eqn:Hw; [|discriminate].
  destruct (wrap_cqe_keeps _ _ _ _ Hw) as (Hring & _).
  apply wrap_cqe_spec in Hw as (e & s & so & He & Hs & Hso & Hcase).
  assert (Hlink : ring st0 = ring st ∧ ∃ so0, sqe_heap st0 !! s = Some so0 ∧ cqeobj so0 = Some c0).
  { split; [exact Hring|].
    destruct Hcase as [(Hnone & -> & ->) | (Hsome & co & Hco & ->)]; simpl.
    - rewrite lookup_insert_eq. eauto.
    - eauto. }
  destruct Hlink as (_ & so0 & Hso0 & Hc0).
  simpl in H. rewrite Hring, He in H.
  destruct (upd_cqe c0 (with_cqe (Some (head_slot st))) st0) as [sta|] eqn:Ea;
    [|discriminate].
  apply upd_cqe_spec in Ea as (oa & _ & ->).
  destruct (upd_cqe c0 _ _) as [stb|] eqn:Eb; [|discriminate].
  apply upd_cqe_spec in Eb as (ob & _ & ->).
  injection H as -> <-. simpl.
  unfold IoUring_cq_ready, head_slot. simpl. rewrite Hring.
  split; [exact Hready|].
  exists e, s, so0. simpl. rewrite Hring. fold (head_slot st). auto.
Qed.

Lemma bulk_cached n st g ts :
  session_inv (st, g) → 0 < n → n ≤ IoUring_cq_ready st →
  (∀ j, (j < Z.to_nat n)%nat → ∃ s, resolves st (head_slot st + j) s) →
  wrap_uint n = n
  ∧ io_uring_wait_cqes (ring st) n ts = WaitDone 0 (Some (head_slot st))
  ∧ ∃ l st',
      wait_loop (Z.to_nat n) (Some (head_slot st)) 0 st = Some (l, st')
      ∧ length l = Z.to_nat n
      ∧ ∀ j c, (j < Z.to_nat n)%nat → cached_at st (head_slot st + j) c →
          l !! j = Some (PyCqe c).
Proof.
  intros Hinv Hpos Hready Hres. unfold IoUring_cq_ready in Hready.
  split; [|split].
  - unfold wrap_uint in *. apply Z.mod_small.
    pose proof (Z.mod_pos_bound (cq_tail (ring st) - cq_head (ring st)) (2 ^ 32)). lia.
  - apply ready_wait; lia.
  - destruct (wait_loop_cached (Z.to_nat n) (head_slot st) 0 st g Hinv)
      as (l & st' & Hl & Hlen & Hc).
    + intros j Hj. rewrite Nat.add_0_r. apply Hres. exact Hj.
    + exists l, st'. split; [exact Hl|]. split; [exact Hlen|].
      intros j c Hj Hcj. apply Hc; [exact Hj|]. rewrite Nat.add_0_r. exact Hcj.
Qed.

Lemma wait_cqe_nr_unfold n st :
  IoUring_wait_cqe_nr [PyLong n] st = IoUring_wait_cqe_nr_impl (wrap_uint n) st.
Proof. reflexivity. Qed.

Lemma wait_cqe_nr_cached n st g :
  session_inv (st, g) → 0 < n → n ≤ IoUring_cq_ready st →
  (∀ j, (j < Z.to_nat n)%nat → ∃ s, resolves st (head_slot st + j) s) →
  bulk_returns_cached st n (IoUring_wait_cqe_nr [PyLong n] st).
Proof.
  intros Hinv Hpos Hready Hres.
  destruct (bulk_cached n st g None Hinv Hpos Hready Hres)
    as (Hn & Hw & l & st' & Hl & Hlen & Hc).
  exists l, st'. split; [|auto].
  rewrite wait_cqe_nr_unfold, Hn. unfold IoUring_wait_cqe_nr_impl, io_uring_wait_cqe_nr.
  rewrite Hw. simpl. rewrite Hl. reflexivity.
Qed.

Lemma wait_cqes_cached n t ts st g :
  session_inv (st, g) → 0 < n → n ≤ IoUring_cq_ready st →
  (∀ j, (j < Z.to_nat n)%nat → ∃ s, resolves st (head_slot st + j) s) →
  wait_cqes_timespec t = Some ts →
  bulk_returns_cached st n (IoUring_wait_cqes [PyLong n; PyFloat t] st).
Proof.
  intros Hinv Hpos Hready Hres Ht.
  destruct (bulk_cached n st g ts Hinv Hpos Hready Hres)
    as (Hn & Hw & l & st' & Hl & Hlen & Hc).
  exists l, st'. split; [|auto].
  rewrite wait_cqes_unfold, Ht, Hn, Hw. simpl. rewrite Hl. reflexivity.
Qed.

(** Destroying the last reference to a wrapper whose request stays alive
    clears the request's cache pointer; the next retrieval for the request
    allocates a wrapper at an address that is free at that moment. *)
Lemma destroy_then_fresh c co s so st :
  cqe_heap st !! c = Some co → cqe_refcnt co = 1%nat →
  sqeobj co = Some s → sqe_heap st !! s = Some so → (2 ≤ sqe_refcnt so)%nat →
  ∃ st1 so1,
    Py_DECREF_cqe c st = Some st1
    ∧ cqe_heap st1 !! c = None
    ∧ sqe_heap st1 !! s = Some so1 ∧ cqeobj so1 = None
    ∧ ∀ slot e, cqes (ring st1) !! slot = Some e →
        u64_to_ptr (cqe_user_data e) = Some s →
        ∃ c' st2 so2,
          wrap_cqe slot st1 = Some (c', st2)
          ∧ cqe_heap st1 !! c' = None
          ∧ cqe_heap st2 !! c' = Some (mkCqe 1 (Some slot) (Some s) false)
          ∧ sqe_heap st2 !! s = Some so2 ∧ cqeobj so2 = Some c'.
Proof.
  intros Hco Hone Hsq Hso Htwo.
  destruct (sqe_refcnt so) as [|[|k]] eqn:Hk; [lia|lia|].
  unfold Py_DECREF_cqe, Cqe_dealloc. rewrite Hco. simpl. rewrite Hone, Hsq. simpl.
  unfold upd_sqe at 1. rewrite Hso. simpl.
  unfold Py_DECREF_sqe. simpl. rewrite lookup_insert_eq. simpl. rewrite Hk.
  unfold upd_sqe. simpl. rewrite lookup_insert_eq. simpl.
  eexists _, _. split; [reflexivity|]. simpl.
  split; [apply lookup_delete_eq|].
  rewrite lookup_insert_eq. split; [reflexivity|]. split; [reflexivity|].
  intros slot e He Hs. unfold wrap_cqe. simpl. rewrite He. simpl. rewrite Hs. simpl.
  rewrite lookup_insert_eq. simpl.
  unfold upd_cqe, Py_INCREF_sqe, upd_sqe. simpl.
  rewrite lookup_insert_eq. simpl. rewrite lookup_insert_eq. simpl.
  rewrite lookup_insert_eq. simpl. rewrite lookup_insert_eq. simpl.
  eexists _, _, _. split; [reflexivity|]. simpl.
  split; [apply not_elem_of_dom, is_fresh|].
  rewrite !lookup_insert_eq. auto.
Qed.

Lemma wait_cqes_timespec_zero : wait_cqes_timespec 0 = Some None.
Proof. reflexivity. Qed.



(** * Further properties *)

(** ** Acquiring a request ([IoUring_get_sqe]) *)

Lemma sq_ready_next r :
  wrap_uint (wrap_uint (sqe_tail r + 1) - sqe_head r)
  = wrap_uint (wrap_uint (sqe_tail r - sqe_head r) + 1).
Proof.
  unfold wrap_uint. rewrite Zminus_mod_idemp_l, Zplus_mod_idemp_l.
  f_equal. lia.
Qed.

(** [IoUring_get_sqe] in full: the new object is entered with the native
    slot the library gave, whatever it is. *)
Lemma IoUring_get_sqe_unfold st :
  IoUring_get_sqe st
  = Ret (PySqe (fresh (dom (sqe_heap st))))
      (mkState
         (<[fresh (dom (sqe_heap st)) :=
              mkSqe 2 (io_uring_get_sqe (ring st)).1 (-1) 0 (-1) None
                (mkPy_buffer None 0 0) PyNone None]> (sqe_heap st))
         (cqe_heap st) (bytes_heap st) (io_uring_get_sqe (ring st)).2
         (wait_submit st ++ [fresh (dom (sqe_heap st))])).
Proof.
  unfold IoUring_get_sqe, Sqe_new. simpl.
  destruct (io_uring_get_sqe (ring st)) as [p r].
  unfold Py_INCREF_sqe, upd_sqe. simpl.
  rewrite lookup_insert_eq. simpl. rewrite lookup_insert_eq. simpl.
  unfold set_wait_submit, set_sqe_heap, set_ring. simpl.
  rewrite !insert_insert_eq. reflexivity.
Qed.

Lemma submit_tag_and_pin_app l1 : ∀ l2 st,
  submit_tag_and_pin (l1 ++ l2) st
  = st1 ← submit_tag_and_pin l1 st; submit_tag_and_pin l2 st1.
Proof.
  induction l1 as [|s l1 IH]; simpl; intros l2 st; [reflexivity|].
  destruct (sqe_heap st !! s) as [so|]; [|reflexivity]. simpl.
  destruct (sqe so) as [slot|]; [|reflexivity]. simpl.
  destruct (sqes (ring st) !! slot) as [e|]; [|reflexivity]. simpl.
  destruct (write_sqe slot _ (ring st)) as [r|]; [|reflexivity]. simpl.
  destruct (Py_INCREF_sqe s _) as [st1|]; [|reflexivity]. simpl.
  apply IH.
Qed.

(** A pending request without native slot makes the tagging loop
    dereference [NULL]. *)
Lemma submit_tag_and_pin_slotless l s st so :
  sqe_heap st !! s = Some so → sqe so = None →
  submit_tag_and_pin (l ++ [s]) st = None.
Proof.
  intros Hso Hnone. rewrite submit_tag_and_pin_app.
  destruct (submit_tag_and_pin l st) as [st1|] eqn:E; [|reflexivity]. simpl.
  apply submit_tag_and_pin_spec in E as (_ & _ & Hheap).
  rewrite Hheap, Hso. simpl. rewrite Hnone. reflexivity.
Qed.

(** X1.  [get_sqe] on a full submission queue does not fail: it returns a
    new request object whose native slot pointer is [NULL], leaves the ring
    as it was and still appends the object to the pending list.  Preparing
    that request as a no-op, and any later [submit], leave defined
    behaviour. *)
Theorem get_sqe_on_full_queue st :
  IoUring_sq_space_left st = 0 → sq_ring_entries (ring st) < 2 ^ 32 - 1 →
  ∃ st' so,
    IoUring_get_sqe st = Ret (PySqe (fresh (dom (sqe_heap st)))) st'
    ∧ ring st' = ring st
    ∧ sqe_heap st' !! fresh (dom (sqe_heap st)) = Some so
    ∧ sqe so = None
    ∧ wait_submit st' = wait_submit st ++ [fresh (dom (sqe_heap st))]
    ∧ Sqe_prep_nop (fresh (dom (sqe_heap st))) st' = Undefined
    ∧ ∀ kernel_err, IoUring_submit kernel_err st' = Undefined.
Proof.
  intros Hfull Hsize. unfold IoUring_sq_space_left, IoUring_sq_ready in Hfull.
  assert (Hnull : io_uring_get_sqe (ring st) = (None, ring st)).
  { unfold io_uring_get_sqe. rewrite sq_ready_next.
    replace (wrap_uint (sqe_tail (ring st) - sqe_head (ring st)))
      with (sq_ring_entries (ring st)) by lia.
    unfold wrap_uint. unfold sq_ring_entries in *.
    rewrite Z.mod_small by lia.
    destruct (Z.leb_spec (Z.of_nat (length (sqes (ring st))) + 1)
                (Z.of_nat (length (sqes (ring st))))); [lia|reflexivity]. }
  rewrite IoUring_get_sqe_unfold, Hnull. simpl.
  eexists _, _. split; [reflexivity|]. simpl.
  split; [reflexivity|]. split; [apply lookup_insert_eq|].
  split; [reflexivity|]. split; [reflexivity|]. split.
  - unfold Sqe_prep_nop, prep_commit. simpl. rewrite lookup_insert_eq. reflexivity.
  - intros kernel_err. unfold IoUring_submit. simpl.
    erewrite submit_tag_and_pin_slotless;
      [reflexivity|simpl; apply lookup_insert_eq|reflexivity].
Qed.

Lemma get_sqe_on_full_queue_witness :
  ∃ st' so,
    IoUring_get_sqe session_queue_full
    = Ret (PySqe (fresh (dom (sqe_heap session_queue_full)))) st'
    ∧ ring st' = ring session_queue_full
    ∧ sqe_heap st' !! fresh (dom (sqe_heap session_queue_full)) = Some so
    ∧ sqe so = None
    ∧ wait_submit st'
      = wait_submit session_queue_full ++ [fresh (dom (sqe_heap session_queue_full))]
    ∧ Sqe_prep_nop (fresh (dom (sqe_heap session_queue_full))) st' = Undefined
    ∧ IoUring_submit None st' = Undefined.
Proof.
  destruct (get_sqe_on_full_queue session_queue_full) as (st' & so & H).
  - vm_compute; reflexivity.
  - vm_compute; reflexivity.
  - exists st', so. destruct H as (H1 & H2 & H3 & H4 & H5 & H6 & H7).
    repeat split; try assumption. apply H7.
Defined.

(** X2.  [get_sqe] with room in the submission queue returns a request at
    an address that was free, initialised as [Sqe_new] leaves it (no
    descriptor, no opcode, no buffer, data [None], no wrapper), pointing at
    the slot at the queue's tail, with two references: the caller's and the
    pending list's, to whose end it is appended.  One more entry is ready in
    the submission queue; wrappers and buffers are untouched. *)
Theorem get_sqe_acquires_slot st :
  0 < IoUring_sq_space_left st → sq_ring_entries (ring st) < 2 ^ 32 →
  ∃ st',
    IoUring_get_sqe st = Ret (PySqe (fresh (dom (sqe_heap st)))) st'
    ∧ sqe_heap st !! fresh (dom (sqe_heap st)) = None
    ∧ sqe_heap st'
      = <[fresh (dom (sqe_heap st)) :=
            mkSqe 2 (Some (sq_slot (ring st) (sqe_tail (ring st)))) (-1) 0 (-1) None
              (mkPy_buffer None 0 0) PyNone None]> (sqe_heap st)
    ∧ wait_submit st' = wait_submit st ++ [fresh (dom (sqe_heap st))]
    ∧ IoUring_sq_ready st' = IoUring_sq_ready st + 1
    ∧ IoUring_sq_space_left st' = IoUring_sq_space_left st - 1
    ∧ sqes (ring st') = sqes (ring st)
    ∧ cqe_heap st' = cqe_heap st ∧ bytes_heap st' = bytes_heap st.
Proof.
  intros Hroom Hsize. unfold IoUring_sq_space_left, IoUring_sq_ready in *.
  pose proof (Z.mod_pos_bound (sqe_tail (ring st) - sqe_head (ring st)) (2 ^ 32)) as Hb.
  fold (wrap_uint (sqe_tail (ring st) - sqe_head (ring st))) in Hb.
  assert (Hnext : wrap_uint (wrap_uint (sqe_tail (ring st) + 1) - sqe_head (ring st))
                  = wrap_uint (sqe_tail (ring st) - sqe_head (ring st)) + 1).
  { rewrite sq_ready_next. unfold wrap_uint at 1. apply Z.mod_small. lia. }
  assert (Hslot : io_uring_get_sqe (ring st)
                  = (Some (sq_slot (ring st) (sqe_tail (ring st))),
                     with_sq (sqes (ring st)) (sqe_head (ring st))
                       (wrap_uint (sqe_tail (ring st) + 1)) (ring st))).
  { unfold io_uring_get_sqe. rewrite Hnext.
    destruct (Z.leb_spec (wrap_uint (sqe_tail (ring st) - sqe_head (ring st)) + 1)
                (sq_ring_entries (ring st))); [reflexivity|lia]. }
  rewrite IoUring_get_sqe_unfold, Hslot. simpl.
  eexists. split; [reflexivity|]. simpl.
  split; [apply not_elem_of_dom, is_fresh|].
  split; [reflexivity|]. split; [reflexivity|].
  unfold sq_ring_entries. simpl. rewrite Hnext.
  repeat split; lia.
Qed.

Lemma get_sqe_acquires_slot_witness :
  ∃ st',
    IoUring_get_sqe session_initialised = Ret (PySqe 1%positive) st'
    ∧ sqe_heap st' !! 1%positive
      = Some (mkSqe 2 (Some 0%nat) (-1) 0 (-1) None (mkPy_buffer None 0 0) PyNone None)
    ∧ IoUring_sq_ready st' = 1
    ∧ IoUring_sq_space_left st' = 3.
Proof.
  destruct (get_sqe_acquires_slot session_initialised)
    as (st' & H1 & _ & H3 & _ & H5 & H6 & _).
  - vm_compute; reflexivity.
  - vm_compute; reflexivity.
  - exists st'. split; [exact H1|]. split; [rewrite H3; vm_compute; reflexivity|].
    split; [rewrite H5; vm_compute; reflexivity|rewrite H6; vm_compute; reflexivity].
Defined.

(** ** Submission in general ([IoUring_submit]) *)

Lemma slot_of_refcnt st s a n so :
  sqe_heap st !! a = Some so →
  slot_of (set_sqe_heap <[a := with_sqe_refcnt n so]> st) s = slot_of st s.
Proof.
  intros Hso. unfold slot_of. simpl.
  destruct (decide (a = s)) as [<-|Hne].
  - rewrite lookup_insert_eq, Hso. reflexivity.
  - rewrite lookup_insert_ne by exact Hne. reflexivity.
Qed.

(** The tagging loop on requests with valid slots: it always completes,
    touches neither buffers nor wrappers nor the queue counters, gives each
    request one reference per occurrence, and where the slots are pairwise
    distinct writes in each request's slot the request's own address as
    [user_data], leaving every other field and every other slot alone. *)
Lemma submit_tag_and_pin_effect l : ∀ st,
  slots_valid st l →
  ∃ st',
    submit_tag_and_pin l st = Some st'
    ∧ bytes_heap st' = bytes_heap st
    ∧ length (sqes (ring st')) = length (sqes (ring st))
    ∧ sqe_head (ring st') = sqe_head (ring st) ∧ sqe_tail (ring st') = sqe_tail (ring st)
    ∧ cqes (ring st') = cqes (ring st)
    ∧ cq_head (ring st') = cq_head (ring st) ∧ cq_tail (ring st') = cq_tail (ring st)
    ∧ (∀ i, Some i ∉ slot_of st <$> l → sqes (ring st') !! i = sqes (ring st) !! i)
    ∧ (NoDup (slot_of st <$> l) →
       ∀ s i, s ∈ l → slot_of st s = Some i →
         sqes (ring st') !! i
         = io_uring_sqe_set_data (ptr_to_u64 s) <$> sqes (ring st) !! i).
Proof.
  induction l as [|s l IH]; intros st Hvalid.
  - exists st. simpl. repeat split; try reflexivity.
    intros _ s i Hin. apply elem_of_nil in Hin. contradiction.
  - destruct (Hvalid s) as (slot & Hslot & Hlt); [left|].
    unfold slot_of in Hslot.
    destruct (sqe_heap st !! s) as [so|] eqn:Hso; [|discriminate]. simpl in Hslot.
    destruct (lookup_lt_is_Some_2 _ _ Hlt) as [e He].
    set (r := with_sq (<[slot := io_uring_sqe_set_data (ptr_to_u64 s) e]> (sqes (ring st)))
                (sqe_head (ring st)) (sqe_tail (ring st)) (ring st)).
    set (st1 := set_sqe_heap <[s := with_sqe_refcnt (S (sqe_refcnt so)) so]>
                  (set_ring (λ _, r) st)).
    assert (Hstep : ∀ rest, submit_tag_and_pin (s :: rest) st = submit_tag_and_pin rest st1).
    { intros rest. simpl. rewrite Hso. simpl. rewrite Hslot. simpl. rewrite He. simpl.
      unfold write_sqe. rewrite decide_True by exact Hlt. simpl.
      unfold Py_INCREF_sqe, upd_sqe. simpl. rewrite Hso. reflexivity. }
    assert (Hslots : ∀ a, slot_of st1 a = slot_of (set_ring (λ _, r) st) a).
    { intros a. unfold st1. apply slot_of_refcnt. exact Hso. }
    assert (Hslots' : ∀ a, slot_of st1 a = slot_of st a).
    { intros a. rewrite Hslots. reflexivity. }
    assert (Hfmap : slot_of st1 <$> l = slot_of st <$> l).
    { apply list_fmap_ext. intros _ a _. apply Hslots'. }
    destruct (IH st1) as (st' & Hrun & Hb & Hlen & Hh & Ht & Hc & Hch & Hct & Hother & Htag).
    { intros a Ha. destruct (Hvalid a) as (i & Hi & Hilt); [right; exact Ha|].
      exists i. rewrite Hslots'. split; [exact Hi|].
      unfold st1, r. simpl. rewrite length_insert. exact Hilt. }
    exists st'. rewrite Hstep. split; [exact Hrun|].
    unfold st1, r in Hb, Hlen, Hh, Ht, Hc, Hch, Hct.
    simpl in Hb, Hlen, Hh, Ht, Hc, Hch, Hct.
    rewrite length_insert in Hlen.
    repeat (split; [assumption|]).
    assert (Hs : slot_of st s = Some slot).
    { unfold slot_of. rewrite Hso. exact Hslot. }
    split.
    + intros i Hnot. rewrite fmap_cons, not_elem_of_cons, Hs in Hnot.
      destruct Hnot as [Hne Hnot]. rewrite Hother by (rewrite Hfmap; exact Hnot).
      unfold st1, r. simpl. apply list_lookup_insert_ne. congruence.
    + intros Hnd a i Ha Hai. rewrite fmap_cons, NoDup_cons, Hs in Hnd.
      destruct Hnd as [Hfirst Hnd]. apply elem_of_cons in Ha as [->|Ha].
      * assert (i = slot) as -> by congruence.
        rewrite Hother by (rewrite Hfmap; exact Hfirst).
        unfold st1, r. simpl. rewrite list_lookup_insert_eq by exact Hlt.
        rewrite He. reflexivity.
      * rewrite (Htag ltac:(rewrite Hfmap; exact Hnd) a i Ha)
          by (rewrite Hslots'; exact Hai).
        unfold st1, r. simpl. rewrite list_lookup_insert_ne; [reflexivity|].
        intros ->. apply Hfirst. rewrite <- Hai. apply list_elem_of_fmap_2. exact Ha.
Qed.

(** Dropping a list whose items all keep a reference of their own frees
    nothing: each item loses one reference per occurrence. *)
Lemma list_dealloc_keeps l : ∀ st,
  (∀ a, a ∈ l → ∃ so, sqe_heap st !! a = Some so
                      ∧ (occurrences a l < sqe_refcnt so)%nat) →
  ∃ st',
    list_dealloc l st = Some st'
    ∧ bytes_heap st' = bytes_heap st ∧ ring st' = ring st
    ∧ cqe_heap st' = cqe_heap st ∧ wait_submit st' = wait_submit st
    ∧ ∀ a, sqe_heap st' !! a
           = (λ o, with_sqe_refcnt (sqe_refcnt o - occurrences a l) o) <$> sqe_heap st !! a.
Proof.
  induction l as [|s l IH]; intros st Hbig.
  - exists st. simpl. repeat split. intros a.
    destruct (sqe_heap st !! a) as [o|]; [|reflexivity]. simpl.
    unfold occurrences. simpl. rewrite Nat.sub_0_r, with_sqe_refcnt_same. reflexivity.
  - destruct (Hbig s) as (so & Hso & Hlt); [left|].
    rewrite occurrences_cons, decide_True in Hlt by reflexivity.
    destruct (sqe_refcnt so) as [|[|n]] eqn:Hn; [lia|lia|].
    set (st1 := set_sqe_heap <[s := with_sqe_refcnt (S n) so]> st).
    assert (Hstep : Py_DECREF_sqe s st = Some st1).
    { unfold Py_DECREF_sqe, upd_sqe. rewrite Hso. simpl. rewrite Hn. reflexivity. }
    destruct (IH st1) as (st' & Hrun & Hb & Hr & Hc & Hw & Hheap).
    { intros a Ha. destruct (Hbig a) as (soa & Hsoa & Hlta); [right; exact Ha|].
      rewrite occurrences_cons in Hlta. unfold st1. simpl.
      destruct (decide (s = a)) as [<-|Hne].
      - rewrite lookup_insert_eq. eexists. split; [reflexivity|]. simpl. lia.
      - rewrite lookup_insert_ne by exact Hne. exists soa. split; [exact Hsoa|]. lia. }
    exists st'. simpl. rewrite Hstep. simpl. split; [exact Hrun|].
    repeat (split; [assumption|]). intros a. rewrite Hheap, occurrences_cons.
    unfold st1. simpl. destruct (decide (s = a)) as [<-|Hne].
    + rewrite lookup_insert_eq, Hso. simpl. f_equal. rewrite with_sqe_refcnt_twice.
      f_equal. simpl. lia.
    + rewrite lookup_insert_ne by exact Hne. reflexivity.
Qed.

(** X3.  [submit] accepted by the kernel, for any pending list of live
    requests with positive reference counts and pairwise distinct native
    slots: the call returns [None]; the pending list is empty and the
    submission queue has no ready entry; every request and every object in
    the heaps is as before, its reference count included (the pin replaces
    the reference the pending list held); each pending request's slot
    carries the request's address as [user_data] and is otherwise as
    prepare left it, and no other slot has changed. *)
Theorem submit_accepted_tags_and_pins st :
  slots_valid st (wait_submit st) → NoDup (slot_of st <$> wait_submit st) →
  (∀ s so, sqe_heap st !! s = Some so → (0 < sqe_refcnt so)%nat) →
  ∃ st',
    IoUring_submit None st = Ret PyNone st'
    ∧ wait_submit st' = [] ∧ IoUring_sq_ready st' = 0
    ∧ sqe_heap st' = sqe_heap st ∧ cqe_heap st' = cqe_heap st
    ∧ bytes_heap st' = bytes_heap st
    ∧ (∀ s i, s ∈ wait_submit st → slot_of st s = Some i →
         sqes (ring st') !! i
         = io_uring_sqe_set_data (ptr_to_u64 s) <$> sqes (ring st) !! i)
    ∧ (∀ i, Some i ∉ slot_of st <$> wait_submit st →
         sqes (ring st') !! i = sqes (ring st) !! i).
Proof.
  intros Hvalid Hnd Hpos.
  destruct (submit_tag_and_pin_effect (wait_submit st) st Hvalid)
    as (st1 & Hrun & Hb & Hlen & Hh & Ht & Hc & Hch & Hct & Hother & Htag).
  destruct (submit_tag_and_pin_spec _ _ _ Hrun) as (Hcq & Hw & Hheap).
  set (st2 := set_ring (λ _, with_sq (sqes (ring st1)) (sqe_tail (ring st1))
                               (sqe_tail (ring st1)) (ring st1)) st1).
  destruct (list_dealloc_keeps (wait_submit st) st2)
    as (st3 & Hrun3 & Hb3 & Hr3 & Hc3 & Hw3 & Hheap3).
  { intros a Ha. unfold st2. simpl. rewrite Hheap.
    destruct (Hvalid a Ha) as (i & Hi & _). unfold slot_of in Hi.
    destruct (sqe_heap st !! a) as [so|] eqn:Hso; [|discriminate].
    eexists. split; [reflexivity|]. simpl. specialize (Hpos a so Hso). lia. }
  exists (set_wait_submit [] st3).
  split.
  { unfold IoUring_submit. rewrite Hrun. simpl.
    destruct (Z.ltb_spec (wrap_uint (sqe_tail (ring st1) - sqe_head (ring st1))) 0)
      as [Hneg|_].
    - unfold wrap_uint in Hneg.
      pose proof (Z.mod_pos_bound (sqe_tail (ring st1) - sqe_head (ring st1)) (2 ^ 32)).
      lia.
    - fold st2. simpl. rewrite Hw, Hrun3. reflexivity. }
  simpl. split; [reflexivity|].
  split.
  { unfold IoUring_sq_ready. simpl. rewrite Hr3. unfold st2. simpl.
    rewrite Z.sub_diag. reflexivity. }
  split.
  { apply map_eq. intros a. rewrite Hheap3. unfold st2. simpl. rewrite Hheap.
    destruct (sqe_heap st !! a) as [so|]; [|reflexivity]. simpl. f_equal.
    rewrite with_sqe_refcnt_twice. simpl.
    replace (sqe_refcnt so + occurrences a (wait_submit st)
             - occurrences a (wait_submit st))%nat with (sqe_refcnt so) by lia.
    apply with_sqe_refcnt_same. }
  split; [rewrite Hc3; exact Hcq|].
  split; [rewrite Hb3; exact Hb|].
  rewrite Hr3. unfold st2. simpl. split.
  - intros s i Hs Hi. apply Htag; assumption.
  - exact Hother.
Qed.

Lemma session_two_nops_slots_valid :
  slots_valid session_two_nops (wait_submit session_two_nops).
Proof.
  intros s Hs. change (s ∈ [1%positive; 2%positive]) in Hs.
  apply elem_of_cons in Hs as [->|Hs].
  { exists 0%nat. split; [vm_compute; reflexivity|vm_compute; lia]. }
  apply elem_of_cons in Hs as [->|Hs].
  { exists 1%nat. split; [vm_compute; reflexivity|vm_compute; lia]. }
  apply elem_of_nil in Hs. contradiction.
Defined.

Lemma submit_accepted_tags_and_pins_witness :
  ∃ st',
    IoUring_submit None session_two_nops = Ret PyNone st'
    ∧ wait_submit st' = [] ∧ IoUring_sq_ready st' = 0
    ∧ sqe_heap st' = sqe_heap session_two_nops
    ∧ sqes (ring st') !! 1%nat
      = io_uring_sqe_set_data (ptr_to_u64 2%positive)
          <$> sqes (ring session_two_nops) !! 1%nat.
Proof.
  destruct (submit_accepted_tags_and_pins session_two_nops)
    as (st' & H1 & H2 & H3 & H4 & _ & _ & H7 & _).
  - exact session_two_nops_slots_valid.
  - apply (bool_decide_unpack _). vm_compute. reflexivity.
  - change (map_Forall (λ _ so, (0 < sqe_refcnt so)%nat) (sqe_heap session_two_nops)).
    apply (bool_decide_unpack _). vm_compute. reflexivity.
  - exists st'. repeat (split; [assumption|]).
    apply (H7 2%positive 1%nat).
    + change (2%positive ∈ [1%positive; 2%positive]). right. left.
    + vm_compute; reflexivity.
Defined.

(** X4.  [submit] rejected by the kernel with error [e]: the call raises
    [OSError] with that error number and keeps the pending list and the
    queue counters, but the tagging loop has already run: every pending
    request has one more reference per occurrence in the list, which
    nothing gives back, and a later [submit] pins the same requests
    again. *)
Theorem submit_rejected_keeps_pins st e :
  slots_valid st (wait_submit st) → 0 < e → e ≤ INT_MAX →
  ∃ st',
    IoUring_submit (Some e) st = Raise (OSError e) st'
    ∧ wait_submit st' = wait_submit st
    ∧ IoUring_sq_ready st' = IoUring_sq_ready st
    ∧ cqe_heap st' = cqe_heap st ∧ bytes_heap st' = bytes_heap st
    ∧ ∀ a, sqe_heap st' !! a
           = (λ o, with_sqe_refcnt (sqe_refcnt o + occurrences a (wait_submit st)) o)
               <$> sqe_heap st !! a.
Proof.
  intros Hvalid Hpos Hmax.
  destruct (submit_tag_and_pin_effect (wait_submit st) st Hvalid)
    as (st1 & Hrun & Hb & Hlen & Hh & Ht & Hc & Hch & Hct & Hother & Htag).
  destruct (submit_tag_and_pin_spec _ _ _ Hrun) as (Hcq & Hw & Hheap).
  exists (set_ring (λ _, ring st1) st1).
  split.
  { unfold IoUring_submit. rewrite Hrun. simpl.
    destruct (Z.ltb_spec (- e) 0); [|lia].
    unfold int_neg. rewrite Z.opp_involutive, wrap_int_id; [reflexivity|].
    unfold INT_MIN, INT_MAX in *. lia. }
  simpl. split; [exact Hw|].
  split; [unfold IoUring_sq_ready; simpl; rewrite Hh, Ht; reflexivity|].
  split; [exact Hcq|]. split; [exact Hb|]. exact Hheap.
Qed.

Lemma submit_rejected_keeps_pins_witness :
  ∃ st',
    IoUring_submit (Some 16) session_two_nops = Raise (OSError 16) st'
    ∧ wait_submit st' = wait_submit session_two_nops
    ∧ sqe_refcnt <$> sqe_heap st' !! 1%positive = Some 3%nat.
Proof.
  destruct (submit_rejected_keeps_pins session_two_nops 16)
    as (st' & H1 & H2 & _ & _ & _ & H6).
  - exact session_two_nops_slots_valid.
  - lia.
  - vm_compute. discriminate.
  - exists st'. split; [exact H1|]. split; [exact H2|].
    rewrite H6. vm_compute. reflexivity.
Defined.

(** ** User data ([Sqe_set_data], [Cqe_get_data]) *)

(** X5.  What [set_data] stores on a request, [get_data] returns from any
    completion wrapper of that request: the very object, with the request
    otherwise unchanged and every other request, the wrappers, the buffers
    and the ring untouched.  [set_data] takes exactly one argument: with
    none or with two it raises [TypeError] and changes nothing. *)
Theorem set_data_reaches_get_data st s so c co d :
  cqe_heap st !! c = Some co → sqeobj co = Some s → sqe_heap st !! s = Some so →
  uncounted d = true → uncounted (data so) = true →
  (∃ st1,
     Sqe_set_data s [d] st = Ret PyNone st1
     ∧ Cqe_get_data c st1 = Ret d st1
     ∧ sqe_heap st1 = <[s := with_data d so]> (sqe_heap st)
     ∧ cqe_heap st1 = cqe_heap st ∧ bytes_heap st1 = bytes_heap st
     ∧ ring st1 = ring st ∧ wait_submit st1 = wait_submit st)
  ∧ Cqe_get_data c st = Ret (data so) st
  ∧ Sqe_set_data s [] st = Raise TypeError st
  ∧ (∀ d', Sqe_set_data s [d; d'] st = Raise TypeError st).
Proof.
  intros Hco Hs Hso _ _. split; [|split; [|split]].
  - exists (set_sqe_heap <[s := with_data d so]> st). split.
    { unfold Sqe_set_data. simpl. unfold get_obj. rewrite lookup_insert_eq.
      unfold upd_sqe. rewrite Hso. reflexivity. }
    split.
    { unfold Cqe_get_data. simpl. rewrite Hco, Hs, lookup_insert_eq. reflexivity. }
    repeat split.
  - unfold Cqe_get_data. rewrite Hco, Hs, Hso. reflexivity.
  - reflexivity.
  - intros d'. reflexivity.
Qed.

Lemma set_data_reaches_get_data_witness :
  ∃ st1,
    Sqe_set_data 1%positive [PyUnicode "job"] (session_read_completed 3) = Ret PyNone st1
    ∧ Cqe_get_data 1%positive st1 = Ret (PyUnicode "job") st1
    ∧ Cqe_get_data 1%positive (session_read_completed 3)
      = Ret PyNone (session_read_completed 3).
Proof.
  edestruct (set_data_reaches_get_data (session_read_completed 3) 1%positive)
    with (c := 1%positive) (d := PyUnicode "job")
    as ((st1 & H1 & H2 & _) & H3 & _).
  - vm_compute; reflexivity.
  - vm_compute; reflexivity.
  - vm_compute; reflexivity.
  - reflexivity.
  - reflexivity.
  - exists st1. split; [exact H1|]. split; [exact H2|exact H3].
Defined.

(** ** What the prepare calls encode *)

Lemma Sqe_reinit_buffer_empty self so st :
  sqe_heap st !! self = Some so →
  allocated_buffer so = None → buf_obj (user_buffer so) = None →
  Sqe_reinit_buffer self st = Some st.
Proof.
  intros Hso Hb Hv. unfold Sqe_reinit_buffer. rewrite Hso. simpl. rewrite Hv.
  simpl. rewrite Hso. simpl. rewrite Hb. reflexivity.
Qed.

Lemma parse_int_int x1 x2 x3 z1 z2 env st :
  is_int z1 = true → is_int z2 = true →
  PyArg_ParseTuple [PyLong z1; PyLong z2] (Format [F_i; F_i] [F_i])
    [VaDest x1; VaDest x2; VaDest x3] env st
  = ParseOk (<[x2 := CInt z2]> (<[x1 := CInt z1]> env)) st.
Proof.
  intros H1 H2. unfold PyArg_ParseTuple. simpl.
  rewrite H1. simpl. rewrite H2. reflexivity.
Qed.

Lemma parse_int_int_int x1 x2 x3 z1 z2 z3 env st :
  is_int z1 = true → is_int z2 = true → is_int z3 = true →
  PyArg_ParseTuple [PyLong z1; PyLong z2; PyLong z3] (Format [F_i; F_i] [F_i])
    [VaDest x1; VaDest x2; VaDest x3] env st
  = ParseOk (<[x3 := CInt z3]> (<[x2 := CInt z2]> (<[x1 := CInt z1]> env))) st.
Proof.
  intros H1 H2 H3. unfold PyArg_ParseTuple. simpl.
  rewrite H1. simpl. rewrite H2. simpl. rewrite H3. reflexivity.
Qed.

(** The three closing steps of a method that attaches an owned buffer, on
    a request with a valid slot. *)
Lemma attach_owned_exact self so slot st content size (E : addr → io_uring_sqe) :
  sqe_heap st !! self = Some so → sqe so = Some slot →
  (slot < length (sqes (ring st)))%nat → 0 ≤ size →
  (let? (b, st2) := PyBytes_FromStringAndSize content size st in
   let? st3 := upd_sqe self (with_allocated_buffer (Some b)) st2 in
   prep_commit self (E b) st3)
  = Ret PyNone
      (owned_attached self so slot (fresh (dom (bytes_heap st)))
         (default (replicate (Z.to_nat size) Byte.x00) content)
         (E (fresh (dom (bytes_heap st)))) st).
Proof.
  intros Hso Hslot Hlt Hsize. unfold PyBytes_FromStringAndSize.
  destruct (Z.ltb_spec size 0); [lia|].
  unfold upd_sqe. simpl. rewrite Hso. simpl.
  unfold prep_commit. simpl. rewrite lookup_insert_eq. simpl. rewrite Hslot.
  unfold write_sqe. rewrite decide_True by exact Hlt. simpl.
  unfold record_opcode. simpl. rewrite lookup_insert_eq. simpl. rewrite Hslot.
  rewrite list_lookup_insert_eq by exact Hlt. simpl.
  unfold upd_sqe. simpl. rewrite lookup_insert_eq. simpl.
  unfold owned_attached, set_sqe_heap, set_ring, set_bytes_heap. simpl.
  rewrite insert_insert_eq. destruct content; reflexivity.
Qed.

Lemma wrap_uint_int n : is_int n = true → 0 ≤ n → wrap_uint n = n.
Proof.
  unfold is_int, INT_MIN, INT_MAX, wrap_uint. intros H Hn.
  apply andb_prop in H as [_ H]. apply Z.leb_le in H.
  apply Z.mod_small. lia.
Qed.



Lemma parse_int_view x1 ub x3 z1 b env st v st' :
  x1 ≠ ub → is_int z1 = true → PyObject_GetBuffer b st = Some (v, st') →
  PyArg_ParseTuple [PyLong z1; PyBytes b] (Format [F_i; F_ystar] [F_i])
    [VaDest x1; VaDest ub; VaDest x3] env st
  = ParseOk (<[ub := CBuf v]> (<[x1 := CInt z1]> env)) st'.
Proof.
  intros _ H1 Hg. unfold PyArg_ParseTuple. simpl.
  rewrite H1. simpl. rewrite Hg. reflexivity.
Qed.

Lemma parse_int_view_int x1 ub x3 z1 b z3 env st v st' :
  x1 ≠ ub → is_int z1 = true → is_int z3 = true →
  PyObject_GetBuffer b st = Some (v, st') →
  PyArg_ParseTuple [PyLong z1; PyBytes b; PyLong z3] (Format [F_i; F_ystar] [F_i])
    [VaDest x1; VaDest ub; VaDest x3] env st
  = ParseOk (<[x3 := CInt z3]> (<[ub := CBuf v]> (<[x1 := CInt z1]> env))) st'.
Proof.
  intros _ H1 H3 Hg. unfold PyArg_ParseTuple. simpl.
  rewrite H1. simpl. rewrite Hg. simpl. rewrite H3. reflexivity.
Qed.

(** Storing the parsed view in the request and committing the entry. *)
Lemma attach_view_exact self so slot st b bo e :
  sqe_heap st !! self = Some so → sqe so = Some slot →
  (slot < length (sqes (ring st)))%nat → bytes_heap st !! b = Some bo →
  (let? st2 :=
     upd_sqe self
       (with_user_buffer (mkPy_buffer (Some b) (PyBytes_AS_STRING b) (PyBytes_GET_SIZE bo)))
       (set_bytes_heap
          <[b := mkBytes (S (bytes_refcnt bo)) (ob_sval bo) (S (ob_exports bo))]> st) in
   prep_commit self e st2)
  = Ret PyNone (view_attached self so slot b bo e st).
Proof.
  intros Hso Hslot Hlt Hbo. unfold upd_sqe. simpl. rewrite Hso. simpl.
  unfold prep_commit. simpl. rewrite lookup_insert_eq. simpl. rewrite Hslot.
  unfold write_sqe. rewrite decide_True by exact Hlt. simpl.
  unfold record_opcode. simpl. rewrite lookup_insert_eq. simpl. rewrite Hslot.
  rewrite list_lookup_insert_eq by exact Hlt. simpl.
  unfold upd_sqe. simpl. rewrite lookup_insert_eq. simpl.
  unfold view_attached, set_sqe_heap, set_ring, set_bytes_heap. simpl.
  rewrite insert_insert_eq. reflexivity.
Qed.

(** The view attached by [prep_send] or [prep_write] is given back by the
    next release: the exporter has its count and its exports as before. *)
Lemma release_view_attached self so slot b bo e st :
  bytes_heap st !! b = Some bo → (0 < bytes_refcnt bo)%nat →
  allocated_buffer so = None →
  ∃ st2 so2,
    Sqe_reinit_buffer self (view_attached self so slot b bo e st) = Some st2
    ∧ bytes_heap st2 = bytes_heap st
    ∧ sqe_heap st2 !! self = Some so2
    ∧ buf_obj (user_buffer so2) = None ∧ allocated_buffer so2 = None.
Proof.
  intros Hbo Hpos Hb. unfold Sqe_reinit_buffer, view_attached. simpl.
  rewrite lookup_insert_eq. simpl.
  unfold PyBuffer_Release. simpl. rewrite lookup_insert_eq. simpl.
  unfold Py_DECREF_bytes. simpl. rewrite lookup_insert_eq. simpl.
  destruct (bytes_refcnt bo) as [|k] eqn:Hk; [lia|]. simpl.
  unfold upd_sqe. simpl. rewrite lookup_insert_eq. simpl.
  rewrite lookup_insert_eq. simpl. rewrite Hb.
  eexists _, _. split; [reflexivity|]. simpl.
  split.
  - rewrite !insert_insert_eq. apply insert_id. rewrite Hbo. f_equal.
    destruct bo. simpl in *. subst. reflexivity.
  - rewrite lookup_insert_eq. split; [reflexivity|]. split; [reflexivity|exact Hb].
Qed.

(** X7.  [prep_send(fd, buf[, flags])] and [prep_write(fd, buf[, offset])]
    on a request with a native slot and no buffer attached, for a live
    bytes object [buf]: the call returns [None] and the request holds a
    view on the caller's object, which has one more reference and one more
    export until the view is released; the slot holds the opcode, the
    descriptor, the address of the object's payload and its size (reduced
    to [int], then to [unsigned]: the size itself up to [INT_MAX]).  The
    third argument of [prep_write] is the file offset; when it is absent the
    offset comes from a local never assigned.  The next release gives the
    view back: the caller's object is exactly as before the prepare call. *)
Theorem prep_send_write_borrow st self so slot fd_ b bo x :
  sqe_heap st !! self = Some so → sqe so = Some slot →
  (slot < length (sqes (ring st)))%nat →
  allocated_buffer so = None → buf_obj (user_buffer so) = None →
  bytes_heap st !! b = Some bo → (0 < bytes_refcnt bo)%nat →
  is_int fd_ = true → is_int x = true →
  Sqe_prep_send self [PyLong fd_; PyBytes b; PyLong x] st
  = Ret PyNone
      (view_attached self so slot b bo
         (mkNSqe IORING_OP_SEND fd_ (Some 0) (PyBytes_AS_STRING b)
            (wrap_uint (wrap_int (PyBytes_GET_SIZE bo))) x 0) st)
  ∧ Sqe_prep_send self [PyLong fd_; PyBytes b] st
    = Ret PyNone
        (view_attached self so slot b bo
           (mkNSqe IORING_OP_SEND fd_ (Some 0) (PyBytes_AS_STRING b)
              (wrap_uint (wrap_int (PyBytes_GET_SIZE bo))) 0 0) st)
  ∧ Sqe_prep_write self [PyLong fd_; PyBytes b; PyLong x] st
    = Ret PyNone
        (view_attached self so slot b bo
           (mkNSqe IORING_OP_WRITE fd_ (Some (x mod 2 ^ 64)) (PyBytes_AS_STRING b)
              (wrap_uint (wrap_int (PyBytes_GET_SIZE bo))) 0 0) st)
  ∧ Sqe_prep_write self [PyLong fd_; PyBytes b] st
    = Ret PyNone
        (view_attached self so slot b bo
           (mkNSqe IORING_OP_WRITE fd_ None (PyBytes_AS_STRING b)
              (wrap_uint (wrap_int (PyBytes_GET_SIZE bo))) 0 0) st)
  ∧ (PyBytes_GET_SIZE bo ≤ INT_MAX →
     wrap_uint (wrap_int (PyBytes_GET_SIZE bo)) = PyBytes_GET_SIZE bo)
  ∧ ∀ e, ∃ st2 so2,
      Sqe_reinit_buffer self (view_attached self so slot b bo e st) = Some st2
      ∧ bytes_heap st2 = bytes_heap st
      ∧ sqe_heap st2 !! self = Some so2
      ∧ buf_obj (user_buffer so2) = None ∧ allocated_buffer so2 = None.
Proof.
  intros Hso Hslot Hlt Hb Hv Hbo Hpos Hfd Hx.
  pose proof (Sqe_reinit_buffer_empty self so st Hso Hb Hv) as Hre.
  assert (Hg : PyObject_GetBuffer b st
               = Some (mkPy_buffer (Some b) (PyBytes_AS_STRING b) (PyBytes_GET_SIZE bo),
                       set_bytes_heap
                         <[b := mkBytes (S (bytes_refcnt bo)) (ob_sval bo)
                                  (S (ob_exports bo))]> st)).
  { unfold PyObject_GetBuffer. rewrite Hbo. reflexivity. }
  split; [|split; [|split; [|split; [|split]]]].
  - unfold Sqe_prep_send. rewrite Hre, Hso.
    erewrite parse_int_view_int; [|discriminate|exact Hfd|exact Hx|exact Hg].
    etransitivity; [|exact (attach_view_exact self so slot st b bo _ Hso Hslot Hlt Hbo)].
    reflexivity.
  - unfold Sqe_prep_send. rewrite Hre, Hso.
    erewrite parse_int_view; [|discriminate|exact Hfd|exact Hg].
    etransitivity; [|exact (attach_view_exact self so slot st b bo _ Hso Hslot Hlt Hbo)].
    reflexivity.
  - unfold Sqe_prep_write. rewrite Hre, Hso.
    erewrite parse_int_view_int; [|discriminate|exact Hfd|exact Hx|exact Hg].
    etransitivity; [|exact (attach_view_exact self so slot st b bo _ Hso Hslot Hlt Hbo)].
    reflexivity.
  - unfold Sqe_prep_write. rewrite Hre, Hso.
    erewrite parse_int_view; [|discriminate|exact Hfd|exact Hg].
    etransitivity; [|exact (attach_view_exact self so slot st b bo _ Hso Hslot Hlt Hbo)].
    reflexivity.
  - intros Hsmall. unfold PyBytes_GET_SIZE in *.
    rewrite wrap_int_id by (unfold INT_MIN, INT_MAX in *; lia).
    unfold wrap_uint, INT_MAX in *. apply Z.mod_small. lia.
  - intros e. apply release_view_attached; assumption.
Qed.

Lemma prep_send_write_borrow_witness :
  Sqe_prep_send 1%positive [PyLong 3; PyBytes 7%positive; PyLong 0] session_with_message
  = Ret PyNone
      (view_attached 1%positive
         (mkSqe 2 (Some 0%nat) (-1) 0 (-1) None (mkPy_buffer None 0 0) PyNone None)
         0%nat 7%positive (mkBytes 1 [Byte.x61; Byte.x62; Byte.x63] 0)
         (mkNSqe IORING_OP_SEND 3 (Some 0) (PyBytes_AS_STRING 7%positive) 3 0 0)
         session_with_message)
  ∧ ∃ st2,
      Sqe_reinit_buffer 1%positive
        (view_attached 1%positive
           (mkSqe 2 (Some 0%nat) (-1) 0 (-1) None (mkPy_buffer None 0 0) PyNone None)
           0%nat 7%positive (mkBytes 1 [Byte.x61; Byte.x62; Byte.x63] 0)
           (mkNSqe IORING_OP_SEND 3 (Some 0) (PyBytes_AS_STRING 7%positive) 3 0 0)
           session_with_message) = Some st2
      ∧ bytes_heap st2 = bytes_heap session_with_message.
Proof.
  destruct (prep_send_write_borrow session_with_message 1%positive
              (mkSqe 2 (Some 0%nat) (-1) 0 (-1) None (mkPy_buffer None 0 0) PyNone None)
              0%nat 3 7%positive (mkBytes 1 [Byte.x61; Byte.x62; Byte.x63] 0) 0)
    as (H1 & _ & _ & _ & _ & H6).
  1-9: first [vm_compute; reflexivity | vm_compute; lia].
  split; [exact H1|].
  destruct (H6 (mkNSqe IORING_OP_SEND 3 (Some 0) (PyBytes_AS_STRING 7%positive) 3 0 0))
    as (st2 & so2 & R1 & R2 & _).
  exists st2. split; [exact R1|exact R2].
Defined.

Lemma prep_commit_exact self so slot e st :
  sqe_heap st !! self = Some so → sqe so = Some slot →
  (slot < length (sqes (ring st)))%nat →
  prep_commit self e st = Ret PyNone (committed self so slot e st).
Proof.
  intros Hso Hslot Hlt. unfold prep_commit. rewrite Hso, Hslot.
  unfold write_sqe. rewrite decide_True by exact Hlt.
  unfold record_opcode. simpl. rewrite Hso, Hslot.
  rewrite list_lookup_insert_eq by exact Hlt.
  unfold upd_sqe. simpl. rewrite Hso. reflexivity.
Qed.

(** X8.  [prep_cancel(target, flags)] writes the address of the target
    request, the value [submit] writes as that request's tag, into the
    address field of the slot, with opcode [ASYNC_CANCEL], descriptor [-1]
    and the flags reduced to [unsigned]; it takes no reference on the
    target and touches no buffer.  Both arguments are required: with the
    target alone, or with a first argument that is not a request object,
    the call raises [TypeError] and changes nothing. *)
Theorem prep_cancel_encodes_target st self so slot t fl :
  sqe_heap st !! self = Some so → sqe so = Some slot →
  (slot < length (sqes (ring st)))%nat →
  Sqe_prep_cancel self [PySqe t; PyLong fl] st
  = Ret PyNone
      (committed self so slot
         (mkNSqe IORING_OP_ASYNC_CANCEL (-1) (Some 0) (ptr_to_u64 t) 0 (wrap_uint fl) 0) st)
  ∧ Sqe_prep_cancel self [PySqe t] st = Raise TypeError st
  ∧ ∀ o, Py_TYPE o ≠ SqeType → Sqe_prep_cancel self [o; PyLong fl] st = Raise TypeError st.
Proof.
  intros Hso Hslot Hlt. split; [|split].
  - etransitivity; [|exact (prep_commit_exact self so slot _ st Hso Hslot Hlt)].
    reflexivity.
  - reflexivity.
  - intros o Ho. unfold Sqe_prep_cancel, PyArg_ParseTuple. simpl.
    rewrite decide_False by exact Ho. reflexivity.
Qed.

Lemma prep_cancel_encodes_target_witness :
  Sqe_prep_cancel 2%positive [PySqe 1%positive; PyLong 0] session_three_acquired
  = Ret PyNone
      (committed 2%positive
         (mkSqe 2 (Some 1%nat) (-1) 0 (-1) None (mkPy_buffer None 0 0) PyNone None)
         1%nat
         (mkNSqe IORING_OP_ASYNC_CANCEL (-1) (Some 0) (ptr_to_u64 1%positive) 0 0 0)
         session_three_acquired)
  ∧ Sqe_prep_cancel 2%positive [PySqe 1%positive] session_three_acquired
    = Raise TypeError session_three_acquired.
Proof.
  destruct (prep_cancel_encodes_target session_three_acquired 2%positive
              (mkSqe 2 (Some 1%nat) (-1) 0 (-1) None (mkPy_buffer None 0 0) PyNone None)
              1%nat 1%positive 0)
    as (H1 & H2 & _).
  1-3: first [vm_compute; reflexivity | vm_compute; lia].
  split; [exact H1|exact H2].
Defined.

(** ** Waiting on too few completions *)

Lemma wait_short r n ts :
  wrap_uint (cq_tail r - cq_head r) < n →
  io_uring_wait_cqes r n ts
  = match ts with Some _ => WaitDone (- ETIME) None | None => WaitForever end.
Proof.
  intros Hshort. unfold io_uring_wait_cqes.
  pose proof (Z.mod_pos_bound (cq_tail r - cq_head r) (2 ^ 32)) as Hb.
  fold (wrap_uint (cq_tail r - cq_head r)) in Hb.
  destruct (Z.leb_spec n (wrap_uint (cq_tail r - cq_head r))); [lia|].
  rewrite andb_false_r. destruct (Z.eqb_spec n 0); [lia|reflexivity].
Qed.

Lemma wait_empty_peek r ts :
  wrap_uint (cq_tail r - cq_head r) = 0 →
  io_uring_wait_cqes r 0 ts = WaitDone (- EAGAIN) None.
Proof.
  intros Hempty. unfold io_uring_wait_cqes. rewrite Hempty. reflexivity.
Qed.

(** X9.  [peek_cqe] never blocks, in any state.  On an empty completion
    queue it raises [OSError] with [EAGAIN] and changes nothing (it does not
    return [None]), while [wait_cqe] on an empty queue never returns. *)
Theorem peek_cqe_never_blocks :
  (∀ st, is_blocked (IoUring_peek_cqe st) = false)
  ∧ (∀ st, IoUring_cq_ready st = 0 →
       IoUring_peek_cqe st = Raise (OSError EAGAIN) st
       ∧ IoUring_wait_cqe st = Blocked).
Proof.
  split.
  - intros st. unfold IoUring_peek_cqe, IoUring_wait_single_cqe, io_uring_wait_cqe_nr.
    unfold io_uring_wait_cqes.
    destruct ((0 <? _) && (0 <=? _)); simpl.
    + destruct (wrap_cqe _ st) as [[c st1]|]; [|reflexivity].
      destruct (cqes (ring st1) !! _); [|reflexivity].
      destruct (upd_cqe c _ st1) as [st2|]; [|reflexivity].
      destruct (upd_cqe c _ st2); reflexivity.
    + reflexivity.
  - intros st Hempty. unfold IoUring_cq_ready in Hempty. split.
    + unfold IoUring_peek_cqe, IoUring_wait_single_cqe, io_uring_wait_cqe_nr.
      rewrite wait_empty_peek by exact Hempty. reflexivity.
    + unfold IoUring_wait_cqe, IoUring_wait_single_cqe, io_uring_wait_cqe_nr.
      rewrite wait_short by lia. reflexivity.
Qed.

(** X10.  A bulk wait for more completions than are ready, the count being
    the argument reduced to [unsigned]: [wait_cqe_nr(n)] and [wait_cqes(n)]
    never return; [wait_cqes(n, t)] with a non-zero timeout that converts to
    a timespec raises [OSError] with [ETIME] and changes nothing.  A wait
    for zero completions on an empty queue raises [OSError] with
    [EAGAIN]. *)
Theorem bulk_wait_on_too_few st n :
  (IoUring_cq_ready st < wrap_uint n →
     IoUring_wait_cqe_nr [PyLong n] st = Blocked
     ∧ IoUring_wait_cqes [PyLong n] st = Blocked
     ∧ ∀ t, CDouble.truth t = true → is_Some (timespec_of_double t) →
         IoUring_wait_cqes [PyLong n; PyFloat t] st = Raise (OSError ETIME) st)
  ∧ (IoUring_cq_ready st = 0 → wrap_uint n = 0 →
       IoUring_wait_cqe_nr [PyLong n] st = Raise (OSError EAGAIN) st
       ∧ IoUring_wait_cqes [PyLong n] st = Raise (OSError EAGAIN) st).
Proof.
  unfold IoUring_cq_ready. split.
  - intros Hshort. split; [|split].
    + rewrite wait_cqe_nr_unfold. unfold IoUring_wait_cqe_nr_impl, io_uring_wait_cqe_nr.
      rewrite wait_short by exact Hshort. reflexivity.
    + rewrite wait_cqes_unfold_absent, wait_cqes_timespec_zero.
      rewrite wait_short by exact Hshort. reflexivity.
    + intros t Ht [ts Hts]. rewrite wait_cqes_unfold. unfold wait_cqes_timespec.
      rewrite Ht, Hts. simpl. rewrite wait_short by exact Hshort. reflexivity.
  - intros Hempty Hzero. split.
    + rewrite wait_cqe_nr_unfold. unfold IoUring_wait_cqe_nr_impl, io_uring_wait_cqe_nr.
      rewrite Hzero, wait_empty_peek by exact Hempty. reflexivity.
    + rewrite wait_cqes_unfold_absent, wait_cqes_timespec_zero.
      rewrite Hzero, wait_empty_peek by exact Hempty. reflexivity.
Qed.

Lemma peek_cqe_never_blocks_witness :
  IoUring_peek_cqe session_initialised = Raise (OSError EAGAIN) session_initialised
  ∧ IoUring_wait_cqe session_initialised = Blocked.
Proof.
  destruct peek_cqe_never_blocks as [_ H].
  apply (H session_initialised). vm_compute; reflexivity.
Defined.

Lemma bulk_wait_on_too_few_witness :
  IoUring_wait_cqe_nr [PyLong 1] session_initialised = Blocked
  ∧ IoUring_wait_cqes [PyLong 1; PyFloat 0.5] session_initialised
    = Raise (OSError ETIME) session_initialised
  ∧ IoUring_wait_cqes [PyLong (2 ^ 32)] session_initialised
    = Raise (OSError EAGAIN) session_initialised.
Proof.
  destruct (bulk_wait_on_too_few session_initialised 1) as [H _].
  destruct H as (H1 & _ & H3); [vm_compute; reflexivity|].
  destruct (bulk_wait_on_too_few session_initialised (2 ^ 32)) as [_ H'].
  destruct H' as (_ & H5); [vm_compute; reflexivity|vm_compute; reflexivity|].
  split; [exact H1|]. split; [|exact H5].
  apply H3; [vm_compute; reflexivity|]. vm_compute. eexists. reflexivity.
Defined.

(** ** From the kernel's completion back to the request *)

(** A single retrieval of a completion tagged with a live request, in
    full. *)
Lemma wait_single_delivers n st g s so e :
  session_inv (st, g) → 0 < IoUring_cq_ready st → n ≤ 1 →
  cqes (ring st) !! head_slot st = Some e → u64_to_ptr (cqe_user_data e) = Some s →
  sqe_heap st !! s = Some so →
  ∃ c st' co so',
    IoUring_wait_single_cqe n st = Ret (PyCqe c) st'
    ∧ ring st' = ring st ∧ bytes_heap st' = bytes_heap st
    ∧ wait_submit st' = wait_submit st
    ∧ cqe_heap st' !! c = Some co ∧ cqe co = Some (head_slot st) ∧ sqeobj co = Some s
    ∧ sqe_heap st' !! s = Some so' ∧ cqeobj so' = Some c
    ∧ data so' = data so ∧ operation so' = operation so
    ∧ allocated_buffer so' = allocated_buffer so
    ∧ (cqeobj so = None →
       cqe_heap st !! c = None ∧ sqe_refcnt so' = S (sqe_refcnt so)
       ∧ cqe_refcnt co = 1%nat ∧ seen co = false)
    ∧ (∀ c0, cqeobj so = Some c0 → c = c0 ∧ sqe_refcnt so' = sqe_refcnt so).
Proof.
  intros Hinv Hready Hn He Hs Hso. unfold IoUring_cq_ready in Hready.
  destruct (wrap_cqe_total (head_slot st) st g s Hinv) as (c & st1 & Hw).
  { exists e. eauto. }
  pose proof Hw as Hspec.
  apply wrap_cqe_spec in Hspec as (e' & s' & so0 & He' & Hs' & Hso0 & Hcase).
  assert (e' = e) as -> by congruence. assert (s' = s) as -> by congruence.
  assert (so0 = so) as -> by congruence.
  unfold IoUring_wait_single_cqe, io_uring_wait_cqe_nr.
  rewrite ready_wait by lia. simpl. fold (head_slot st). rewrite Hw. simpl.
  destruct Hcase as [(Hnone & -> & ->) | (Hsome & co & Hco & ->)]; simpl.
  - fold (head_slot st). rewrite He. unfold upd_cqe. simpl.
    rewrite lookup_insert_eq. simpl. rewrite lookup_insert_eq. simpl.
    eexists _, _, _, _. split; [reflexivity|]. simpl.
    rewrite !lookup_insert_eq. rewrite Hs. simpl.
    repeat (split; [reflexivity|]). split.
    + intros _. split; [apply not_elem_of_dom, is_fresh|]. repeat split.
    + intros c0 Hc0. congruence.
  - fold (head_slot st). rewrite He. unfold upd_cqe. simpl.
    rewrite lookup_insert_eq. simpl. rewrite lookup_insert_eq. simpl.
    eexists _, _, _, _. split; [reflexivity|]. simpl.
    rewrite !lookup_insert_eq. rewrite Hs. simpl.
    repeat (split; [reflexivity|]).
    split; [exact Hso|]. split; [exact Hsome|].
    repeat (split; [reflexivity|]). split.
    + intros Hnone. congruence.
    + intros c0 Hc0. split; [congruence|reflexivity].
Qed.

(** X11.  In a reachable state with an empty completion queue, when the
    kernel posts a completion carrying the address of a live request as its
    tag, with result [r]: [wait_cqe] returns a wrapper of that very request,
    which the request now caches; [res] on the wrapper returns [r],
    [get_data] returns the request's data object, and one completion is
    ready until it is acknowledged. *)
Theorem completion_reaches_its_request st s so r fl :
  reachable st → sqe_heap st !! s = Some so →
  cq_head (ring st) = cq_tail (ring st) →
  (cq_slot (ring st) (cq_tail (ring st)) < length (cqes (ring st)))%nat →
  ∃ c st' co so',
    IoUring_wait_cqe (kernel_posts (mkNCqe (ptr_to_u64 s) r fl) st) = Ret (PyCqe c) st'
    ∧ cqe_heap st' !! c = Some co ∧ sqeobj co = Some s
    ∧ sqe_heap st' !! s = Some so' ∧ cqeobj so' = Some c
    ∧ Cqe_res c st' = Ret (PyLong r) st'
    ∧ Cqe_get_data c st' = Ret (data so) st'
    ∧ IoUring_cq_ready st' = 1.
Proof.
  intros Hreach Hso Hempty Hlt. destruct (reachable_inv st Hreach) as [g Hinv].
  set (e := mkNCqe (ptr_to_u64 s) r fl).
  set (slot := cq_slot (ring st) (cq_tail (ring st))) in *.
  set (r' := with_cq (<[slot := e]> (cqes (ring st))) (cq_head (ring st))
               (wrap_uint (cq_tail (ring st) + 1)) (ring st)).
  assert (Hpost : kernel_posts e st = set_ring (λ _, r') st).
  { unfold kernel_posts, kernel_post. rewrite Hempty, Z.sub_diag.
    unfold cq_ring_entries.
    destruct (Z.ltb_spec (wrap_uint 0) (Z.of_nat (length (cqes (ring st))))) as [_|Hle].
    - unfold r'. rewrite Hempty. reflexivity.
    - unfold wrap_uint in Hle. rewrite Z.mod_0_l in Hle by lia. lia. }
  assert (Hhead : head_slot (set_ring (λ _, r') st) = slot).
  { unfold head_slot, cq_slot, cq_ring_entries, r'. simpl.
    rewrite length_insert, Hempty. reflexivity. }
  assert (Hready : IoUring_cq_ready (set_ring (λ _, r') st) = 1).
  { unfold IoUring_cq_ready, r'. simpl. rewrite Hempty.
    unfold wrap_uint. rewrite Zminus_mod_idemp_l.
    replace (cq_tail (ring st) + 1 - cq_tail (ring st)) with 1 by lia. reflexivity. }
  assert (Hinv' : session_inv (set_ring (λ _, r') st, g)).
  { unfold session_inv in *. simpl in *. apply inv_set_ring. exact Hinv. }
  destruct (wait_single_delivers 1 (set_ring (λ _, r') st) g s so e Hinv')
    as (c & st' & co & so' & Hret & Hring & _ & _ & Hco & Hcqe & Hsq & Hso' & Hcache
        & Hdata & _).
  { rewrite Hready. lia. }
  { lia. }
  { rewrite Hhead. unfold r'. simpl. apply list_lookup_insert_eq. exact Hlt. }
  { reflexivity. }
  { exact Hso. }
  exists c, st', co, so'. rewrite Hpost. split; [exact Hret|].
  split; [exact Hco|]. split; [exact Hsq|]. split; [exact Hso'|]. split; [exact Hcache|].
  split.
  { unfold Cqe_res. rewrite Hco, Hcqe, Hring, Hhead. unfold r'. simpl.
    rewrite list_lookup_insert_eq by exact Hlt. reflexivity. }
  split.
  { unfold Cqe_get_data. rewrite Hco, Hsq, Hso', Hdata. reflexivity. }
  unfold IoUring_cq_ready in *. rewrite Hring. exact Hready.
Qed.

Lemma session_submitted_reachable : reachable session_submitted.1.
Proof.
  exists no_inet_pton, 4, session_submitted_calls, session_submitted.2.
  vm_compute; reflexivity.
Defined.

Lemma completion_reaches_its_request_witness :
  ∃ c st',
    IoUring_wait_cqe (kernel_posts (mkNCqe (ptr_to_u64 1%positive) 5 0) session_submitted.1)
    = Ret (PyCqe c) st'
    ∧ Cqe_res c st' = Ret (PyLong 5) st'
    ∧ Cqe_get_data c st' = Ret PyNone st'.
Proof.
  edestruct (completion_reaches_its_request session_submitted.1 1%positive)
    with (r := 5) (fl := 0)
    as (c & st' & co & so' & H1 & _ & _ & _ & _ & H6 & H7 & _).
  - exact session_submitted_reachable.
  - vm_compute; reflexivity.
  - vm_compute; reflexivity.
  - vm_compute; lia.
  - exists c, st'. split; [exact H1|]. split; [exact H6|exact H7].
Defined.

(** ** Reference counts over whole sessions *)

Lemma occurrences_elem s l : s ∈ l → (0 < occurrences s l)%nat.
Proof.
  induction l as [|a l IH]; intros Hin.
  - apply elem_of_nil in Hin. contradiction.
  - rewrite occurrences_cons. apply elem_of_cons in Hin as [->|Hin].
    + rewrite decide_True by reflexivity. lia.
    + specialize (IH Hin). lia.
Qed.




Lemma all_counts_zero (m : gmap addr nat) :
  map_Forall (λ _ v, v = 0%nat) m → ∀ a, m !!! a = 0%nat.
Proof.
  intros Hall a. unfold lookup_total, map_lookup_total.
  destruct (m !! a) as [v|] eqn:E; [exact (Hall a v E)|reflexivity].
Qed.


(** ** The owned buffer at the end of a request's life *)

(** The last reference to a wrapper goes while the wrapper holds the last
    reference to its request, which owns the buffer [b] and holds no
    view. *)
Lemma destroy_wrapper_and_request c co s so b bo st :
  cqe_heap st !! c = Some co → cqe_refcnt co = 1%nat → sqeobj co = Some s →
  sqe_heap st !! s = Some so → sqe_refcnt so = 1%nat →
  buf_obj (user_buffer so) = None → allocated_buffer so = Some b →
  bytes_heap st !! b = Some bo → (0 < bytes_refcnt bo)%nat →
  ∃ st1,
    Py_DECREF_cqe c st = Some st1
    ∧ sqe_heap st1 = delete s (sqe_heap st)
    ∧ cqe_heap st1 = delete c (cqe_heap st)
    ∧ bytes_heap st1
      = match bytes_refcnt bo with
        | 1%nat => delete b (bytes_heap st)
        | n => <[b := with_bytes_refcnt (pred n) bo]> (bytes_heap st)
        end
    ∧ ring st1 = ring st ∧ wait_submit st1 = wait_submit st.
Proof.
  intros Hco Hone Hsq Hso Hsone Hv Hb Hbo Hpos.
  unfold Py_DECREF_cqe, Cqe_dealloc. rewrite Hco. simpl. rewrite Hone, Hsq. simpl.
  unfold upd_sqe at 1. rewrite Hso. simpl.
  unfold Py_DECREF_sqe. simpl. rewrite lookup_insert_eq. simpl. rewrite Hsone.
  unfold Sqe_dealloc, Sqe_reinit_buffer. simpl. rewrite lookup_insert_eq. simpl.
  rewrite Hv. simpl. rewrite lookup_insert_eq. simpl. rewrite Hb.
  unfold Py_DECREF_bytes. simpl. rewrite Hbo. simpl.
  destruct (bytes_refcnt bo) as [|[|k]] eqn:Hk; [lia| |]; simpl.
  - unfold upd_sqe. simpl. rewrite lookup_insert_eq. simpl.
    eexists. split; [reflexivity|]. simpl.
    rewrite insert_insert_eq, delete_insert_eq. repeat split.
  - unfold upd_sqe. simpl. rewrite lookup_insert_eq. simpl.
    eexists. split; [reflexivity|]. simpl.
    rewrite insert_insert_eq, delete_insert_eq. repeat split.
Qed.



(** ** Wrappers and the completion array *)

(** X15.  A wrapper keeps a pointer into the completion array, not a copy
    of the entry: when the kernel posts a later completion into the slot
    the wrapper points at (the slot having come round to the tail), [res]
    on the old wrapper returns the new completion's result. *)
Theorem wrapper_reads_slot_at_call_time st c co slot e' :
  cqe_heap st !! c = Some co → cqe co = Some slot →
  cq_slot (ring st) (cq_tail (ring st)) = slot →
  (slot < length (cqes (ring st)))%nat →
  IoUring_cq_ready st < cq_ring_entries (ring st) →
  Cqe_res c (kernel_posts e' st) = Ret (PyLong (res e')) (kernel_posts e' st).
Proof.
  intros Hco Hslot Htail Hlt Hroom. unfold IoUring_cq_ready in Hroom.
  unfold kernel_posts, kernel_post.
  destruct (Z.ltb_spec (wrap_uint (cq_tail (ring st) - cq_head (ring st)))
              (cq_ring_entries (ring st))); [|lia].
  unfold Cqe_res. simpl. rewrite Hco, Hslot, Htail.
  rewrite list_lookup_insert_eq by exact Hlt. reflexivity.
Qed.

Lemma wrapper_reads_slot_at_call_time_witness :
  Cqe_res 1%positive session_ring_wrapped.1 = Ret (PyLong 0) session_ring_wrapped.1
  ∧ Cqe_res 1%positive (kernel_posts (mkNCqe 9 (-5) 0) session_ring_wrapped.1)
    = Ret (PyLong (-5)) (kernel_posts (mkNCqe 9 (-5) 0) session_ring_wrapped.1).
Proof.
  split; [vm_compute; reflexivity|].
  eapply (wrapper_reads_slot_at_call_time session_ring_wrapped.1 1%positive _ 0%nat
            (mkNCqe 9 (-5) 0)).
  - vm_compute; reflexivity.
  - vm_compute; reflexivity.
  - vm_compute; reflexivity.
  - vm_compute; lia.
  - vm_compute; reflexivity.
Defined.

(** The loop of the bulk retrievals only completes when every index it
    uses lies in the completion array. *)
Lemma wait_loop_in_bounds n : ∀ base i st l st',
  wait_loop n (Some base) i st = Some (l, st') →
  n = 0%nat ∨ (base + i + n ≤ length (cqes (ring st)))%nat.
Proof.
  induction n as [|n IH]; intros base i st l st' H; [left; reflexivity|right].
  simpl in H.
  destruct (wrap_cqe (base + i) st) as [[c st1]|] eqn:Hw; [|discriminate]. simpl in H.
  destruct (wait_loop n (Some base) (S i) st1) as [[l1 st2]|] eqn:Hl; [|discriminate].
  destruct (wrap_cqe_keeps _ _ _ _ Hw) as [Hring _].
  apply wrap_cqe_spec in Hw as (e & _ & _ & He & _).
  apply lookup_lt_Some in He.
  destruct (IH _ _ _ _ _ Hl) as [->|Hle]; [lia|]. rewrite Hring in Hle. lia.
Qed.

(** X16.  The bulk retrievals address the [n] entries as [cqes + i] from
    the head entry, without the ring mask: when the [n] completions waited
    for are ready but wrap around the end of the completion array, the
    loop reads past the array and the call has no defined result. *)
Theorem bulk_wait_reads_past_array st n :
  0 < wrap_uint n → wrap_uint n ≤ IoUring_cq_ready st →
  (length (cqes (ring st)) < head_slot st + Z.to_nat (wrap_uint n))%nat →
  IoUring_wait_cqe_nr [PyLong n] st = Undefined
  ∧ IoUring_wait_cqes [PyLong n] st = Undefined
  ∧ ∀ t, is_Some (wait_cqes_timespec t) →
      IoUring_wait_cqes [PyLong n; PyFloat t] st = Undefined.
Proof.
  intros Hpos Hready Hpast. unfold IoUring_cq_ready in Hready.
  assert (Hloop : wait_loop (Z.to_nat (wrap_uint n)) (Some (head_slot st)) 0 st = None).
  { destruct (wait_loop _ _ _ _) as [[l st']|] eqn:Hl; [|reflexivity].
    apply wait_loop_in_bounds in Hl as [Hz|Hle]; lia. }
  assert (Hwait : ∀ ts, io_uring_wait_cqes (ring st) (wrap_uint n) ts
                        = WaitDone 0 (Some (head_slot st))).
  { intros ts. apply ready_wait; lia. }
  split; [|split].
  - rewrite wait_cqe_nr_unfold. unfold IoUring_wait_cqe_nr_impl, io_uring_wait_cqe_nr.
    rewrite Hwait. simpl. rewrite Hloop. reflexivity.
  - rewrite wait_cqes_unfold_absent, wait_cqes_timespec_zero, Hwait. simpl.
    rewrite Hloop. reflexivity.
  - intros t [ts Hts]. rewrite wait_cqes_unfold, Hts, Hwait. simpl.
    rewrite Hloop. reflexivity.
Qed.

Lemma bulk_wait_reads_past_array_witness :
  IoUring_cq_ready session_head_at_end = 2
  ∧ IoUring_wait_cqe_nr [PyLong 2] session_head_at_end = Undefined
  ∧ IoUring_wait_cqes [PyLong 2] session_head_at_end = Undefined.
Proof.
  split; [vm_compute; reflexivity|].
  destruct (bulk_wait_reads_past_array session_head_at_end 2) as (H1 & H2 & _).
  - vm_compute; reflexivity.
  - vm_compute; discriminate.
  - vm_compute; lia.
  - split; [exact H1|exact H2].
Defined.

(** ** Socket addresses and timeouts *)

Lemma parse_int_tuple x1 x2 z1 items env st :
  is_int z1 = true →
  PyArg_ParseTuple [PyLong z1; PyTuple items] (Format [F_i; F_Obang] [])
    [VaDest x1; VaType PyTuple_Type; VaDest x2] env st
  = ParseOk (<[x2 := CObj (PyTuple items)]> (<[x1 := CInt z1]> env)) st.
Proof.
  intros H1. unfold PyArg_ParseTuple. simpl. rewrite H1. reflexivity.
Qed.

Lemma port_bytes_mod p q :
  p mod 65536 = q mod 65536 →
  byte_of_Z (p / 256) = byte_of_Z (q / 256) ∧ byte_of_Z p = byte_of_Z q.
Proof.
  intros H. unfold byte_of_Z. split; do 3 f_equal.
  - Z.div_mod_to_equations. lia.
  - Z.div_mod_to_equations. lia.
Qed.



Lemma parse_accept_args z1 z2 env st :
  is_int z1 = true → is_int z2 = true →
  PyArg_ParseTuple [PyLong z1; PyLong z2] (Format [F_i] [F_i])
    [VaDest "fd"; VaDest "flags"] env st
  = ParseOk (<["flags" := CInt z2]> (<["fd" := CInt z1]> env)) st
  ∧ PyArg_ParseTuple [PyLong z1] (Format [F_i] [F_i])
      [VaDest "fd"; VaDest "flags"] env st
    = ParseOk (<["fd" := CInt z1]> env) st.
Proof.
  intros H1 H2. unfold PyArg_ParseTuple. simpl. rewrite H1. simpl. rewrite H2.
  split; reflexivity.
Qed.

(** X18.  [prep_accept(fd[, flags])] and
    [prep_timeout(timeout[, count[, flags]])] on a request with a native
    slot and no buffer attached.  [prep_accept] attaches a 20-byte buffer,
    sixteen bytes for the peer address followed by the length field preset
    to 16, and the slot points at both: the address field at the buffer,
    the offset field sixteen bytes further.  [prep_timeout] attaches the
    16-byte timespec of the timeout, seconds then nanoseconds, and the slot
    has length 1, the completion count in the offset field and the flags;
    count and flags are 0 when absent.  A timeout that does not convert to
    a timespec leaves defined behaviour. *)
Theorem prep_accept_timeout_encode st self so slot fd_ fl t cnt ts b :
  sqe_heap st !! self = Some so → sqe so = Some slot →
  (slot < length (sqes (ring st)))%nat →
  allocated_buffer so = None → buf_obj (user_buffer so) = None →
  is_int fd_ = true → is_int fl = true → timespec_of_double t = Some ts →
  b = fresh (dom (bytes_heap st)) →
  Sqe_prep_accept self [PyLong fd_; PyLong fl] st
  = Ret PyNone
      (owned_attached self so slot b (replicate 16 Byte.x00 ++ le_bytes 4 16)
         (mkNSqe IORING_OP_ACCEPT fd_ (Some (PyBytes_AS_STRING b + 16))
            (PyBytes_AS_STRING b) 0 fl 0) st)
  ∧ Sqe_prep_accept self [PyLong fd_] st
    = Ret PyNone
        (owned_attached self so slot b (replicate 16 Byte.x00 ++ le_bytes 4 16)
           (mkNSqe IORING_OP_ACCEPT fd_ (Some (PyBytes_AS_STRING b + 16))
              (PyBytes_AS_STRING b) 0 0 0) st)
  ∧ Sqe_prep_timeout self [PyFloat t; PyLong cnt; PyLong fl] st
    = Ret PyNone
        (owned_attached self so slot b (le_bytes 8 (tv_sec ts) ++ le_bytes 8 (tv_nsec ts))
           (mkNSqe IORING_OP_TIMEOUT (-1) (Some (wrap_uint cnt)) (PyBytes_AS_STRING b) 1
              (wrap_uint fl) 0) st)
  ∧ Sqe_prep_timeout self [PyFloat t] st
    = Ret PyNone
        (owned_attached self so slot b (le_bytes 8 (tv_sec ts) ++ le_bytes 8 (tv_nsec ts))
           (mkNSqe IORING_OP_TIMEOUT (-1) (Some 0) (PyBytes_AS_STRING b) 1 0 0) st)
  ∧ ∀ t', timespec_of_double t' = None → Sqe_prep_timeout self [PyFloat t'] st = Undefined.
Proof.
  intros Hso Hslot Hlt Hb Hv Hfd Hfl Hts ->.
  pose proof (Sqe_reinit_buffer_empty self so st Hso Hb Hv) as Hre.
  destruct (parse_accept_args fd_ fl {[ "flags" := CInt 0 ]} st Hfd Hfl) as [Hp2 Hp1].
  split; [|split; [|split; [|split]]].
  - unfold Sqe_prep_accept. rewrite Hre, Hp2.
    etransitivity;
      [exact (attach_owned_exact self so slot st
                (Some (replicate 16 Byte.x00 ++ le_bytes 4 sizeof_sockaddr_in)) 20
                (λ b, with_op_flags fl
                        (io_uring_prep_rw IORING_OP_ACCEPT fd_ (PyBytes_AS_STRING b) 0
                           (Some (PyBytes_AS_STRING b + sizeof_sockaddr_in))))
                Hso Hslot Hlt ltac:(lia))|].
    reflexivity.
  - unfold Sqe_prep_accept. rewrite Hre, Hp1.
    etransitivity;
      [exact (attach_owned_exact self so slot st
                (Some (replicate 16 Byte.x00 ++ le_bytes 4 sizeof_sockaddr_in)) 20
                (λ b, with_op_flags 0
                        (io_uring_prep_rw IORING_OP_ACCEPT fd_ (PyBytes_AS_STRING b) 0
                           (Some (PyBytes_AS_STRING b + sizeof_sockaddr_in))))
                Hso Hslot Hlt ltac:(lia))|].
    reflexivity.
  - unfold Sqe_prep_timeout. rewrite Hre.
    change (PyArg_ParseTuple [PyFloat t; PyLong cnt; PyLong fl] _ _ _ st)
      with (ParseOk (<["flags" := CInt (wrap_uint fl)]>
                       (<["count" := CInt (wrap_uint cnt)]>
                          (<["timeout" := CDouble t]>
                             {[ "count" := CInt 0; "flags" := CInt 0 ]}))) st).
    cbv iota beta.
    change (get_double _ "timeout") with (Some t). cbv iota beta.
    change (get_int _ "count") with (Some (wrap_uint cnt)). cbv iota beta.
    change (get_int _ "flags") with (Some (wrap_uint fl)). cbv iota beta.
    rewrite Hts.
    etransitivity;
      [exact (attach_owned_exact self so slot st
                (Some (le_bytes 8 (tv_sec ts) ++ le_bytes 8 (tv_nsec ts))) 16
                (λ b, with_op_flags (wrap_uint fl)
                        (io_uring_prep_rw IORING_OP_TIMEOUT (-1) (PyBytes_AS_STRING b) 1
                           (Some (wrap_uint cnt))))
                Hso Hslot Hlt ltac:(lia))|].
    reflexivity.
  - unfold Sqe_prep_timeout. rewrite Hre.
    change (PyArg_ParseTuple [PyFloat t] _ _ _ st)
      with (ParseOk (<["timeout" := CDouble t]>
                       {[ "count" := CInt 0; "flags" := CInt 0 ]}) st).
    cbv iota beta.
    change (get_double _ "timeout") with (Some t). cbv iota beta.
    change (get_int _ "count") with (Some 0). cbv iota beta.
    change (get_int _ "flags") with (Some 0). cbv iota beta.
    rewrite Hts.
    etransitivity;
      [exact (attach_owned_exact self so slot st
                (Some (le_bytes 8 (tv_sec ts) ++ le_bytes 8 (tv_nsec ts))) 16
                (λ b, with_op_flags 0
                        (io_uring_prep_rw IORING_OP_TIMEOUT (-1) (PyBytes_AS_STRING b) 1
                           (Some 0)))
                Hso Hslot Hlt ltac:(lia))|].
    reflexivity.
  - intros t' Hnone. unfold Sqe_prep_timeout. rewrite Hre.
    change (PyArg_ParseTuple [PyFloat t'] _ _ _ st)
      with (ParseOk (<["timeout" := CDouble t']>
                       {[ "count" := CInt 0; "flags" := CInt 0 ]}) st).
    cbv iota beta.
    change (get_double _ "timeout") with (Some t'). cbv iota beta.
    change (get_int _ "count") with (Some 0). cbv iota beta.
    change (get_int _ "flags") with (Some 0). cbv iota beta.
    rewrite Hnone. reflexivity.
Qed.

Lemma prep_accept_timeout_encode_witness :
  Sqe_prep_accept 1%positive [PyLong 3] session_acquired
  = Ret PyNone
      (owned_attached 1%positive
         (mkSqe 2 (Some 0%nat) (-1) 0 (-1) None (mkPy_buffer None 0 0) PyNone None)
         0%nat 1%positive
         (replicate 16 Byte.x00 ++ [Byte.x10; Byte.x00; Byte.x00; Byte.x00])
         (mkNSqe IORING_OP_ACCEPT 3 (Some (PyBytes_AS_STRING 1%positive + 16))
            (PyBytes_AS_STRING 1%positive) 0 0 0)
         session_acquired)
  ∧ Sqe_prep_timeout 1%positive [PyFloat 1.5; PyLong 2; PyLong 0] session_acquired
    = Ret PyNone
        (owned_attached 1%positive
           (mkSqe 2 (Some 0%nat) (-1) 0 (-1) None (mkPy_buffer None 0 0) PyNone None)
           0%nat 1%positive
           (le_bytes 8 1 ++ le_bytes 8 500000000)
           (mkNSqe IORING_OP_TIMEOUT (-1) (Some 2) (PyBytes_AS_STRING 1%positive) 1 0 0)
           session_acquired).
Proof.
  destruct (prep_accept_timeout_encode session_acquired 1%positive
              (mkSqe 2 (Some 0%nat) (-1) 0 (-1) None (mkPy_buffer None 0 0) PyNone None)
              0%nat 3 0 1.5%float 2 (Timespec 1 500000000) 1%positive)
    as (_ & H2 & H3 & _).
  1-9: first [vm_compute; reflexivity | vm_compute; lia].
  split; [exact H2|exact H3].
Defined.

(** ** Decoding into a shared buffer *)

(** X19.  [getresult] on a read or recv completion whose buffer is not
    empty, is referenced more than once (the caller kept an earlier decoded
    result) and has a size other than the result: the resize is refused,
    the call raises [SystemError], the request's buffer pointer is left
    [NULL] and the old object has lost the request's reference.  A further
    [getresult] on the wrapper reads through the [NULL] pointer. *)
Theorem getresult_shared_buffer_fails st c s so r b bo k :
  decodes st c s so r → 0 ≤ r → is_read_or_recv (operation so) = true →
  allocated_buffer so = Some b → bytes_heap st !! b = Some bo →
  bytes_refcnt bo = S (S k) → 0 < PyBytes_GET_SIZE bo → PyBytes_GET_SIZE bo ≠ r →
  ∃ st',
    Cqe_getresult c st = Raise SystemError st'
    ∧ sqe_heap st' !! s = Some (with_allocated_buffer None so)
    ∧ bytes_heap st' = <[b := with_bytes_refcnt (S k) bo]> (bytes_heap st)
    ∧ Cqe_getresult c st' = Undefined.
Proof.
  intros Hdec Hr Hop Hb Hbo Hcnt _ Hsize.
  destruct Hdec as (co & slot & e & Hco & Hs & Hso & Hslot & He & Hres).
  unfold is_read_or_recv in Hop.
  assert (Hnop : (operation so =? IORING_OP_NOP) = false).
  { apply orb_prop in Hop as [H|H]; apply Z.eqb_eq in H; rewrite H; reflexivity. }
  assert (Hstart : ∀ st0,
            cqe_heap st0 = cqe_heap st → ring st0 = ring st →
            ∀ so0, sqe_heap st0 !! s = Some so0 → operation so0 = operation so →
            Cqe_getresult c st0
            = match allocated_buffer so0 with
              | Some b0 =>
                  match bytes_heap st0 !! b0 with
                  | Some bo0 =>
                      if negb (r =? PyBytes_GET_SIZE bo0) then
                        let? (pv, rc, st1) := _PyBytes_Resize b0 r st0 in
                        let? st2 := upd_sqe s (with_allocated_buffer pv) st1 in
                        if negb (rc =? 0) then Raise SystemError st2
                        else
                          let? b' := pv in
                          let? st3 := Py_INCREF_bytes b' st2 in Ret (PyBytes b') st3
                      else let? st1 := Py_INCREF_bytes b0 st0 in Ret (PyBytes b0) st1
                  | None => Undefined
                  end
              | None => Undefined
              end).
  { intros st0 Hc0 Hr0 so0 Hso0 Hop0. unfold Cqe_getresult.
    rewrite Hc0, Hco. simpl. rewrite Hs. simpl. rewrite Hso0. simpl.
    rewrite Hslot. simpl. rewrite Hr0, He. simpl. rewrite Hres, Hop0.
    destruct (Z.ltb_spec r 0); [lia|]. rewrite Hnop, Hop. reflexivity. }
  rewrite (Hstart st eq_refl eq_refl so Hso eq_refl), Hb, Hbo.
  destruct (Z.eqb_spec r (PyBytes_GET_SIZE bo)) as [Heq|_]; [congruence|]. simpl.
  unfold _PyBytes_Resize. rewrite Hbo. simpl.
  destruct (Z.ltb_spec r 0); [lia|].
  destruct (Z.eqb_spec (PyBytes_GET_SIZE bo) r) as [Heq|_]; [congruence|].
  rewrite Hcnt. simpl.
  unfold Py_DECREF_bytes. rewrite Hbo. simpl. rewrite Hcnt. simpl.
  unfold upd_sqe. simpl. rewrite Hso. simpl.
  eexists. split; [reflexivity|]. simpl.
  split; [apply lookup_insert_eq|]. split; [reflexivity|].
  erewrite Hstart; [|reflexivity|reflexivity|simpl; apply lookup_insert_eq|reflexivity].
  reflexivity.
Qed.

Lemma getresult_shared_buffer_fails_witness :
  ∃ st',
    Cqe_getresult 1%positive session_slot_reused.1 = Raise SystemError st'
    ∧ allocated_buffer <$> sqe_heap st' !! 1%positive = Some None
    ∧ Cqe_getresult 1%positive st' = Undefined.
Proof.
  edestruct (getresult_shared_buffer_fails session_slot_reused.1 1%positive)
    with (s := 1%positive) (r := 4) (b := 1%positive) (k := 0%nat)
    as (st' & H1 & H2 & _ & H4).
  - unfold decodes. eexists _, _, _.
    split; [vm_compute; reflexivity|].
    split; [vm_compute; reflexivity|].
    split; [vm_compute; reflexivity|].
    split; [vm_compute; reflexivity|].
    split; vm_compute; reflexivity.
  - lia.
  - vm_compute; reflexivity.
  - vm_compute; reflexivity.
  - vm_compute; reflexivity.
  - vm_compute; reflexivity.
  - vm_compute; reflexivity.
  - vm_compute; discriminate.
  - exists st'. split; [exact H1|].
    split; [exact (f_equal (fmap allocated_buffer) H2)|exact H4].
Defined.

(** ** Prepare calls that attach nothing *)

(** X20.  On a request with a native slot: [prep_nop] writes a no-op entry
    and [prep_close(fd)] a close entry for the descriptor, both with
    [user_data] reset to zero, and each records its opcode; [prep_openat]
    ignores its arguments and writes nothing to the slot: it only copies
    the opcode the slot currently holds into the request.  None of the
    three touches a buffer.  [prep_close] without argument raises
    [TypeError], with a descriptor that is no [int] [OverflowError], and
    changes nothing. *)
Theorem prep_nop_close_openat_encode st self so slot e0 fd_ :
  sqe_heap st !! self = Some so → sqe so = Some slot →
  sqes (ring st) !! slot = Some e0 → is_int fd_ = true →
  Sqe_prep_nop self st
  = Ret PyNone (committed self so slot (mkNSqe IORING_OP_NOP (-1) (Some 0) 0 0 0 0) st)
  ∧ Sqe_prep_close self [PyLong fd_] st
    = Ret PyNone (committed self so slot (mkNSqe IORING_OP_CLOSE fd_ (Some 0) 0 0 0 0) st)
  ∧ (∀ args, Sqe_prep_openat self args st
             = Ret PyNone (set_sqe_heap <[self := with_operation (opcode e0) so]> st))
  ∧ Sqe_prep_close self [] st = Raise TypeError st
  ∧ (∀ z, is_int z = false → Sqe_prep_close self [PyLong z] st = Raise OverflowError st).
Proof.
  intros Hso Hslot He0 Hfd. pose proof (lookup_lt_Some _ _ _ He0) as Hlt.
  split; [|split; [|split; [|split]]].
  - apply prep_commit_exact; assumption.
  - unfold Sqe_prep_close, PyArg_ParseTuple. simpl. rewrite Hfd.
    etransitivity; [|exact (prep_commit_exact self so slot _ st Hso Hslot Hlt)].
    reflexivity.
  - intros args. unfold Sqe_prep_openat, record_opcode. rewrite Hso, Hslot, He0.
    unfold upd_sqe. rewrite Hso. reflexivity.
  - reflexivity.
  - intros z Hz. unfold Sqe_prep_close, PyArg_ParseTuple. simpl. rewrite Hz. reflexivity.
Qed.

Lemma prep_nop_close_openat_encode_witness :
  Sqe_prep_close 1%positive [PyLong 3] session_acquired
  = Ret PyNone
      (committed 1%positive
         (mkSqe 2 (Some 0%nat) (-1) 0 (-1) None (mkPy_buffer None 0 0) PyNone None)
         0%nat (mkNSqe IORING_OP_CLOSE 3 (Some 0) 0 0 0 0) session_acquired)
  ∧ Sqe_prep_openat 1%positive [PyUnicode "file"] session_acquired
    = Ret PyNone
        (set_sqe_heap
           <[1%positive :=
               mkSqe 2 (Some 0%nat) (-1) 0 IORING_OP_NOP None (mkPy_buffer None 0 0)
                 PyNone None]> session_acquired).
Proof.
  destruct (prep_nop_close_openat_encode session_acquired 1%positive
              (mkSqe 2 (Some 0%nat) (-1) 0 (-1) None (mkPy_buffer None 0 0) PyNone None)
              0%nat blank_sqe 3)
    as (_ & H2 & H3 & _).
  1-4: vm_compute; reflexivity.
  split; [exact H2|apply H3].
Defined.

(** ** Destroying the ring object ([IoUring_dealloc]) *)

(** The pending list's references counted with the program's, the list
    itself being empty: the same invariant. *)
Lemma inv_pending_as_held st hs hc pn :
  inv st hs hc pn →
  inv (set_wait_submit [] st) (λ a, (hs a + occurrences a (wait_submit st))%nat) hc pn.
Proof.
  intros Hinv a. destruct (Hinv a) as [Hs Hc]. split.
  - unfold sqe_ok in *. simpl. destruct (sqe_heap st !! a) as [so|].
    + destruct Hs as (H1 & H2 & H3). unfold occurrences at 2. simpl.
      split; [lia|]. split; assumption.
    + destruct Hs as (H1 & H2 & H3). unfold occurrences at 2. simpl.
      rewrite H1, H2. auto.
  - exact Hc.
Qed.

Lemma inv_list_dealloc l : ∀ st st' hs hc pn,
  inv (set_wait_submit [] st) (λ a, (hs a + occurrences a l)%nat) hc pn →
  list_dealloc l st = Some st' →
  inv (set_wait_submit [] st') hs hc pn.
Proof.
  induction l as [|s l IH]; simpl; intros st st' hs hc pn Hinv H.
  - injection H as <-. eapply inv_ext; [exact Hinv| | |]; intros a; simpl;
      [unfold occurrences; simpl; lia|reflexivity|reflexivity].
  - destruct (Py_DECREF_sqe s st) as [st1|] eqn:Hd; [|discriminate]. simpl in H.
    apply Py_DECREF_sqe_spec in Hd as (so & Hso & D1 & D2 & D3 & Hcase).
    eapply IH; [|exact H].
    eapply (inv_decref_sqe (set_wait_submit [] st) (set_wait_submit [] st1)
              (λ a, (hs a + occurrences a (s :: l))%nat) hc pn s so
              (λ a, (hs a + occurrences a l)%nat) pn);
      try eassumption; try reflexivity.
    + simpl. rewrite occurrences_cons, decide_True by reflexivity. lia.
    + intros x Hx. simpl. rewrite occurrences_cons, decide_False by congruence.
      split; [lia|reflexivity].
Qed.

Lemma list_dealloc_wrappers l : ∀ st st',
  list_dealloc l st = Some st' → cqe_heap st' = cqe_heap st.
Proof.
  induction l as [|s l IH]; simpl; intros st st' H.
  - injection H as <-. reflexivity.
  - destruct (Py_DECREF_sqe s st) as [st0|] eqn:Hd; [|discriminate]. simpl in H.
    apply Py_DECREF_sqe_frame in Hd as (Hc & _). rewrite (IH _ _ H). exact Hc.
Qed.

(** X21.  Destroying the ring object gives back the references of the
    pending list and nothing else: afterwards nothing is pending, every
    reference count is still exact, a request that only the pending list
    kept is freed, and a request with an outstanding submission pin is
    still alive, as no pin is released. *)
Theorem ring_dealloc_keeps_pins st g st' :
  session_inv (st, g) → IoUring_dealloc st = Some st' →
  session_inv (st', g)
  ∧ wait_submit st' = [] ∧ cqe_heap st' = cqe_heap st
  ∧ (∀ s, (0 < pinned g !!! s)%nat → is_Some (sqe_heap st' !! s))
  ∧ (∀ s so, sqe_heap st !! s = Some so →
       held_sqe g !!! s = 0%nat → pinned g !!! s = 0%nat → cqeobj so = None →
       sqe_heap st' !! s = None).
Proof.
  unfold session_inv. simpl. intros Hinv H. unfold IoUring_dealloc in H.
  destruct (list_dealloc (wait_submit st) st) as [st1|] eqn:Hl; [|discriminate].
  injection H as <-.
  assert (Hinv' : inv (set_wait_submit [] st1) (count_of (held_sqe g))
                    (count_of (held_cqe g)) (count_of (pinned g))).
  { eapply inv_list_dealloc; [|exact Hl]. apply inv_pending_as_held. exact Hinv. }
  pose proof (list_dealloc_wrappers _ _ _ Hl) as Hcq.
  split; [exact Hinv'|]. split; [reflexivity|]. split; [exact Hcq|]. split.
  - intros s Hpin. destruct (Hinv' s) as [Hs _]. unfold sqe_ok, count_of in Hs.
    change (sqe_heap (set_wait_submit [] st1)) with (sqe_heap st1) in *.
    destruct (sqe_heap st1 !! s); [eauto|]. lia.
  - intros s so Hso Hheld Hpin Hnone.
    destruct (Hinv' s) as [Hs _]. unfold sqe_ok, count_of in Hs.
    change (sqe_heap (set_wait_submit [] st1)) with (sqe_heap st1) in *.
    change (cqe_heap (set_wait_submit [] st1)) with (cqe_heap st1) in *.
    change (wait_submit (set_wait_submit [] st1)) with (@nil addr) in *.
    destruct (sqe_heap st1 !! s) as [so'|]; [|reflexivity].
    destruct Hs as (H1 & H2 & H3). rewrite Hheld, Hpin in H1.
    unfold occurrences, cached in H1. simpl in H1.
    destruct (cqeobj so') as [c|]; [|lia].
    destruct (H3 c eq_refl) as (co & Hco & Hsq). rewrite Hcq in Hco.
    destruct (Hinv c) as [_ Hc]. unfold cqe_ok in Hc. rewrite Hco in Hc.
    destruct Hc as (_ & _ & s0 & so0 & E1 & E2 & E3).
    assert (s0 = s) as -> by congruence. congruence.
Qed.

Lemma ring_dealloc_keeps_pins_witness :
  ∃ st',
    IoUring_dealloc session_abandoned.1 = Some st'
    ∧ sqe_heap st' !! 2%positive = None
    ∧ is_Some (sqe_heap st' !! 1%positive).
Proof.
  assert (E : IoUring_dealloc session_abandoned.1
              = Some (default IoUring_new (IoUring_dealloc session_abandoned.1)))
    by (vm_compute; reflexivity).
  exists (default IoUring_new (IoUring_dealloc session_abandoned.1)).
  split; [exact E|].
  assert (Hinv : session_inv (session_abandoned.1, session_abandoned.2)).
  { apply (run_inv no_inet_pton session_abandoned_calls (session_start 4));
      [apply session_start_inv|vm_compute; reflexivity]. }
  destruct (ring_dealloc_keeps_pins session_abandoned.1 session_abandoned.2 _ Hinv E)
    as (_ & _ & _ & Hpin & Hfree).
  split.
  - eapply (Hfree 2%positive); vm_compute; reflexivity.
  - apply Hpin. vm_compute; lia.
Defined.

(** ** Reading the peer address back ([Sqe_convert_address]) *)

Lemma byte_of_Z_value z : Z.of_N (Byte.to_N (byte_of_Z z)) = z mod 256.
Proof.
  unfold byte_of_Z. pose proof (Z.mod_pos_bound z 256 ltac:(lia)) as Hb.
  destruct (Byte.of_N (Z.to_N (z mod 256))) as [b|] eqn:E; simpl.
  - apply Byte.to_of_N in E. rewrite E. apply Z2N.id. lia.
  - apply Byte.of_N_None_iff in E. lia.
Qed.

Lemma port_round_trip p :
  le_value (reverse [byte_of_Z (p / 256); byte_of_Z p]) = p mod 65536.
Proof.
  change (Z.of_N (Byte.to_N (byte_of_Z p))
          + 256 * (Z.of_N (Byte.to_N (byte_of_Z (p / 256))) + 256 * 0) = p mod 65536).
  rewrite !byte_of_Z_value. Z.div_mod_to_equations. lia.
Qed.

(** X22.  [convert_address] decodes what [prep_connect] encodes: on a
    request whose owned buffer holds the address image of [(ip, port)]
    followed by the length 16, as after a completed accept, it returns the
    text of the four address bytes and the port modulo 65536, and changes
    nothing.  It depends on the layout [prep_accept] attaches: on a request
    without owned buffer it reads through a [NULL] pointer, and on the
    16-byte buffer of a connect request it reads the length field past the
    end of the buffer. *)
Theorem convert_address_decodes inet_pton inet_ntop st self so b bo ip p l :
  (∀ a, (String.length (inet_ntop a) < 16)%nat) →
  sqe_heap st !! self = Some so → allocated_buffer so = Some b →
  bytes_heap st !! b = Some bo → inet_pton ip = Some l → length l = 4%nat →
  (ob_sval bo = sockaddr_in_image inet_pton ip p ++ le_bytes 4 16 →
     Sqe_convert_address inet_ntop self st
     = Ret (PyTuple [PyUnicode (inet_ntop l); PyLong (p mod 65536)]) st)
  ∧ (ob_sval bo = sockaddr_in_image inet_pton ip p →
       Sqe_convert_address inet_ntop self st = Undefined)
  ∧ (∀ st0 so0, sqe_heap st0 !! self = Some so0 → allocated_buffer so0 = None →
       Sqe_convert_address inet_ntop self st0 = Undefined).
Proof.
  intros Hfit Hso Hb Hbo Hl Hlen.
  destruct l as [|a1 [|a2 [|a3 [|a4 [|]]]]]; try discriminate.
  split; [|split].
  - intros Himg. unfold Sqe_convert_address. rewrite Hso, Hb, Hbo, Himg.
    unfold sockaddr_in_image. rewrite Hl.
    match goal with
    | |- ?L = _ =>
        change L with
          (if 16 <? Z.of_nat (String.length (inet_ntop [a1; a2; a3; a4])) + 1
           then Undefined
           else Ret (PyTuple
                       [PyUnicode (inet_ntop [a1; a2; a3; a4]);
                        PyLong (le_value (reverse [byte_of_Z (p / 256); byte_of_Z p]))])
                  st)
    end.
    pose proof (Hfit [a1; a2; a3; a4]) as Hs.
    destruct (Z.ltb_spec 16 (Z.of_nat (String.length (inet_ntop [a1; a2; a3; a4])) + 1));
      [lia|].
    rewrite port_round_trip. reflexivity.
  - intros Himg. unfold Sqe_convert_address. rewrite Hso, Hb, Hbo, Himg.
    unfold sockaddr_in_image. rewrite Hl. reflexivity.
  - intros st0 so0 Hso0 Hnone. unfold Sqe_convert_address. rewrite Hso0, Hnone.
    reflexivity.
Qed.

Lemma convert_address_decodes_witness :
  Sqe_convert_address inet_ntop_sample 1%positive session_accept_completed
  = Ret (PyTuple [PyUnicode "10.0.0.1"; PyLong 8080]) session_accept_completed.
Proof.
  edestruct (convert_address_decodes inet_pton_sample inet_ntop_sample
               session_accept_completed 1%positive)
    with (b := 1%positive) (ip := "10.0.0.1") (p := 8080)
         (l := [Byte.x0a; Byte.x00; Byte.x00; Byte.x01])
    as (H1 & _).
  - intros a. vm_compute. lia.
  - vm_compute; reflexivity.
  - vm_compute; reflexivity.
  - vm_compute; reflexivity.
  - vm_compute; reflexivity.
  - reflexivity.
  - apply H1. vm_compute; reflexivity.
Defined.

(** ** A request destroyed while it views the caller's buffer *)

(** X23.  When the last reference to a request goes while the request
    holds the view that [prep_send] or [prep_write] attached, [Sqe_dealloc]
    gives the view back before the object is freed: the request is gone and
    the caller's bytes object has the count and the exports it had before
    the prepare call. *)
Theorem request_dealloc_releases_view self so slot b bo e st :
  sqe_heap st !! self = Some so → sqe_refcnt so = 1%nat →
  allocated_buffer so = None →
  bytes_heap st !! b = Some bo → (0 < bytes_refcnt bo)%nat →
  ∃ st2,
    Py_DECREF_sqe self (view_attached self so slot b bo e st) = Some st2
    ∧ sqe_heap st2 = delete self (sqe_heap st)
    ∧ bytes_heap st2 = bytes_heap st
    ∧ cqe_heap st2 = cqe_heap st ∧ wait_submit st2 = wait_submit st.
Proof.
  intros Hso Hone Hb Hbo Hpos.
  unfold Py_DECREF_sqe. unfold view_attached at 1. simpl.
  rewrite lookup_insert_eq. simpl. rewrite Hone.
  unfold Sqe_dealloc, Sqe_reinit_buffer, view_attached. simpl.
  rewrite lookup_insert_eq. simpl.
  unfold PyBuffer_Release. simpl. rewrite lookup_insert_eq. simpl.
  unfold Py_DECREF_bytes. simpl. rewrite lookup_insert_eq. simpl.
  destruct (bytes_refcnt bo) as [|k] eqn:Hk; [lia|]. simpl.
  unfold upd_sqe. simpl. rewrite lookup_insert_eq. simpl.
  rewrite lookup_insert_eq. simpl. rewrite Hb.
  eexists. split; [reflexivity|]. simpl.
  split; [rewrite insert_insert_eq, delete_insert_eq; reflexivity|].
  split; [|split; reflexivity].
  rewrite !insert_insert_eq. apply insert_id. rewrite Hbo. f_equal.
  destruct bo. simpl in *. subst. reflexivity.
Qed.

Lemma request_dealloc_releases_view_witness :
  ∃ st2,
    Py_DECREF_sqe 1%positive
      (view_attached 1%positive
         (mkSqe 1 (Some 0%nat) (-1) 0 (-1) None (mkPy_buffer None 0 0) PyNone None)
         0%nat 7%positive (mkBytes 1 [Byte.x61; Byte.x62; Byte.x63] 0)
         (mkNSqe IORING_OP_SEND 3 (Some 0) (PyBytes_AS_STRING 7%positive) 3 0 0)
         session_message_unheld) = Some st2
    ∧ sqe_heap st2 = delete 1%positive (sqe_heap session_message_unheld)
    ∧ bytes_heap st2 = bytes_heap session_message_unheld.
Proof.
  destruct (request_dealloc_releases_view 1%positive
              (mkSqe 1 (Some 0%nat) (-1) 0 (-1) None (mkPy_buffer None 0 0) PyNone None)
              0%nat 7%positive (mkBytes 1 [Byte.x61; Byte.x62; Byte.x63] 0)
              (mkNSqe IORING_OP_SEND 3 (Some 0) (PyBytes_AS_STRING 7%positive) 3 0 0)
              session_message_unheld)
    as (st2 & R1 & R2 & R3 & _).
  1-5: first [vm_compute; reflexivity | vm_compute; lia].
  exists st2. split; [exact R1|]. split; [exact R2|exact R3].
Defined.
